(** * pubsub-mcp: the request/response correlation bridges

    A shallow embedding of the two correlation bridges of the repository,
    [McpBridgeService] (ai-svc, [callTool] / [handleResponse]) and
    [LlmClientService] (readme-mcp, [sample] / [handleResponse]), of the
    HTTP handlers that feed them, and of the part of the Effect runtime
    they rely on ([Ref], [Deferred], [Effect.race], generators).

    Around the bridges, the services the handlers call: the tool-request
    handler of readme-mcp with [routeToTool], the README validator and
    generator, the sampling service, the message handler, the agent
    service and the chat history it keeps in the state store. *)

From Stdlib Require Import ZArith QArith.
From stdpp Require Import gmap strings list fin_maps pretty.

Set Warnings "-register-all,-clear-no-such-hyp".
Close Scope Q_scope.

(** ** JavaScript values

    Request bodies, payloads and [unknown]-typed fields are JavaScript
    values.  Numbers are kept as rationals (no [NaN], no infinities): the
    code only tests them for truthiness or copies them. *)
Module Js.

Inductive value :=
| Undefined
| Null
| Bool (b : bool)
| Number (n : Q)
| String (s : string)
| Array (items : list value)
| Object (fields : list (string * value)).

(** [if (v)]: the falsy values are [undefined], [null], [false], [0] and
    the empty string. *)
Definition truthy (v : value) : bool :=
  match v with
  | Undefined | Null => false
  | Bool b => b
  | Number n => negb (Qeq_bool n 0)
  | String s => negb (String.eqb s "")
  | Array _ | Object _ => true
  end.

Fixpoint assoc (k : string) (fields : list (string * value)) : value :=
  match fields with
  | [] => Undefined
  | (k', v) :: rest => if String.eqb k k' then v else assoc k rest
  end.

(** [v.k].  Reading a property of [undefined] or [null] throws a
    [TypeError] ([None]); on an object it yields the field or [undefined];
    the property names the code reads ([requestId], [error], [result],
    [content], ...) are own properties of no primitive or array. *)
Definition get (v : value) (k : string) : option value :=
  match v with
  | Undefined | Null => None
  | Object fields => Some (assoc k fields)
  | _ => Some Undefined
  end.

(** [v === s] for a string literal [s]. *)
Definition is_string (v : value) (s : string) : bool :=
  match v with
  | String s' => String.eqb s' s
  | _ => false
  end.

End Js.

(** ** The Effect runtime *)

(** [Cause]: a typed failure, a defect (an exception thrown inside a
    generator), or the two failures of a race both of whose sides failed. *)
Inductive Cause (E : Type) :=
| Fail (e : E)
| Die (defect : string)
| Parallel (left right : Cause E).
Arguments Fail {E} e.
Arguments Die {E} defect.
Arguments Parallel {E} left right.

(** [Cause.failureOption]: the first typed failure of a cause. *)
Fixpoint failureOption {E} (c : Cause E) : option E :=
  match c with
  | Fail e => Some e
  | Die _ => None
  | Parallel l r =>
      match failureOption l with
      | Some e => Some e
      | None => failureOption r
      end
  end.

Inductive Exit (E A : Type) :=
| Success (a : A)
| Failure (c : Cause E).
Arguments Success {E A} a.
Arguments Failure {E A} c.

Inductive LogLevel := Debug | Info | Warning | Error.

(** What a process does to the outside, in the order it does it: log
    lines, publishes, calls into collaborating services, HTTP responses
    ([res.status(..).json(..)]); the two registry entries record the
    [Ref.update]s of the pending-request map. *)
Inductive Op :=
| OpLog (level : LogLevel) (message : string) (annotations : Js.value)
| OpRegistrySet (requestId : string)
| OpRegistryDelete (requestId : string)
| OpPublish (pubsubName topicName : string) (data : Js.value)
| OpInvoke (service : string) (arguments : list Js.value)
| OpRespond (status : Z) (body : Js.value).

(** The state of one service process: the [Ref] holding the map of
    pending requests, the [Deferred] cells created so far ([None] while
    pending), and the chronological trace of its outside actions. *)
Record World (R E : Type) := mkWorld {
  pendingRequests : gmap string R;
  deferreds : list (option (Exit E Js.value));
  trace : list Op
}.
Arguments mkWorld {R E} _ _ _.
Arguments pendingRequests {R E} _.
Arguments deferreds {R E} _.
Arguments trace {R E} _.

Definition emptyWorld {R E} : World R E := mkWorld ∅ [] [].

(** An effect runs on the world and exits with a value or a cause; what
    it did before failing stays done. *)
Definition Eff (R E A : Type) := World R E → Exit E A * World R E.

Section Runtime.
Context {R E : Type}.

Definition succeed {A} (a : A) : Eff R E A := λ w, (Success a, w).
Definition fail {A} (e : E) : Eff R E A := λ w, (Failure (Fail e), w).
Definition die {A} (defect : string) : Eff R E A := λ w, (Failure (Die defect), w).

(** [yield*]: a failure of the first effect ends the generator. *)
Definition bind {A B} (m : Eff R E A) (k : A → Eff R E B) : Eff R E B :=
  λ w, match m w with
       | (Success a, w') => k a w'
       | (Failure c, w') => (Failure c, w')
       end.

(** [Effect.catchAll]: recovers from the first typed failure of the
    cause; a cause made of defects only passes through. *)
Definition catchAll {A} (m : Eff R E A) (h : E → Eff R E A) : Eff R E A :=
  λ w, match m w with
       | (Failure c, w') =>
           match failureOption c with
           | Some e => h e w'
           | None => (Failure c, w')
           end
       | r => r
       end.

Definition emit (o : Op) : Eff R E unit :=
  λ w, (Success tt, mkWorld (pendingRequests w) (deferreds w) (trace w ++ [o])).

Definition logDebug (m : string) (a : Js.value) : Eff R E unit := emit (OpLog Debug m a).
Definition logInfo (m : string) (a : Js.value) : Eff R E unit := emit (OpLog Info m a).
Definition logWarning (m : string) (a : Js.value) : Eff R E unit := emit (OpLog Warning m a).
Definition logError (m : string) (a : Js.value) : Eff R E unit := emit (OpLog Error m a).

(** [res.status(status).json(body)] *)
Definition respond (status : Z) (body : Js.value) : Eff R E unit :=
  emit (OpRespond status body).

(** A call into a collaborating service, which exits as the environment
    decides. *)
Definition invoke {A} (service : string) (arguments : list Js.value)
    (result : Exit E A) : Eff R E A :=
  λ w, (result, mkWorld (pendingRequests w) (deferreds w)
                  (trace w ++ [OpInvoke service arguments])).

(** [Ref.get(pendingRequests)] *)
Definition Ref_get : Eff R E (gmap string R) :=
  λ w, (Success (pendingRequests w), w).

(** [Ref.update(pendingRequests, map => map.set(k, r))] *)
Definition Ref_set (k : string) (r : R) : Eff R E unit :=
  λ w, (Success tt,
        mkWorld (<[k := r]> (pendingRequests w)) (deferreds w)
                (trace w ++ [OpRegistrySet k])).

(** [Ref.update(pendingRequests, map => { map.delete(k); return map })] *)
Definition Ref_delete (k : string) : Eff R E unit :=
  λ w, (Success tt,
        mkWorld (delete k (pendingRequests w)) (deferreds w)
                (trace w ++ [OpRegistryDelete k])).

(** [Deferred.make()]: a new pending cell; its handle is its index. *)
Definition Deferred_make : Eff R E nat :=
  λ w, (Success (length (deferreds w)),
        mkWorld (pendingRequests w) (deferreds w ++ [None]) (trace w)).

(** [Deferred.done]: completes a pending cell and yields [true]; on a
    cell that is already completed it does nothing and yields [false]. *)
Definition Deferred_done (d : nat) (x : Exit E Js.value) : Eff R E bool :=
  λ w, match deferreds w !! d with
       | Some None =>
           (Success true,
            mkWorld (pendingRequests w) (<[d := Some x]> (deferreds w)) (trace w))
       | _ => (Success false, w)
       end.

Definition Deferred_succeed (d : nat) (v : Js.value) : Eff R E bool :=
  Deferred_done d (Success v).
Definition Deferred_fail (d : nat) (e : E) : Eff R E bool :=
  Deferred_done d (Failure (Fail e)).

(** Property access inside a generator: a [TypeError] becomes a defect. *)
Definition prop (v : Js.value) (k : string) : Eff R E Js.value :=
  match Js.get v k with
  | Some x => succeed x
  | None => die "TypeError"
  end.

(** [map.get(key)]: the map is keyed by strings, so a key that is not a
    string finds nothing. *)
Definition Map_get (m : gmap string R) (key : Js.value) : option R :=
  match key with
  | Js.String s => m !! s
  | _ => None
  end.

End Runtime.

Notation "x <~ m ;; k" := (bind m (λ x, k))
  (at level 100, m at next level, right associativity, only parsing).
Notation "m ;;; k" := (bind m (λ _, k))
  (at level 100, right associativity, only parsing).

(** ** [CloudEventSchema] (schemas.ts, the same in both services) *)
Module CloudEvent.

Record t := mk {
  specversion : string;
  type : string;
  source : string;
  id : string;
  data : Js.value
}.

Definition as_string (v : Js.value) : option string :=
  match v with
  | Js.String s => Some s
  | _ => None
  end.

(** [Schema.optional(Schema.String)] *)
Definition optional_string (v : Js.value) : bool :=
  match v with
  | Js.Undefined | Js.String _ => true
  | _ => false
  end.

Definition optional_fields : list string :=
  ["time"; "datacontenttype"; "topic"; "pubsubname"; "traceid"; "traceparent";
   "tracestate"].

Definition has_key (k : string) (fields : list (string * Js.value)) : bool :=
  existsb (λ kv, String.eqb k kv.1) fields.

(** [Schema.decodeUnknown(CloudEventSchema)].  The four required fields
    must be strings and the optional ones strings when present; [data] is
    [Schema.Unknown].  Whether an input without a [data] key passes depends
    on the parse option [exact] of the schema library. *)
Definition decode (exact : bool) (input : Js.value) : option t :=
  match input with
  | Js.Object fields =>
      specversion ← as_string (Js.assoc "specversion" fields);
      type ← as_string (Js.assoc "type" fields);
      source ← as_string (Js.assoc "source" fields);
      id ← as_string (Js.assoc "id" fields);
      if forallb (λ k, optional_string (Js.assoc k fields)) optional_fields
         && (negb exact || has_key "data" fields)
      then Some (mk specversion type source id (Js.assoc "data" fields))
      else None
  | _ => None
  end.

End CloudEvent.

(** ** [Effect.race] and the fibers of the calls in flight

    [Effect.race(self, that)] is the library's race for the first
    success: it yields the value of the first side to succeed and
    interrupts the other side.  A side that fails does not settle the
    race: the race then joins the other side, and fails, with the two
    causes in parallel, only when that one has failed too.  (The race that
    ends with the first side to finish, whether it succeeds or fails, is
    [Effect.raceFirst]; the services do not use it.)  The two functions
    below are the [onSelfDone] and [onOtherDone] continuations of
    [Effect.race]: [None] means that the race goes on waiting. *)

Definition race_onSelfDone {E A} (x : Exit E A) (that : option (Cause E))
  : option (Exit E A) :=
  match x with
  | Success a => Some (Success a)
  | Failure c =>
      match that with
      | Some c' => Some (Failure (Parallel c c'))
      | None => None
      end
  end.

Definition race_onOtherDone {E A} (x : Exit E A) (self : option (Cause E))
  : option (Exit E A) :=
  match x with
  | Success a => Some (Success a)
  | Failure c =>
      match self with
      | Some c' => Some (Failure (Parallel c' c))
      | None => None
      end
  end.

(** Where a call is: waiting for the publish promise, inside the race
    (each side is running, [None], or has failed), or returned. *)
Inductive Phase (E : Type) :=
| Publishing
| Racing (awaitSide timeoutSide : option (Cause E))
| Done (x : Exit E Js.value).
Arguments Publishing {E}.
Arguments Racing {E} awaitSide timeoutSide.
Arguments Done {E} x.

Record Fiber (E I : Type) := mkFiber {
  f_requestId : string;
  f_input : I;
  f_deferred : nat;
  f_phase : Phase E
}.
Arguments mkFiber {E I} _ _ _ _.
Arguments f_requestId {E I} _.
Arguments f_input {E I} _.
Arguments f_deferred {E I} _.
Arguments f_phase {E I} _.

Definition set_phase {E I} (p : Phase E) (f : Fiber E I) : Fiber E I :=
  mkFiber (f_requestId f) (f_input f) (f_deferred f) p.

(** The pieces of a bridge between its suspension points.  [I] is what a
    call takes in: its arguments and what it reads from the environment
    (clock, further uuids). *)
Class Bridge (R E I : Type) := {
  (** up to the moment the publish promise is created; yields the deferred *)
  call_begin : string → I → Eff R E nat;
  (** from the settling of the publish promise to the start of the race *)
  call_published : string → I → bool → Eff R E unit;
  (** the timeout side of the race, after its sleep *)
  call_timeout : string → I → Eff R E Js.value;
  (** after the race *)
  call_cleanup : string → Js.value → Eff R E Js.value;
  handle_response : Js.value → Eff R E unit;
  record_deferred : R → nat
}.

Record Sched (R E I : Type) := mkSched {
  world : World R E;
  fibers : list (Fiber E I)
}.
Arguments mkSched {R E I} _ _.
Arguments world {R E I} _.
Arguments fibers {R E I} _.

Definition initSched {R E I} : Sched R E I := mkSched emptyWorld [].

(** What can happen to a bridge: a call starts, its publish promise
    settles, a response is handed to [handleResponse], the fiber of a call
    resumes from the await of its deferred, the sleep of its timeout side
    ends.  The request id of a call is the uuid the environment draws for
    it.  The code between two suspension points of a call runs in one
    move, and so does [handleResponse], none of whose steps suspends. *)
Inductive Event (I : Type) :=
| Call (requestId : string) (input : I)
| PublishSettled (fiber : nat) (ok : bool)
| Deliver (response : Js.value)
| AwaitResumed (fiber : nat)
| SleepElapsed (fiber : nat).
Arguments Call {I} requestId input.
Arguments PublishSettled {I} fiber ok.
Arguments Deliver {I} response.
Arguments AwaitResumed {I} fiber.
Arguments SleepElapsed {I} fiber.

Section Scheduler.
Context {R E I : Type} {B : Bridge R E I}.

Definition update_fiber (i : nat) (p : Phase E) (w : World R E)
    (s : Sched R E I) : Sched R E I :=
  mkSched w (alter (set_phase p) i (fibers s)).

(** The generator after the race: a failure of the race ends the call,
    a value goes through the cleanup. *)
Definition after_race (rid : string) (x : Exit E Js.value) : Eff R E Js.value :=
  match x with
  | Success a => call_cleanup rid a
  | Failure c => λ w, (Failure c, w)
  end.

Definition step (ev : Event I) (s : Sched R E I) : Sched R E I :=
  match ev with
  | Call rid input =>
      match call_begin rid input (world s) with
      | (Success d, w) => mkSched w (fibers s ++ [mkFiber rid input d Publishing])
      | (Failure c, w) => mkSched w (fibers s ++ [mkFiber rid input 0 (Done (Failure c))])
      end
  | PublishSettled i ok =>
      match fibers s !! i with
      | Some (mkFiber rid input d Publishing) =>
          match call_published rid input ok (world s) with
          | (Success _, w) => update_fiber i (Racing None None) w s
          | (Failure c, w) => update_fiber i (Done (Failure c)) w s
          end
      | _ => s
      end
  | Deliver response =>
      mkSched (handle_response response (world s)).2 (fibers s)
  | AwaitResumed i =>
      match fibers s !! i with
      | Some (mkFiber rid input d (Racing None that)) =>
          match deferreds (world s) !! d with
          | Some (Some x) =>
              match race_onSelfDone x that with
              | Some r =>
                  let '(r', w) := after_race rid r (world s) in
                  update_fiber i (Done r') w s
              | None =>
                  match x with
                  | Failure c => update_fiber i (Racing (Some c) that) (world s) s
                  | Success _ => s
                  end
              end
          | _ => s
          end
      | _ => s
      end
  | SleepElapsed i =>
      match fibers s !! i with
      | Some (mkFiber rid input d (Racing self None)) =>
          let '(x, w) := call_timeout rid input (world s) in
          match race_onOtherDone x self with
          | Some r =>
              let '(r', w') := after_race rid r w in
              update_fiber i (Done r') w' s
          | None =>
              match x with
              | Failure c => update_fiber i (Racing self (Some c)) w s
              | Success _ => mkSched w (fibers s)
              end
          end
      | _ => s
      end
  end.

Definition run (evs : list (Event I)) (s : Sched R E I) : Sched R E I :=
  fold_left (λ s ev, step ev s) evs s.

Definition phase_of (i : nat) (s : Sched R E I) : option (Phase E) :=
  f_phase <$> fibers s !! i.

End Scheduler.

(** ** ai-svc *)
Module AiSvc.

(** The failures of the process: those of the bridge
    (mcp-bridge.service.ts, dapr.service.ts) and those its HTTP handlers
    can meet (schema parse errors, failures of the sampling and of the
    message-handler service). *)
Inductive Error :=
| McpToolError (toolName : string) (cause : Js.value)
| McpToolTimeoutError (toolName requestId : string) (timeoutMs : Z)
| DaprError (operation : string)
| ParseError (issue : string)
| SamplingError (requestId : Js.value)
| CloudEventValidationError
| MessageProcessingError (messageId : string).

(** [String(error)].  The errors of the bridge and the [DaprError] of
    dapr.service.ts extend [Error] and keep its name; the errors of
    errors.ts are tagged errors without a message, whose text is their
    tag; the text of a [ParseError] of the schema library is its issue,
    formatted as a tree. *)
Definition show (e : Error) : string :=
  match e with
  | McpToolError t _ => "Error: MCP tool '" +:+ t +:+ "' failed"
  | McpToolTimeoutError t _ ms =>
      "Error: MCP tool '" +:+ t +:+ "' timed out after " +:+ pretty ms +:+ "ms"
  | DaprError operation => "Error: Dapr operation '" +:+ operation +:+ "' failed"
  | ParseError issue => issue
  | SamplingError _ => "SamplingError"
  | CloudEventValidationError => "CloudEventValidationError"
  | MessageProcessingError _ => "MessageProcessingError"
  end.

(** [error._tag] *)
Definition tag (e : Error) : string :=
  match e with
  | McpToolError _ _ => "McpToolError"
  | McpToolTimeoutError _ _ _ => "McpToolTimeoutError"
  | DaprError _ => "DaprError"
  | ParseError _ => "ParseError"
  | SamplingError _ => "SamplingError"
  | CloudEventValidationError => "CloudEventValidationError"
  | MessageProcessingError _ => "MessageProcessingError"
  end.

(** The object that [JSON.stringify(error, null, 2)] and the log
    annotations show: for a [ParseError] what its [toJSON] returns, for
    the others the tag and the fields kept in [Error]. *)
Definition json (e : Error) : Js.value :=
  match e with
  | McpToolError t cause =>
      Js.Object [("_tag", Js.String (tag e)); ("toolName", Js.String t); ("cause", cause)]
  | McpToolTimeoutError t requestId ms =>
      Js.Object [("_tag", Js.String (tag e)); ("toolName", Js.String t);
                 ("requestId", Js.String requestId); ("timeoutMs", Js.Number (inject_Z ms))]
  | DaprError operation =>
      Js.Object [("_tag", Js.String (tag e)); ("operation", Js.String operation)]
  | ParseError issue =>
      Js.Object [("_id", Js.String "ParseError"); ("message", Js.String issue)]
  | SamplingError requestId =>
      Js.Object [("_tag", Js.String (tag e)); ("requestId", requestId)]
  | CloudEventValidationError => Js.Object [("_tag", Js.String (tag e))]
  | MessageProcessingError messageId =>
      Js.Object [("_tag", Js.String (tag e)); ("messageId", Js.String messageId)]
  end.

(** [interface PendingRequest] *)
Record PendingRequest := mkPendingRequest {
  deferred : nat;
  timestamp : Z;
  toolName : string
}.

(** What one [callTool(toolName, args)] takes in: its two arguments, the
    second uuid it draws (the CloudEvent id) and [Date.now()]. *)
Record Input := mkInput {
  in_toolName : string;
  in_args : Js.value;
  in_eventId : string;
  in_now : Z
}.

Definition toolRequestTopic : string := "mcp-tool-requests".
Definition toolTimeout : Z := 30000.

Abbreviation M := (Eff PendingRequest Error).

(** [DaprService.publishEvent], up to the publish promise ... *)
Definition publishEvent_start (pubsubName topicName : string) (data : Js.value)
  : M unit :=
  logDebug ("Publishing event to " +:+ pubsubName +:+ "/" +:+ topicName) Js.Undefined ;;;
  emit (OpPublish pubsubName topicName data).

(** ... and from the settling of that promise on. *)
Definition publishEvent_settle (pubsubName topicName : string) (ok : bool)
  : M unit :=
  if ok
  then logInfo ("Event published successfully to " +:+ pubsubName +:+ "/" +:+ topicName)
               Js.Undefined
  else fail (DaprError "publishEvent").

Section Service.
(** [yield* config.getPubsubName], and the text the schema library
    gives the issue of an input that [CloudEventSchema] rejects (the
    tree of [TreeFormatter]). *)
Variables (pubsubName : string) (formatIssue : Js.value → string).

(** *** [McpBridgeService] *)

(** [callTool], from its first line to the publish. *)
Definition callTool_begin (requestId : string) (i : Input) : M nat :=
  logDebug "Creating MCP tool request"
    (Js.Object [("requestId", Js.String requestId);
                ("toolName", Js.String (in_toolName i));
                ("args", in_args i)]) ;;;
  deferred <~ Deferred_make ;;
  Ref_set requestId
    {| deferred := deferred; timestamp := in_now i; toolName := in_toolName i |} ;;;
  let toolRequest :=
    Js.Object [("specversion", Js.String "1.0");
               ("type", Js.String "mcp.tool.request");
               ("source", Js.String "ai-svc");
               ("id", Js.String (in_eventId i));
               ("data", Js.Object [("requestId", Js.String requestId);
                                   ("tool", Js.String (in_toolName i));
                                   ("arguments", in_args i)])] in
  publishEvent_start pubsubName toolRequestTopic toolRequest ;;;
  succeed deferred.

(** [callTool], from the publish to the race. *)
Definition callTool_published (requestId : string) (i : Input) (ok : bool)
  : M unit :=
  publishEvent_settle pubsubName toolRequestTopic ok ;;;
  logInfo "MCP tool request published"
    (Js.Object [("requestId", Js.String requestId);
                ("toolName", Js.String (in_toolName i))]).

(** The second side of the race, after [Effect.sleep(toolTimeout)]. *)
Definition callTool_timeout (requestId : string) (i : Input) : M Js.value :=
  Ref_delete requestId ;;;
  fail (McpToolTimeoutError (in_toolName i) requestId toolTimeout).

(** [callTool], after the race. *)
Definition callTool_cleanup (requestId : string) (result : Js.value) : M Js.value :=
  Ref_delete requestId ;;;
  succeed result.

Definition handleResponse (response : Js.value) : M unit :=
  requestId <~ prop response "requestId" ;;
  logDebug "Received MCP tool response" (Js.Object [("requestId", requestId)]) ;;;
  pending <~ Ref_get ;;
  match Map_get pending requestId with
  | None =>
      logWarning "Received response for unknown request"
        (Js.Object [("requestId", requestId)])
  | Some request =>
      error <~ prop response "error" ;;
      if Js.truthy error then
        logError "MCP tool request failed"
          (Js.Object [("requestId", requestId);
                      ("toolName", Js.String (toolName request));
                      ("error", error)]) ;;;
        Deferred_fail (deferred request) (McpToolError (toolName request) error) ;;;
        succeed tt
      else
        logInfo "MCP tool request succeeded"
          (Js.Object [("requestId", requestId);
                      ("toolName", Js.String (toolName request))]) ;;;
        result <~ prop response "result" ;;
        Deferred_succeed (deferred request) result ;;;
        succeed tt
  end.

Definition bridge : Bridge PendingRequest Error Input := {|
  call_begin := callTool_begin;
  call_published := callTool_published;
  call_timeout := callTool_timeout;
  call_cleanup := callTool_cleanup;
  handle_response := handleResponse;
  record_deferred := deferred
|}.

(** *** The HTTP handlers (index.ts) *)

(** [app.post("/mcp-tool-events")].  Where a log line interpolates the
    JSON text of a value ([JSON.stringify(req.body)],
    [JSON.stringify(error, null, 2)]), the value is kept as the annotation
    of the line. *)
Definition post_mcp_tool_events (exact : bool) (body : Js.value) : M unit :=
  catchAll
    (logInfo "Received MCP tool response from Dapr pub/sub" Js.Undefined ;;;
     logDebug "Request body: " body ;;;
     decoded <~ from_option succeed (fail (ParseError (formatIssue body)))
                  (CloudEvent.decode exact body) ;;
     (if String.eqb (CloudEvent.type decoded) "mcp.tool.response"
      then handleResponse (CloudEvent.data decoded)
      else succeed tt) ;;;
     respond 200 (Js.Object [("success", Js.Bool true)]))
    (λ error,
       logError "Error processing MCP tool response: " (json error) ;;;
       respond 500 (Js.Object [("error", Js.String "Failed to process MCP tool response");
                               ("message", Js.String (show error))])).

(** What the collaborators of [/ai-events] answer, and the uuid it
    draws for the response event. *)
Record Env := mkEnv {
  handleMessage_exit : Exit Error Js.value;
  sample_exit : Exit Error Js.value;
  publish_ok : bool;
  responseEventId : string
}.

(** [app.post("/ai-events")] *)
Definition post_ai_events (exact : bool) (env : Env) (body : Js.value) : M unit :=
  catchAll
    (logInfo "Received AI event from Dapr pub/sub" Js.Undefined ;;;
     logDebug "Request body: " body ;;;
     let eventData := body in
     decoded <~ from_option succeed (fail (ParseError (formatIssue eventData)))
                  (CloudEvent.decode exact eventData) ;;
     if String.eqb (CloudEvent.type decoded) "agent.request" then
       result <~ invoke "MessageHandlerService.handleMessage" [eventData]
                   (handleMessage_exit env) ;;
       respond 200 (Js.Object [("success", Js.Bool true); ("result", result)])
     else
       isSampling <~ (if String.eqb (CloudEvent.type decoded) "sampling.request"
                      then succeed true
                      else requestId <~ prop (CloudEvent.data decoded) "requestId" ;;
                           succeed (Js.truthy requestId)) ;;
       if isSampling : bool then
         requestId <~ prop (CloudEvent.data decoded) "requestId" ;;
         logInfo "Processing sampling request" (Js.Object [("requestId", requestId)]) ;;;
         let samplingReq := CloudEvent.data decoded in
         prompt <~ prop samplingReq "prompt" ;;
         model <~ prop samplingReq "model" ;;
         temperature <~ prop samplingReq "temperature" ;;
         maxTokens <~ prop samplingReq "maxTokens" ;;
         response <~ invoke "SamplingService.sample"
                       [requestId; prompt; model; temperature; maxTokens]
                       (sample_exit env) ;;
         let cloudEvent :=
           Js.Object [("specversion", Js.String "1.0");
                      ("type", Js.String "mcp.sampling.response");
                      ("source", Js.String "ai-svc");
                      ("id", Js.String (responseEventId env));
                      ("data", response)] in
         publishEvent_start pubsubName "ai-stream-responses" cloudEvent ;;;
         publishEvent_settle pubsubName "ai-stream-responses" (publish_ok env) ;;;
         respond 200 (Js.Object [("success", Js.Bool true)])
       else
         logWarning "Unknown event type"
           (Js.Object [("type", Js.String (CloudEvent.type decoded))]) ;;;
         respond 400 (Js.Object [("error", Js.String "Unknown event type");
                                 ("type", Js.String (CloudEvent.type decoded))]))
    (λ error,
       logError "Error processing AI event: " (json error) ;;;
       logError ("Error type: " +:+ tag error) Js.Undefined ;;;
       respond 500 (Js.Object [("error", Js.String "Failed to process AI event");
                               ("message", Js.String (show error))])).

End Service.

(** [SamplingService.sample]: the response it builds from the model's
    answer (sampling.service.ts); [tokensUsed] is [undefined] when the
    model reports no usage. *)
Definition samplingResponse (requestId content model : string) (tokensUsed : Js.value)
  : Js.value :=
  Js.Object [("requestId", Js.String requestId);
             ("content", Js.String content);
             ("model", Js.String model);
             ("tokensUsed", tokensUsed)].

End AiSvc.

(** ** readme-mcp *)
Module ReadmeMcp.

(** The failures of the process: those of the sampling client
    (llm-client.service.ts, dapr.service.ts, errors.ts) and those its HTTP
    handlers can meet. *)
Inductive Error :=
| LlmClientError (operation : string) (message : Js.value)
| TimeoutError (operation : string) (timeoutMs : Z) (message : string)
| DaprError (operation message : string)
| ParseError (issue : string).

(** [Error.prototype.toString]: the name, then the message unless it is
    empty. *)
Definition Error_toString (name message : string) : string :=
  if String.eqb message "" then name else name +:+ ": " +:+ message.

(** [String(error)]: the errors of errors.ts are tagged errors, whose
    name is their tag; the message of an [LlmClientError] is the [error]
    of the response, whatever value that is ([toString] gives the text of
    one that is not a string); the text of a [ParseError] of the schema
    library is its issue, formatted as a tree. *)
Definition show (toString : Js.value → string) (e : Error) : string :=
  match e with
  | LlmClientError _ m =>
      Error_toString "LlmClientError"
        match m with
        | Js.String s => s
        | Js.Undefined => ""
        | _ => toString m
        end
  | TimeoutError _ _ m => Error_toString "TimeoutError" m
  | DaprError _ m => Error_toString "DaprError" m
  | ParseError issue => issue
  end.

(** [interface PendingRequest] *)
Record PendingRequest := mkPendingRequest {
  deferred : nat;
  timestamp : Z
}.

(** What one [sample(prompt, model, temperature)] takes in: its arguments
    ([None] where the caller leaves an optional one out), [Date.now()] and
    [new Date().toISOString()]. *)
Record Input := mkInput {
  in_prompt : string;
  in_model : option string;
  in_temperature : option Q;
  in_now : Z;
  in_isoNow : string
}.

Abbreviation M := (Eff PendingRequest Error).

(** [DaprService.publishEvent], up to the publish promise ... *)
Definition publishEvent_start (pubsubName topicName : string) (data : Js.value)
  : M unit :=
  logDebug ("Publishing event to " +:+ pubsubName +:+ "/" +:+ topicName) Js.Undefined ;;;
  emit (OpPublish pubsubName topicName data).

(** ... and from the settling of that promise on. *)
Definition publishEvent_settle (pubsubName topicName : string) (ok : bool)
  : M unit :=
  if ok
  then logInfo "Event published successfully"
         (Js.Object [("pubsubName", Js.String pubsubName);
                     ("topicName", Js.String topicName)])
  else fail (DaprError "publishEvent"
               ("Failed to publish event to " +:+ pubsubName +:+ "/" +:+ topicName)).

(** The default parameters [model = "azure/gpt-4.1"], [temperature = 0.7]. *)
Definition model_of (i : Input) : string := default "azure/gpt-4.1" (in_model i).
Definition temperature_of (i : Input) : Q := default (7 # 10)%Q (in_temperature i).

Section Service.
(** [config.getPubsubName], [config.getTopicName],
    [config.getSamplingTimeout]; the text the engine gives a value that
    is not a string, and the text the schema library gives the issue of an
    input that [CloudEventSchema] rejects. *)
Variables (pubsubName topicName : string) (timeoutMs : Z).
Variables (toString formatIssue : Js.value → string).

(** *** [LlmClientService] *)

(** [sample], from its first line to the publish. *)
Definition sample_begin (requestId : string) (i : Input) : M nat :=
  logDebug "Creating sampling request"
    (Js.Object [("requestId", Js.String requestId);
                ("model", Js.String (model_of i));
                ("temperature", Js.Number (temperature_of i))]) ;;;
  deferred <~ Deferred_make ;;
  Ref_set requestId {| deferred := deferred; timestamp := in_now i |} ;;;
  let samplingRequest :=
    Js.Object [("requestId", Js.String requestId);
               ("prompt", Js.String (in_prompt i));
               ("model", Js.String (model_of i));
               ("temperature", Js.Number (temperature_of i));
               ("maxTokens", Js.Number (inject_Z 2000));
               ("metadata", Js.Object [("source", Js.String "readme-mcp");
                                       ("timestamp", Js.String (in_isoNow i))])] in
  publishEvent_start pubsubName topicName samplingRequest ;;;
  succeed deferred.

(** [sample], from the publish to the race. *)
Definition sample_published (requestId : string) (i : Input) (ok : bool) : M unit :=
  publishEvent_settle pubsubName topicName ok ;;;
  logInfo "Sampling request published" (Js.Object [("requestId", Js.String requestId)]).

(** The second side of the race, after [Effect.sleep(timeoutMs)]. *)
Definition sample_timeout (requestId : string) (i : Input) : M Js.value :=
  Ref_delete requestId ;;;
  fail (TimeoutError "sample" timeoutMs
          ("Sampling request " +:+ requestId +:+ " timed out after "
             +:+ pretty timeoutMs +:+ "ms")).

(** [sample], after the race. *)
Definition sample_cleanup (requestId : string) (result : Js.value) : M Js.value :=
  Ref_delete requestId ;;;
  succeed result.

Definition handleResponse (response : Js.value) : M unit :=
  requestId <~ prop response "requestId" ;;
  logDebug "Received sampling response" (Js.Object [("requestId", requestId)]) ;;;
  pending <~ Ref_get ;;
  match Map_get pending requestId with
  | None =>
      logWarning "Received response for unknown request"
        (Js.Object [("requestId", requestId)])
  | Some request =>
      error <~ prop response "error" ;;
      if Js.truthy error then
        logError "Sampling request failed"
          (Js.Object [("requestId", requestId); ("error", error)]) ;;;
        Deferred_fail (deferred request) (LlmClientError "sample" error) ;;;
        succeed tt
      else
        tokensUsed <~ prop response "tokensUsed" ;;
        logInfo "Sampling request succeeded"
          (Js.Object [("requestId", requestId); ("tokensUsed", tokensUsed)]) ;;;
        content <~ prop response "content" ;;
        Deferred_succeed (deferred request) content ;;;
        succeed tt
  end.

Definition bridge : Bridge PendingRequest Error Input := {|
  call_begin := sample_begin;
  call_published := sample_published;
  call_timeout := sample_timeout;
  call_cleanup := sample_cleanup;
  handle_response := handleResponse;
  record_deferred := deferred
|}.

(** *** The HTTP handler of the sampling responses (index.ts) *)

(** [app.post("/mcp-events")] *)
Definition post_mcp_events (exact : bool) (body : Js.value) : M unit :=
  catchAll
    (logDebug "Received MCP event" (Js.Object [("body", body)]) ;;;
     eventData <~ from_option succeed (fail (ParseError (formatIssue body)))
                    (CloudEvent.decode exact body) ;;
     logInfo "Processing sampling response"
       (Js.Object [("id", Js.String (CloudEvent.id eventData));
                   ("type", Js.String (CloudEvent.type eventData))]) ;;;
     (if String.eqb (CloudEvent.type eventData) "mcp.sampling.response"
      then handleResponse (CloudEvent.data eventData)
      else succeed tt) ;;;
     respond 200 (Js.Object [("success", Js.Bool true)]))
    (λ error,
       logError ("Failed to process event: " +:+ show toString error) Js.Undefined ;;;
       respond 500 (Js.Object [("error", Js.String "Event processing failed");
                               ("message", Js.String (show toString error))])).

End Service.

(** The response the tool-request handler builds from a tool's result
    ([app.post("/mcp-tool-events")], index.ts). *)
Definition toolResponse (requestId : Js.value) (result : Js.value) : Js.value :=
  Js.Object [("requestId", requestId); ("result", result)].

End ReadmeMcp.

(** ** What the scheduler needs to know of a bridge

    The effect of each piece of a bridge on the registry and on the
    deferred cells; both services are shown to satisfy it below. *)
Class BridgeLaws {R E I} (B : Bridge R E I) := {
  begin_exit : ∀ rid i w, (call_begin rid i w).1 = Success (length (deferreds w));
  begin_registry : ∀ rid i w, ∃ r,
    pendingRequests (call_begin rid i w).2 = <[rid := r]> (pendingRequests w)
    ∧ record_deferred r = length (deferreds w);
  begin_deferreds : ∀ rid i w,
    deferreds (call_begin rid i w).2 = deferreds w ++ [None];
  published_exit : ∀ rid i (ok : bool) w,
    if ok then (call_published rid i ok w).1 = Success tt
    else ∃ e, (call_published rid i ok w).1 = Failure (Fail e);
  published_registry : ∀ rid i ok w,
    pendingRequests (call_published rid i ok w).2 = pendingRequests w;
  published_deferreds : ∀ rid i ok w,
    deferreds (call_published rid i ok w).2 = deferreds w;
  timeout_exit : ∀ rid i w, ∃ e, (call_timeout rid i w).1 = Failure (Fail e);
  timeout_registry : ∀ rid i w,
    pendingRequests (call_timeout rid i w).2 = delete rid (pendingRequests w);
  timeout_deferreds : ∀ rid i w, deferreds (call_timeout rid i w).2 = deferreds w;
  cleanup_exit : ∀ rid v w, (call_cleanup rid v w).1 = Success v;
  cleanup_registry : ∀ rid v w,
    pendingRequests (call_cleanup rid v w).2 = delete rid (pendingRequests w);
  cleanup_deferreds : ∀ rid v w, deferreds (call_cleanup rid v w).2 = deferreds w;
  handle_registry : ∀ resp w,
    pendingRequests (handle_response resp w).2 = pendingRequests w;
  handle_unknown : ∀ resp rid w,
    Js.get resp "requestId" = Some (Js.String rid) →
    pendingRequests w !! rid = None →
    (handle_response resp w).1 = Success tt
    ∧ deferreds (handle_response resp w).2 = deferreds w;
  handle_deferreds : ∀ resp w,
    deferreds (handle_response resp w).2 = deferreds w
    ∨ ∃ rid r x, pendingRequests w !! rid = Some r
        ∧ deferreds w !! record_deferred r = Some None
        ∧ deferreds (handle_response resp w).2
          = <[record_deferred r := Some x]> (deferreds w)
}.

Abbreviation registry s := (pendingRequests (world s)).
Abbreviation cells s := (deferreds (world s)).

Section Steps.
Context {R E I : Type}.
Context (B : Bridge R E I).

(** The moves of a bridge, on the registry, the deferred cells and the
    fibers. *)
Inductive Step : Event I → Sched R E I → Sched R E I → Prop :=
| Step_call rid i s s' r :
    record_deferred r = length (cells s) →
    registry s' = <[rid := r]> (registry s) →
    cells s' = cells s ++ [None] →
    fibers s' = fibers s ++ [mkFiber rid i (length (cells s)) Publishing] →
    Step (Call rid i) s s'
| Step_skip ev s s' :
    (∀ rid i, ev ≠ Call rid i) →
    registry s' = registry s → cells s' = cells s → fibers s' = fibers s →
    Step ev s s'
| Step_published i (ok : bool) f p s s' :
    fibers s !! i = Some f → f_phase f = Publishing →
    (if ok then p = Racing None None else ∃ e, p = Done (Failure (Fail e))) →
    registry s' = registry s → cells s' = cells s →
    fibers s' = alter (set_phase p) i (fibers s) →
    Step (PublishSettled i ok) s s'
| Step_deliver resp rid r x s s' :
    registry s !! rid = Some r →
    cells s !! record_deferred r = Some None →
    registry s' = registry s →
    cells s' = <[record_deferred r := Some x]> (cells s) →
    fibers s' = fibers s →
    Step (Deliver resp) s s'
| Step_await_value i f that v s s' :
    fibers s !! i = Some f → f_phase f = Racing None that →
    cells s !! f_deferred f = Some (Some (Success v)) →
    registry s' = delete (f_requestId f) (registry s) → cells s' = cells s →
    fibers s' = alter (set_phase (Done (Success v))) i (fibers s) →
    Step (AwaitResumed i) s s'
| Step_await_failed i f that c p s s' :
    fibers s !! i = Some f → f_phase f = Racing None that →
    cells s !! f_deferred f = Some (Some (Failure c)) →
    p = match that with
        | Some c' => Done (Failure (Parallel c c'))
        | None => Racing (Some c) None
        end →
    registry s' = registry s → cells s' = cells s →
    fibers s' = alter (set_phase p) i (fibers s) →
    Step (AwaitResumed i) s s'
| Step_sleep i f self e p s s' :
    fibers s !! i = Some f → f_phase f = Racing self None →
    p = match self with
        | Some c' => Done (Failure (Parallel c' (Fail e)))
        | None => Racing None (Some (Fail e))
        end →
    registry s' = delete (f_requestId f) (registry s) → cells s' = cells s →
    fibers s' = alter (set_phase p) i (fibers s) →
    Step (SleepElapsed i) s s'.

End Steps.

(** ** Predicates on runs *)

(** The request ids drawn by the calls of a run. *)
Definition call_ids {I} (evs : list (Event I)) : list string :=
  omap (λ ev, match ev with Call rid _ => Some rid | _ => None end) evs.

(** The exits a call can leave the race with: the delivered value, or both
    failures once the await side and the timeout side have both failed. *)
Definition left_race {E} (x : Exit E Js.value) : Prop :=
  match x with
  | Success _ | Failure (Parallel _ _) => True
  | Failure _ => False
  end.

(** The phases in which the call's own removal of its record has run. *)
Definition removed {E} (p : Phase E) : Prop :=
  match p with
  | Racing _ (Some _) => True
  | Done x => left_race x
  | _ => False
  end.

Section Predicates.
Context {R E I : Type} {B : Bridge R E I}.

(** Once its own removal has run, a call's record is gone, as long as no
    later call draws the same request id. *)
Definition Clean (used : list string) (s : Sched R E I) : Prop :=
  ∀ i f, fibers s !! i = Some f →
    f_requestId f ∈ used
    ∧ (removed (f_phase f) → registry s !! f_requestId f = None).

(** The call whose timeout side has failed while its deferred is still
    pending, and whose deferred no record of the registry holds. *)
Definition Stuck (i : nat) (c : Cause E) (d : nat) (s : Sched R E I) : Prop :=
  (∃ f, fibers s !! i = Some f ∧ f_phase f = Racing None (Some c)
        ∧ f_deferred f = d)
  ∧ cells s !! d = Some None
  ∧ ∀ rid r, registry s !! rid = Some r → record_deferred r ≠ d.

(** The record of a call that failed at the publish, while no fiber
    that could still remove it carries its request id. *)
Definition Leaked (rid : string) (s : Sched R E I) : Prop :=
  is_Some (registry s !! rid)
  ∧ ∀ i f, fibers s !! i = Some f → f_requestId f = rid →
      ∃ x, f_phase f = Done x.

(** Every record of the registry belongs to a fiber, and the fibers hold
    distinct deferreds. *)
Definition Owned (s : Sched R E I) : Prop :=
  (∀ j f, fibers s !! j = Some f → f_deferred f < length (cells s))
  ∧ (∀ j k f g, fibers s !! j = Some f → fibers s !! k = Some g →
       f_deferred f = f_deferred g → j = k)
  ∧ (∀ rid r, registry s !! rid = Some r →
       ∃ j f, fibers s !! j = Some f ∧ f_requestId f = rid
              ∧ f_deferred f = record_deferred r).

End Predicates.

(** ** What a response resolves to, and what the schemas accept *)

(** [Deferred.done] on the cells: a pending cell is completed, a completed
    one is left alone. *)
Definition complete {E} (d : nat) (x : Exit E Js.value)
    (cells : list (option (Exit E Js.value))) : list (option (Exit E Js.value)) :=
  match cells !! d with
  | Some None => <[d := Some x]> cells
  | _ => cells
  end.

(** The exit a tool response completes the deferred with. *)
Definition AiSvc_resolution (r : AiSvc.PendingRequest) (fields : list (string * Js.value))
  : Exit AiSvc.Error Js.value :=
  if Js.truthy (Js.assoc "error" fields)
  then Failure (Fail (AiSvc.McpToolError (AiSvc.toolName r) (Js.assoc "error" fields)))
  else Success (Js.assoc "result" fields).

(** The exit a sampling response completes the deferred with. *)
Definition ReadmeMcp_resolution (fields : list (string * Js.value))
  : Exit ReadmeMcp.Error Js.value :=
  if Js.truthy (Js.assoc "error" fields)
  then Failure (Fail (ReadmeMcp.LlmClientError "sample" (Js.assoc "error" fields)))
  else Success (Js.assoc "content" fields).

Definition is_publish (o : Op) : bool :=
  match o with
  | OpPublish _ _ _ => true
  | _ => false
  end.

Definition is_respond (o : Op) : bool :=
  match o with
  | OpRespond _ _ => true
  | _ => false
  end.

Definition is_invoke (o : Op) : bool :=
  match o with
  | OpInvoke _ _ => true
  | _ => false
  end.

(** [d.k] on a value that is neither [undefined] nor [null]. *)
Definition field (d : Js.value) (k : string) : Js.value :=
  default Js.Undefined (Js.get d k).





(** ** Running examples *)

(** [callTool("validate-readme", {content: "# X"})] *)
Definition example_call : AiSvc.Input :=
  {| AiSvc.in_toolName := "validate-readme";
     AiSvc.in_args := Js.Object [("content", Js.String "# X")];
     AiSvc.in_eventId := "evt-1";
     AiSvc.in_now := 1700000000000 |}.

(** [sample("Summarise the README")] *)
Definition example_sample : ReadmeMcp.Input :=
  {| ReadmeMcp.in_prompt := "Summarise the README";
     ReadmeMcp.in_model := None;
     ReadmeMcp.in_temperature := None;
     ReadmeMcp.in_now := 1700000000000;
     ReadmeMcp.in_isoNow := "2023-11-14T22:13:20.000Z" |}.

Abbreviation ai_run := (run (B := AiSvc.bridge "ai-pubsub")).
Abbreviation ai_step := (step (B := AiSvc.bridge "ai-pubsub")).
Abbreviation mcp_run := (run (B := ReadmeMcp.bridge "ai-pubsub" "ai-stream" 30000)).
Abbreviation mcp_step := (step (B := ReadmeMcp.bridge "ai-pubsub" "ai-stream" 30000)).

(** A tool call in flight: registered, published, racing. *)
Definition ai_in_flight : Sched AiSvc.PendingRequest AiSvc.Error AiSvc.Input :=
  ai_run [Call "req-1" example_call; PublishSettled 0 true] initSched.

(** A sampling call in flight. *)
Definition mcp_in_flight : Sched ReadmeMcp.PendingRequest ReadmeMcp.Error ReadmeMcp.Input :=
  mcp_run [Call "req-1" example_sample; PublishSettled 0 true] initSched.

Definition tool_result : Js.value :=
  Js.Object [("valid", Js.Bool true); ("score", Js.Number (inject_Z 85))].

(** [{requestId: "req-1", result: {valid: true, score: 85}}] *)
Definition tool_response_fields : list (string * Js.value) :=
  [("requestId", Js.String "req-1"); ("result", tool_result)].

(** [{requestId: "req-1", content: "A summary", model: "azure/gpt-4.1"}] *)
Definition sampling_response_fields : list (string * Js.value) :=
  [("requestId", Js.String "req-1"); ("content", Js.String "A summary");
   ("model", Js.String "azure/gpt-4.1")].

(** [{requestId: "req-9", result: ...}]: nobody asked for it. *)
Definition stray_response : Js.value :=
  Js.Object [("requestId", Js.String "req-9"); ("result", tool_result)].

(** A tool call served: registered, published, answered, resumed. *)
Definition served_run : list (Event AiSvc.Input) :=
  [Call "req-1" example_call; PublishSettled 0 true;
   Deliver (Js.Object tool_response_fields); AwaitResumed 0].

(** [{requestId: "req-1", error: "invalid arguments"}] *)
Definition error_response : Js.value :=
  Js.Object [("requestId", Js.String "req-1"); ("error", Js.String "invalid arguments")].

(** [{requestId: "req-1", error: "rate limited"}] *)
Definition sampling_error_response : Js.value :=
  Js.Object [("requestId", Js.String "req-1"); ("error", Js.String "rate limited")].

(** A tool call answered with a remote error: the await side fails, and
    the call returns only when its timeout side has fired as well. *)
Definition failed_run : list (Event AiSvc.Input) :=
  [Call "req-1" example_call; PublishSettled 0 true; Deliver error_response;
   AwaitResumed 0].

(** A body that is no CloudEvent: the required fields are missing. *)
Definition malformed_body : Js.value :=
  Js.Object [("data", Js.Object [("requestId", Js.String "req-1")])].

(** A well-formed tool-response event for a request nobody waits for. *)
Definition stray_event : Js.value :=
  Js.Object [("specversion", Js.String "1.0");
             ("type", Js.String "mcp.tool.response");
             ("source", Js.String "mcp-srvr");
             ("id", Js.String "evt-9");
             ("data", stray_response)].

(** [{specversion, type: "agent.request", ..., data: {requestId: "req-1",
    agentId: "default", input: "hi"}}] *)
Definition agent_event_with_requestId : Js.value :=
  Js.Object [("specversion", Js.String "1.0");
             ("type", Js.String "agent.request");
             ("source", Js.String "client");
             ("id", Js.String "evt-7");
             ("data", Js.Object [("requestId", Js.String "req-1");
                                 ("agentId", Js.String "default");
                                 ("input", Js.String "hi")])].

Definition example_env : AiSvc.Env :=
  {| AiSvc.handleMessage_exit := Success (Js.Object [("output", Js.String "hello")]);
     AiSvc.sample_exit :=
       Success (AiSvc.samplingResponse "req-1" "A summary" "azure/gpt-4.1" Js.Undefined);
     AiSvc.publish_ok := true;
     AiSvc.responseEventId := "evt-8" |}.

(** A sampling request as the broker delivers it: the sidecar's own event
    type, the request in [data]. *)
Definition wrapped_sampling_request : Js.value :=
  Js.Object [("specversion", Js.String "1.0");
             ("type", Js.String "com.dapr.event.sent");
             ("source", Js.String "readme-mcp");
             ("id", Js.String "evt-5");
             ("data", Js.Object [("requestId", Js.String "req-1");
                                 ("prompt", Js.String "Summarise the README")])].



(** The event that carries [sampling_response_fields]. *)
Definition sampling_response_event : Js.value :=
  Js.Object [("specversion", Js.String "1.0");
             ("type", Js.String "mcp.sampling.response");
             ("source", Js.String "ai-svc");
             ("id", Js.String "evt-8");
             ("data", Js.Object sampling_response_fields)].

(** ** Strings, as the validator and the generator read them

    A string is the sequence of its code units; the characters of a
    Rocq string stand for the code units below 256.  Among these the
    white space of ECMAScript ([\s], [String.prototype.trim]) is 9 to 13,
    32 and 160, and the line terminators (what [.] does not match, where
    [^] matches under the flag [m]) are 10 and 13. *)
Module Text.
Import Stdlib.Strings.Ascii.

Definition is_line_terminator (c : ascii) : bool :=
  match nat_of_ascii c with
  | 10 | 13 => true
  | _ => false
  end.

Definition is_space (c : ascii) : bool :=
  match nat_of_ascii c with
  | 9 | 10 | 11 | 12 | 13 | 32 | 160 => true
  | _ => false
  end.

(** [.] without the flag [s], and [[\s\S]] *)
Definition dot (c : ascii) : bool := negb (is_line_terminator c).
Definition any (c : ascii) : bool := true.

(** The canonical form under the flag [i] (without [u]): the upper case
    of the character, except that a character outside ASCII never
    becomes an ASCII one.  The patterns of the code are ASCII, so only
    ASCII letters are ever folded onto a pattern character. *)
Definition canonicalize (c : ascii) : ascii :=
  let n := nat_of_ascii c in
  if (97 <=? n)%nat && (n <=? 122)%nat then ascii_of_nat (n - 32) else c.

Definition same (ignoreCase : bool) (p c : ascii) : bool :=
  if ignoreCase then Ascii.eqb (canonicalize p) (canonicalize c) else Ascii.eqb p c.

(** *** Regular expressions

    A pattern is a matcher in continuation style: it is given what must
    match the rest and the input at the current position, and tries its
    alternatives in turn, as the backtracking matcher does.  [test] only
    asks whether some match exists, so greedy and lazy quantifiers
    coincide. *)
Definition accept : string → bool := λ _, true.

(** A literal, after [replace(/[.*+?^${}()|[\]\\]/g, "\\$&")] or written
    out in the pattern. *)
Fixpoint lit (ignoreCase : bool) (pat : string) (k : string → bool) (s : string)
  : bool :=
  match pat with
  | "" => k s
  | String p pat' =>
      match s with
      | String c s' => same ignoreCase p c && lit ignoreCase pat' k s'
      | "" => false
      end
  end.

(** [p+] *)
Fixpoint plus (p : ascii → bool) (k : string → bool) (s : string) : bool :=
  match s with
  | String c s' => p c && (k s' || plus p k s')
  | "" => false
  end.

(** [p*] and [p*?] *)
Fixpoint star (p : ascii → bool) (k : string → bool) (s : string) : bool :=
  k s || match s with
         | String c s' => p c && star p k s'
         | "" => false
         end.

(** [regex.test(s)]: a match may start at any position. *)
Fixpoint search (m : string → bool) (s : string) : bool :=
  m s || match s with
         | String _ s' => search m s'
         | "" => false
         end.

(** The positions after a line terminator. *)
Fixpoint after_terminators (m : string → bool) (s : string) : bool :=
  match s with
  | String c s' => (is_line_terminator c && m s') || after_terminators m s'
  | "" => false
  end.

(** [/^.../m.test(s)]: a match starts at the beginning of the input or
    right after a line terminator. *)
Definition search_lines (m : string → bool) (s : string) : bool :=
  m s || after_terminators m s.

(** [s.includes(part)] *)
Definition includes (part s : string) : bool := search (lit false part accept) s.

(** [String.prototype.trim] *)
Fixpoint trimStart (s : string) : string :=
  match s with
  | String c s' => if is_space c then trimStart s' else s
  | "" => ""
  end.

Definition trim (s : string) : string :=
  String.rev (trimStart (String.rev (trimStart s))).

(** [s.split("\n")] *)
Fixpoint split_lines (s : string) : list string :=
  match s with
  | "" => [""]
  | String c s' =>
      if Ascii.eqb c "010" then "" :: split_lines s'
      else match split_lines s' with
           | line :: rest => String c line :: rest
           | [] => [String c ""]
           end
  end.

Definition newline : string := String "010" "".
Definition quote : string := String "034" "".

(** Every character of the string is white space. *)
Fixpoint all_space (s : string) : bool :=
  match s with
  | String c s' => is_space c && all_space s'
  | "" => true
  end.

End Text.

(** JavaScript's number arithmetic on the scores is exact: they are the
    numbers [k / 4 * 70 + m / 6 * 30] with [k] at most 10 and [m] at most
    6, each of which, with its intermediate results, is a double.
    [Math.round] takes the nearest integer, a half going up. *)
Definition Math_round (q : Q) : Z :=
  let h := Qplus q (1 # 2) in (Qnum h / Zpos (Qden h))%Z.

(** ** The README validator (readme-validator.service.ts) *)
Module ReadmeValidator.

Definition REQUIRED_SECTIONS : list string :=
  ["# "; "## Description"; "## Installation"; "## Usage"].

Definition RECOMMENDED_SECTIONS : list string :=
  ["## Features"; "## Configuration"; "## Contributing"; "## License"; "## Testing";
   "## Documentation"].

Inductive Severity := SeverityError | SeverityWarning | SeverityInfo.

Definition is_error (s : Severity) : bool :=
  match s with
  | SeverityError => true
  | _ => false
  end.

Record Issue := mkIssue {
  issue_section : string;
  issue_message : string;
  severity : Severity
}.

Record Advice := mkAdvice {
  advice_section : string;
  advice_message : string
}.

(** [ValidationResult] (schemas.ts) *)
Record ValidationResult := mkValidationResult {
  valid : bool;
  score : Z;
  errors : list Issue;
  warnings : list Advice;
  missingSections : list string;
  presentSections : list string
}.

Record Sections := mkSections {
  present : list string;
  missing : list string
}.

Record CompletenessCheck := mkCompletenessCheck {
  overallScore : Z;
  requiredSections : Sections;
  optionalSections : Sections;
  recommendations : list string
}.

(** [new RegExp(section.replace(...), "i").test(content)] *)
Definition sectionRegex (section content : string) : bool :=
  Text.search (Text.lit true section Text.accept) content.

(** [/^#\s+.+/m] *)
Definition titleRegex : string → bool :=
  Text.search_lines (Text.lit false "#" (Text.plus Text.is_space (Text.plus Text.dot Text.accept))).

(** [/```[\s\S]*?```/] *)
Definition codeBlockRegex : string → bool :=
  Text.search (Text.lit false "```" (Text.star Text.any (Text.lit false "```" Text.accept))).

(** [/\[.+\]\(.+\)/] *)
Definition linkRegex : string → bool :=
  Text.search
    (Text.lit false "["
       (Text.plus Text.dot
          (Text.lit false "]("
             (Text.plus Text.dot (Text.lit false ")" Text.accept))))).

(** [(present / total) * 70 + (present / total) * 30], rounded *)
Definition weighted (requiredPresent requiredTotal recommendedPresent recommendedTotal : nat)
  : Z :=
  Math_round
    (Qplus
       (Qmult (Qdiv (inject_Z (Z.of_nat requiredPresent))
                    (inject_Z (Z.of_nat requiredTotal)))
              (inject_Z 70))
       (Qmult (Qdiv (inject_Z (Z.of_nat recommendedPresent))
                    (inject_Z (Z.of_nat recommendedTotal)))
              (inject_Z 30))).

(** [content.split("\n").filter(line => line.trim().length > 0)] *)
Definition lines (content : string) : list string :=
  List.filter (λ line, negb (String.length (Text.trim line) =? 0)%nat)
              (Text.split_lines content).

(** [!content || content.trim().length === 0] *)
Definition empty (content : string) : bool :=
  String.eqb content "" || (String.length (Text.trim content) =? 0)%nat.

Section Service.
Context {R E : Type}.

(** [validate(content, strictMode = false)]; [strictMode] is whatever
    the caller passes, the default replacing [undefined]. *)
Definition validate (content : string) (strictMode : Js.value)
  : Eff R E ValidationResult :=
  let strictMode := match strictMode with
                    | Js.Undefined => Js.Bool false
                    | v => v
                    end in
  logDebug "Validating README content"
    (Js.Object [("length", Js.Number (inject_Z (Z.of_nat (String.length content))));
                ("strictMode", strictMode)]) ;;;
  if empty content then
    succeed {| valid := false;
               score := 0;
               errors := [mkIssue "General" "README content is empty" SeverityError];
               warnings := [];
               missingSections := REQUIRED_SECTIONS ++ RECOMMENDED_SECTIONS;
               presentSections := [] |}
  else
    let there := λ section, sectionRegex section content in
    let gone := λ section, negb (sectionRegex section content) in
    let presentSections :=
      List.filter there REQUIRED_SECTIONS ++ List.filter there RECOMMENDED_SECTIONS in
    let missingSections :=
      List.filter gone REQUIRED_SECTIONS ++ List.filter gone RECOMMENDED_SECTIONS in
    let hasTitle := titleRegex content in
    let errors :=
      map (λ section,
             mkIssue section
               ("Required section " +:+ Text.quote +:+ section +:+ Text.quote
                  +:+ " is missing")
               (if Js.truthy strictMode then SeverityError else SeverityWarning))
          (List.filter gone REQUIRED_SECTIONS)
      ++ (if hasTitle then []
          else [mkIssue "Title" "README should start with a title (# Title)"
                  SeverityError]) in
    let hasCodeBlocks := codeBlockRegex content in
    let hasLinks := linkRegex content in
    let warnings :=
      map (λ section,
             mkAdvice section
               ("Recommended section " +:+ Text.quote +:+ section +:+ Text.quote
                  +:+ " is missing"))
          (List.filter gone RECOMMENDED_SECTIONS)
      ++ (if (length (lines content) <? 3)%nat
          then [mkAdvice "Content"
                  "README appears to be too short or lacks sufficient content"]
          else [])
      ++ (if hasCodeBlocks then []
          else [mkAdvice "Examples"
                  "Consider adding code examples using code blocks (```)"])
      ++ (if hasLinks then []
          else [mkAdvice "Links"
                  "Consider adding relevant links to documentation or resources"]) in
    let requiredPresent :=
      length (List.filter (λ s, existsb (λ req, Text.includes req s) REQUIRED_SECTIONS)
                          presentSections) in
    let recommendedPresent :=
      length (List.filter (λ s, existsb (λ rec, Text.includes rec s) RECOMMENDED_SECTIONS)
                          presentSections) in
    let score :=
      weighted requiredPresent (length REQUIRED_SECTIONS)
               recommendedPresent (length RECOMMENDED_SECTIONS) in
    let valid :=
      if Js.truthy strictMode
      then (length (List.filter (λ e, is_error (severity e)) errors) =? 0)%nat
      else (length errors =? 0)%nat in
    logInfo "README validation complete"
      (Js.Object [("valid", Js.Bool valid);
                  ("score", Js.Number (inject_Z score));
                  ("errorsCount", Js.Number (inject_Z (Z.of_nat (length errors))));
                  ("warningsCount", Js.Number (inject_Z (Z.of_nat (length warnings))))]) ;;;
    succeed {| valid := valid;
               score := score;
               errors := errors;
               warnings := warnings;
               missingSections := missingSections;
               presentSections := presentSections |}.

Definition checkCompleteness (content : string) : Eff R E CompletenessCheck :=
  logDebug "Checking README completeness" Js.Undefined ;;;
  let there := λ section, sectionRegex section content in
  let gone := λ section, negb (sectionRegex section content) in
  let requiredPresent := List.filter there REQUIRED_SECTIONS in
  let requiredMissing := List.filter gone REQUIRED_SECTIONS in
  let optionalPresent := List.filter there RECOMMENDED_SECTIONS in
  let optionalMissing := List.filter gone RECOMMENDED_SECTIONS in
  let overallScore :=
    weighted (length requiredPresent) (length REQUIRED_SECTIONS)
             (length optionalPresent) (length RECOMMENDED_SECTIONS) in
  let recommendations :=
    (if (0 <? length requiredMissing)%nat
     then ["Add missing required sections: " +:+ String.concat ", " requiredMissing]
     else [])
    ++ (if (0 <? length optionalMissing)%nat
        then ["Consider adding recommended sections: "
                +:+ String.concat ", " (take 3 optionalMissing)]
        else [])
    ++ (if codeBlockRegex content then []
        else ["Add code examples using markdown code blocks"])
    ++ (if linkRegex content then []
        else ["Include relevant links to documentation or resources"])
    ++ (if (overallScore =? 100)%Z then ["README meets all standards!"] else []) in
  logInfo "Completeness check complete"
    (Js.Object [("overallScore", Js.Number (inject_Z overallScore))]) ;;;
  succeed {| overallScore := overallScore;
             requiredSections := {| present := requiredPresent;
                                    missing := requiredMissing |};
             optionalSections := {| present := optionalPresent;
                                    missing := optionalMissing |};
             recommendations := recommendations |}.

End Service.

End ReadmeValidator.

(** ** The README generator (readme-generator.service.ts) *)
Module ReadmeGenerator.

(** [GenerateReadmeInput] (schemas.ts); an optional field that is left
    out is [None].  [configuration] holds the entries of the record in
    the order of [Object.entries]. *)
Record GenerateReadmeInput := mkGenerateReadmeInput {
  name : string;
  description : string;
  features : option (list string);
  installation : option string;
  usage : option string;
  configuration : option (list (string * string));
  contributing : option string;
  license : option string;
  authors : option (list string);
  dependencies : option (list string)
}.

Inductive Error :=
| GenerationError (message : string).

(** [if (text)]: a string that is present and not empty *)
Definition given (text : option string) : option string :=
  match text with
  | Some "" | None => None
  | Some s => Some s
  end.

(** [if (items && items.length > 0)] *)
Definition some_items {A} (items : option (list A)) : list A :=
  default [] items.

Definition generateReadmeTemplate (input : GenerateReadmeInput) : string :=
  let sections :=
    ["# " +:+ name input; ""; description input; ""]
    ++ match some_items (features input) with
       | [] => []
       | items => ["## Features"; ""] ++ map (λ feature, "- " +:+ feature) items ++ [""]
       end
    ++ ["## Installation"; ""]
    ++ match given (installation input) with
       | Some text => [text]
       | None => ["```bash"; "npm install"; "```"]
       end
    ++ [""]
    ++ ["## Usage"; ""]
    ++ match given (usage input) with
       | Some text => [text]
       | None => ["```bash"; "npm start"; "```"]
       end
    ++ [""]
    ++ match some_items (configuration input) with
       | [] => []
       | entries =>
           ["## Configuration"; "";
            "The following environment variables are required:"; "";
            "| Variable | Description | Default |";
            "|----------|-------------|---------|"]
           ++ map (λ kv, "| " +:+ kv.1 +:+ " | " +:+ kv.2 +:+ " | - |") entries
           ++ [""]
       end
    ++ match some_items (dependencies input) with
       | [] => []
       | items => ["## Dependencies"; ""] ++ map (λ dep, "- " +:+ dep) items ++ [""]
       end
    ++ ["## Contributing"; ""]
    ++ match given (contributing input) with
       | Some text => [text]
       | None =>
           ["Contributions are welcome! Please follow these steps:"; "";
            "1. Fork the repository";
            "2. Create a feature branch (`git checkout -b feature/amazing-feature`)";
            "3. Commit your changes (`git commit -m 'Add amazing feature'`)";
            "4. Push to the branch (`git push origin feature/amazing-feature`)";
            "5. Open a Pull Request"]
       end
    ++ [""]
    ++ match some_items (authors input) with
       | [] => []
       | items => ["## Authors"; ""] ++ map (λ author, "- " +:+ author) items ++ [""]
       end
    ++ ["## License"; ""]
    ++ match given (license input) with
       | Some text => [text]
       | None => ["This project is licensed under the MIT License."]
       end
    ++ [""] in
  String.concat Text.newline sections.

Section Service.
Context {R : Type}.

(** [generate(input)]: the two checks run inside [Effect.try], whose
    [catch] wraps the thrown [Error] with [String(error)]. *)
Definition generate (input : GenerateReadmeInput) : Eff R Error string :=
  logDebug "Generating README" (Js.Object [("name", Js.String (name input))]) ;;;
  (if ReadmeValidator.empty (name input)
   then fail (GenerationError "Error: Project name is required")
   else if ReadmeValidator.empty (description input)
   then fail (GenerationError "Error: Project description is required")
   else succeed tt) ;;;
  let readme := generateReadmeTemplate input in
  logInfo "README generated successfully"
    (Js.Object [("length", Js.Number (inject_Z (Z.of_nat (String.length readme))))]) ;;;
  succeed readme.

End Service.

End ReadmeGenerator.

(** ** readme-mcp: the tool requests (index.ts)

    The second handler of the process takes the tool requests that
    ai-svc publishes, runs the tool and publishes the response. *)
Module ToolServer.

(** The failures the handler can meet: a body that is no CloudEvent, a
    failure of the service behind a tool (with its [String(error)]), a
    tool name that no case of [routeToTool] takes, a publish that
    fails. *)
Inductive Error :=
| ParseError (issue : string)
| ToolError (text : string)
| UnknownTool (toolName : string)
| DaprError (operation message : string).

(** [String(error)]: the issue of a [ParseError], formatted as a tree;
    the text a failed service came with; the [new Error(..)] of
    [routeToTool]; the tagged [DaprError] of errors.ts. *)
Definition show (e : Error) : string :=
  match e with
  | ParseError issue => issue
  | ToolError text => text
  | UnknownTool toolName => "Error: Unknown tool: " +:+ toolName
  | DaprError _ m => ReadmeMcp.Error_toString "DaprError" m
  end.

Abbreviation M := (Eff ReadmeMcp.PendingRequest Error).

(** What the services behind the tools answer, whether the publish of
    the response succeeds, and the uuid drawn for the response event. *)
Record Env := mkEnv {
  validate_exit : Exit Error Js.value;
  generate_exit : Exit Error Js.value;
  sample_exit : Exit Error Js.value;
  checkCompleteness_exit : Exit Error Js.value;
  publish_ok : bool;
  responseEventId : string
}.

(** [DaprService.publishEvent] (dapr.service.ts) *)
Definition publishEvent (pubsubName topicName : string) (data : Js.value) (ok : bool)
  : M unit :=
  logDebug ("Publishing event to " +:+ pubsubName +:+ "/" +:+ topicName) Js.Undefined ;;;
  emit (OpPublish pubsubName topicName data) ;;;
  if ok
  then logInfo "Event published successfully"
         (Js.Object [("pubsubName", Js.String pubsubName);
                     ("topicName", Js.String topicName)])
  else fail (DaprError "publishEvent"
               ("Failed to publish event to " +:+ pubsubName +:+ "/" +:+ topicName)).

Section Service.
(** [config.getPubsubName], the text the engine gives a value that is
    not a string when a template literal interpolates it, and the text the
    schema library gives the issue of an input that [CloudEventSchema]
    rejects. *)
Variables (pubsubName : string) (toString formatIssue : Js.value → string).

(** [`${v}`] *)
Definition interpolate (v : Js.value) : string :=
  match v with
  | Js.String s => s
  | _ => toString v
  end.

(** [routeToTool(toolName, args, runtime)]: the [switch] compares with
    [===]. *)
Definition routeToTool (env : Env) (toolName args : Js.value) : M Js.value :=
  if Js.is_string toolName "validate-readme" then
    content <~ prop args "content" ;;
    strictMode <~ prop args "strictMode" ;;
    invoke "ReadmeValidatorService.validate" [content; strictMode] (validate_exit env)
  else if Js.is_string toolName "generate-readme" then
    invoke "ReadmeGeneratorService.generate" [args] (generate_exit env)
  else if Js.is_string toolName "suggest-improvements" then
    content <~ prop args "content" ;;
    let prompt :=
      "Analyze the following README and suggest improvements:"
        +:+ Text.newline +:+ Text.newline +:+ interpolate content in
    response <~ invoke "LlmClientService.sample"
                  [Js.String prompt; Js.String "azure/gpt-4.1"; Js.Number (7 # 10)%Q]
                  (sample_exit env) ;;
    succeed (Js.Object [("suggestions", response)])
  else if Js.is_string toolName "check-completeness" then
    content <~ prop args "content" ;;
    invoke "ReadmeValidatorService.checkCompleteness" [content]
      (checkCompleteness_exit env)
  else fail (UnknownTool (interpolate toolName)).

(** The event that carries a tool's result back. *)
Definition responseEvent (env : Env) (requestId result : Js.value) : Js.value :=
  Js.Object [("specversion", Js.String "1.0");
             ("type", Js.String "mcp.tool.response");
             ("source", Js.String "mcp-srvr");
             ("id", Js.String (responseEventId env));
             ("data", ReadmeMcp.toolResponse requestId result)].

(** [app.post("/mcp-tool-events")] *)
Definition post_mcp_tool_events (exact : bool) (env : Env) (body : Js.value) : M unit :=
  catchAll
    (logInfo "Received MCP tool request" Js.Undefined ;;;
     eventData <~ from_option succeed (fail (ParseError (formatIssue body)))
                    (CloudEvent.decode exact body) ;;
     if String.eqb (CloudEvent.type eventData) "mcp.tool.request" then
       let toolRequest := CloudEvent.data eventData in
       requestId <~ prop toolRequest "requestId" ;;
       tool <~ prop toolRequest "tool" ;;
       logInfo "Processing tool request"
         (Js.Object [("requestId", requestId); ("tool", tool)]) ;;;
       arguments <~ prop toolRequest "arguments" ;;
       result <~ routeToTool env tool arguments ;;
       publishEvent pubsubName "mcp-tool-responses" (responseEvent env requestId result)
         (publish_ok env) ;;;
       respond 200 (Js.Object [("success", Js.Bool true)])
     else succeed tt)
    (λ error,
       logError ("Tool request failed: " +:+ show error) Js.Undefined ;;;
       respond 500 (Js.Object [("error", Js.String (show error))])).

End Service.

End ToolServer.

(** What a process published and what it answered over HTTP, in order. *)
Definition published {R E} (w : World R E) : list Op := List.filter is_publish (trace w).
Definition answered {R E} (w : World R E) : list Op := List.filter is_respond (trace w).
Definition invoked {R E} (w : World R E) : list Op := List.filter is_invoke (trace w).

(** ** The subscriptions ([app.get("/dapr/subscribe")], both index.ts) *)
Record Subscription := mkSubscription {
  pubsubname : string;
  topic : string;
  route : string
}.

Definition AiSvc_subscribe (pubsubName topic : string) : list Subscription :=
  [mkSubscription pubsubName topic "/ai-events";
   mkSubscription pubsubName "mcp-tool-responses" "/mcp-tool-events"].

Definition ReadmeMcp_subscribe (pubsubName topicName : string) : list Subscription :=
  [mkSubscription pubsubName (topicName +:+ "-responses") "/mcp-events";
   mkSubscription pubsubName "mcp-tool-requests" "/mcp-tool-events"].

(** ** ai-svc: the agents and their chat history
    (agent.service.ts, dapr.service.ts)

    [AgentService] keeps the compiled agents in a [Ref] of a [Map] and
    the conversations in the state store of the sidecar, through
    [DaprService].  The state store is a map from keys to values: what
    [client.state.save] stored under a key is what [client.state.get]
    yields for it; each call may also be rejected. *)
Module Agents.

(** The level of [Effect.logError] *)
Definition errorLevel : LogLevel := Error.

(** [BaseMessage] (LangChain), built from a text *)
Inductive BaseMessage :=
| HumanMessage (content : string)
| AIMessage (content : string).

(** [ChatMessage] and [ChatSessionState] (schemas.ts) *)
Record ChatMessage := mkChatMessage {
  role : string;
  content : string;
  timestamp : string;
  message_metadata : Js.value
}.

Record ChatSessionState := mkChatSessionState {
  state_sessionId : string;
  state_agentId : string;
  messages : list ChatMessage;
  created_at : string;
  updated_at : string;
  state_metadata : Js.value
}.

(** What [agent.invoke({messages, input})] settles to: the promise is
    rejected, or resolves to [{messages?, output}], of which the service
    reads [output] and [messages?.length]. *)
Inductive Outcome :=
| Rejected
| Resolved (messages_length : option nat) (output : Js.value).

(** [CompiledAgentGraph] *)
Definition Agent := list BaseMessage → Js.value → Outcome.

Inductive Error :=
| AgentNotFoundError (agentId : string)
| AgentInvocationError (agentId : string)
| DaprError (operation : string).

(** The process: the registry, the state store, and what it logged. *)
Record State := mkState {
  registry : list (string * Agent);
  store : gmap string ChatSessionState;
  logged : list Op
}.

Definition Prog (A : Type) := State → Exit Error A * State.

Definition ret {A} (a : A) : Prog A := λ s, (Success a, s).
Definition raise {A} (e : Error) : Prog A := λ s, (Failure (Fail e), s).

(** An exception thrown inside the generator *)
Definition die {A} (defect : string) : Prog A := λ s, (Failure (Die defect), s).

Definition andThen {A B} (m : Prog A) (k : A → Prog B) : Prog B :=
  λ s, match m s with
       | (Success a, s') => k a s'
       | (Failure c, s') => (Failure c, s')
       end.

(** [Effect.catchAll] *)
Definition recover {A} (m : Prog A) (h : Error → Prog A) : Prog A :=
  λ s, match m s with
       | (Failure c, s') =>
           match failureOption c with
           | Some e => h e s'
           | None => (Failure c, s')
           end
       | r => r
       end.

Definition log (level : LogLevel) (message : string) (annotations : Js.value)
  : Prog unit :=
  λ s, (Success tt,
        mkState (registry s) (store s) (logged s ++ [OpLog level message annotations])).

(** [new Map(map)] followed by [newMap.set(key, value)]: a key that is
    there keeps its place, a new one goes last. *)
Fixpoint Map_set {V} (key : string) (value : V) (m : list (string * V))
  : list (string * V) :=
  match m with
  | [] => [(key, value)]
  | (k, v) :: rest =>
      if String.eqb key k then (key, value) :: rest else (k, v) :: Map_set key value rest
  end.

(** [map.get(key)] *)
Fixpoint Map_get {V} (key : string) (m : list (string * V)) : option V :=
  match m with
  | [] => None
  | (k, v) :: rest => if String.eqb key k then Some v else Map_get key rest
  end.

(** [`${ACTOR_TYPE}:${sessionId}:chatState`] *)
Definition chatKey (sessionId : string) : string :=
  "ChatSessionActor:" +:+ sessionId +:+ ":chatState".

(** [String(error)] for the [DaprError] of dapr.service.ts *)
Definition show (e : Error) : string :=
  match e with
  | AgentNotFoundError _ => "AgentNotFoundError"
  | AgentInvocationError _ => "AgentInvocationError"
  | DaprError operation => "Error: Dapr operation '" +:+ operation +:+ "' failed"
  end.

(** *** [DaprService]: the chat history ([ok]: the promise of the call
    to the sidecar is fulfilled) *)

Definition getChatHistory (ok : bool) (sessionId : string)
  : Prog (option ChatSessionState) :=
  andThen (log Debug ("Getting chat history for session: " +:+ sessionId) Js.Undefined)
    (λ _, if ok
          then λ s, (Success (store s !! chatKey sessionId), s)
          else raise (DaprError "getChatHistory")).

Definition saveChatHistory (ok : bool) (sessionId : string) (state : ChatSessionState)
  : Prog unit :=
  andThen (log Debug ("Saving chat history for session: " +:+ sessionId) Js.Undefined)
    (λ _, if ok
          then andThen
                 (λ s, (Success tt,
                        mkState (registry s) (<[chatKey sessionId := state]> (store s))
                                (logged s)))
                 (λ _, log Debug ("Chat history saved for session: " +:+ sessionId)
                         Js.Undefined)
          else raise (DaprError "saveChatHistory")).

(** [appendMessage]: its own get and save *)
Definition appendMessage (get_ok save_ok : bool) (isoNow : string) (sessionId : string)
    (message : ChatMessage) : Prog unit :=
  andThen (log Debug ("Appending message to session: " +:+ sessionId) Js.Undefined)
    (λ _,
     andThen (if get_ok
              then λ s, (Success (store s !! chatKey sessionId), s)
              else raise (DaprError "appendMessage:get"))
       (λ existingState,
        let now := isoNow in
        let newState :=
          match existingState with
          | Some existing =>
              mkChatSessionState (state_sessionId existing) (state_agentId existing)
                (messages existing ++ [message]) (created_at existing) now
                (state_metadata existing)
          | None =>
              mkChatSessionState sessionId "unknown" [message] now now Js.Undefined
          end in
        andThen (if save_ok
                 then λ s, (Success tt,
                            mkState (registry s)
                                    (<[chatKey sessionId := newState]> (store s))
                                    (logged s))
                 else raise (DaprError "appendMessage:save"))
          (λ _, log Debug ("Message appended to session: " +:+ sessionId)
                  Js.Undefined))).

(** *** [AgentService] *)

(** [chatMessageToBaseMessage] *)
Definition chatMessageToBaseMessage (msg : ChatMessage) : BaseMessage :=
  if String.eqb (role msg) "user" then HumanMessage (content msg)
  else if String.eqb (role msg) "assistant" then AIMessage (content msg)
  else HumanMessage (content msg).

Definition registerCustomAgent (agentId : string) (graph : Agent) : Prog unit :=
  andThen (log Info ("Registering custom agent: " +:+ agentId) Js.Undefined)
    (λ _,
     andThen (λ s, (Success tt,
                    mkState (Map_set agentId graph (registry s)) (store s) (logged s)))
       (λ _, log Info ("Custom agent registered successfully: " +:+ agentId)
               Js.Undefined)).

Definition getAgent (agentId : string) : Prog Agent :=
  λ s, match Map_get agentId (registry s) with
       | Some agent => (Success agent, s)
       | None => (Failure (Fail (AgentNotFoundError agentId)), s)
       end.

(** [Array.from(map.keys())] *)
Definition listAgents : Prog (list string) :=
  λ s, (Success (map fst (registry s)), s).

(** What one [invokeAgent] meets outside: whether its two reads of the
    history and its save are fulfilled, and the time. *)
Record Env := mkEnv {
  read_before_ok : bool;
  read_after_ok : bool;
  save_ok : bool;
  isoNow : string
}.

Section Invoke.
(** The text [JSON.stringify(v)] gives a value other than [undefined],
    and [String(v)] of a truthy one, as the engine gives them. *)
Variables (JSON_stringify : Js.value → string) (toString : Js.value → string).

(** [if (sessionId)] *)
Definition session (sessionId : option string) : option string :=
  match sessionId with
  | Some "" | None => None
  | Some s => Some s
  end.

Definition optional_string (s : option string) : Js.value :=
  from_option Js.String Js.Undefined s.

(** [typeof input === "string" ? input : JSON.stringify(input)]:
    a text, or [undefined] ([None]), which is what [JSON.stringify] gives
    for [undefined]. *)
Definition userContent (input : Js.value) : option string :=
  match input with
  | Js.String s => Some s
  | Js.Undefined => None
  | _ => Some (JSON_stringify input)
  end.

(** [String(output || "")] *)
Definition assistantContent (output : Js.value) : string :=
  if Js.truthy output
  then match output with
       | Js.String s => s
       | _ => toString output
       end
  else "".

(** [invokeAgent].  [new HumanMessage(userContent)] reads the fields of
    its argument and so throws a [TypeError] when [userContent] is
    [undefined]: the generator dies there, after the history is loaded and
    before the agent is invoked. *)
Definition invokeAgent (env : Env) (agentId : string) (input : Js.value)
    (sessionId : option string) : Prog Js.value :=
  andThen (log Info ("Invoking agent: " +:+ agentId)
             (Js.Object [("sessionId", optional_string sessionId)]))
    (λ _,
  andThen (getAgent agentId)
    (λ agent,
  andThen
    (match session sessionId with
     | Some sid =>
         andThen (log Debug ("Loading chat history for session: " +:+ sid) Js.Undefined)
           (λ _,
            andThen (recover (getChatHistory (read_before_ok env) sid) (λ _, ret None))
              (λ existingState,
               match existingState with
               | Some existing =>
                   let chatHistory := map chatMessageToBaseMessage (messages existing) in
                   andThen
                     (log Debug ("Loaded " +:+ pretty (length chatHistory)
                                   +:+ " messages from history") Js.Undefined)
                     (λ _, ret chatHistory)
               | None => ret []
               end))
     | None => ret []
     end)
    (λ chatHistory,
  andThen
    (match userContent input with
     | Some content => ret content
     | None => die "TypeError"
     end)
    (λ content,
  let userMessage := HumanMessage content in
  let allMessages := chatHistory ++ [userMessage] in
  andThen
    (match agent allMessages input with
     | Resolved messages_length output => ret (messages_length, output)
     | Rejected => raise (AgentInvocationError agentId)
     end)
    (λ result,
  andThen
    (match session sessionId with
     | Some sid =>
         let now := isoNow env in
         let userChatMessage := mkChatMessage "user" content now Js.Undefined in
         let assistantChatMessage :=
           mkChatMessage "assistant" (assistantContent result.2) now Js.Undefined in
         andThen (recover (getChatHistory (read_after_ok env) sid) (λ _, ret None))
           (λ existingState,
            let updatedState :=
              match existingState with
              | Some existing =>
                  mkChatSessionState (state_sessionId existing) agentId
                    (messages existing ++ [userChatMessage; assistantChatMessage])
                    (created_at existing) now (state_metadata existing)
              | None =>
                  mkChatSessionState sid agentId [userChatMessage; assistantChatMessage]
                    now now Js.Undefined
              end in
            andThen
              (recover (saveChatHistory (save_ok env) sid updatedState)
                 (λ error,
                    log errorLevel ("Failed to save chat history: " +:+ show error)
                      Js.Undefined))
              (λ _, log Debug "Saved conversation to chat history" Js.Undefined))
     | None => ret tt
     end)
    (λ _,
  let response :=
    Js.Object [("agentId", Js.String agentId);
               ("sessionId", optional_string sessionId);
               ("output", result.2);
               ("metadata",
                Js.Object [("messages_count",
                            Js.String (pretty (default 0 result.1)));
                           ("history_length",
                            Js.String (pretty (length chatHistory)))])] in
  andThen (log Info ("Agent invocation completed: " +:+ agentId) Js.Undefined)
    (λ _, ret response))))))).

(** The messages an invocation hands to the agent: the history its first
    read found, then the text of the input. *)
Definition prompt_of (env : Env) (s : State) (content : string)
    (sessionId : option string) : list BaseMessage :=
  match session sessionId with
  | Some sid =>
      if read_before_ok env
      then match store s !! chatKey sid with
           | Some existing => map chatMessageToBaseMessage (messages existing)
           | None => []
           end
      else []
  | None => []
  end
  ++ [HumanMessage content].

(** The two messages an invocation adds to the history. *)
Definition turn (env : Env) (content : string) (output : Js.value) : list ChatMessage :=
  [mkChatMessage "user" content (isoNow env) Js.Undefined;
   mkChatMessage "assistant" (assistantContent output) (isoNow env) Js.Undefined].

(** The state an invocation saves, from what its second read found. *)
Definition saved_state (env : Env) (agentId sid : string) (content : string)
    (output : Js.value) (found : option ChatSessionState) : ChatSessionState :=
  match found with
  | Some existing =>
      mkChatSessionState (state_sessionId existing) agentId
        (messages existing ++ turn env content output)
        (created_at existing) (isoNow env) (state_metadata existing)
  | None =>
      mkChatSessionState sid agentId (turn env content output)
        (isoNow env) (isoNow env) Js.Undefined
  end.

End Invoke.

End Agents.

(** ** ai-svc: the sampling service (sampling.service.ts) *)
Module SamplingService.

(** What the model does with a prompt: [new ChatOpenAI(config)] throws,
    [llm.invoke(prompt)] is rejected, or it resolves to a message, of
    which the service reads [content.toString()] and
    [usage_metadata?.total_tokens]. *)
Inductive Llm :=
| Unconfigured
| Rejects
| Answers (content : string) (total_tokens : Js.value).

(** A default parameter replaces [undefined]. *)
Definition or_default (v fallback : Js.value) : Js.value :=
  match v with
  | Js.Undefined => fallback
  | _ => v
  end.

(** [sample(requestId, prompt, model = "azure/gpt-4.1", temperature = 0.7,
    maxTokens = 2000)] *)
Definition sample (requestId prompt model temperature maxTokens : Js.value) (llm : Llm)
  : AiSvc.M Js.value :=
  let model := or_default model (Js.String "azure/gpt-4.1") in
  let temperature := or_default temperature (Js.Number (7 # 10)%Q) in
  let maxTokens := or_default maxTokens (Js.Number (inject_Z 2000)) in
  logDebug "Processing sampling request"
    (Js.Object [("requestId", requestId); ("model", model);
                ("temperature", temperature); ("maxTokens", maxTokens)]) ;;;
  match llm with
  | Unconfigured => die "Error"
  | Rejects => fail (AiSvc.SamplingError requestId)
  | Answers content total_tokens =>
      logInfo "Sampling request completed"
        (Js.Object [("requestId", requestId); ("tokensUsed", total_tokens)]) ;;;
      succeed (Js.Object [("requestId", requestId);
                          ("content", Js.String content);
                          ("model", model);
                          ("tokensUsed", total_tokens)])
  end.

End SamplingService.

(** ** ai-svc: the message handler (message-handler.service.ts) *)
Module MessageHandler.

(** [AgentRequestDataSchema] (schemas.ts) *)
Record AgentRequestData := mkAgentRequestData {
  agentId : string;
  input : Js.value;
  sessionId : Js.value;
  metadata : Js.value
}.

(** [Schema.optional(Schema.Record({ key: Schema.String, value:
    Schema.Unknown }))] *)
Definition optional_record (v : Js.value) : bool :=
  match v with
  | Js.Undefined | Js.Object _ => true
  | _ => false
  end.

(** [Schema.decodeUnknown(AgentRequestDataSchema)] *)
Definition decode (exact : bool) (data : Js.value) : option AgentRequestData :=
  match data with
  | Js.Object fields =>
      agentId ← CloudEvent.as_string (Js.assoc "agentId" fields);
      if CloudEvent.optional_string (Js.assoc "sessionId" fields)
         && optional_record (Js.assoc "metadata" fields)
         && (negb exact || CloudEvent.has_key "input" fields)
      then Some (mkAgentRequestData agentId (Js.assoc "input" fields)
                   (Js.assoc "sessionId" fields) (Js.assoc "metadata" fields))
      else None
  | _ => None
  end.

(** [Effect.mapError] on the exit of the agent service *)
Fixpoint mapCause {E E'} (f : E → E') (c : Cause E) : Cause E' :=
  match c with
  | Fail e => Fail (f e)
  | Die d => Die d
  | Parallel l r => Parallel (mapCause f l) (mapCause f r)
  end.

Definition mapError {E E' A} (f : E → E') (x : Exit E A) : Exit E' A :=
  match x with
  | Success a => Success a
  | Failure c => Failure (mapCause f c)
  end.

(** [error._tag] *)
Definition tag (e : AiSvc.Error) : string := AiSvc.tag e.

Section Service.
(** The parse option of the schema library, and what
    [agentService.invokeAgent] answers. *)
Variables (exact : bool) (invokeAgent_exit : Exit Agents.Error Js.value).

(** The error object, as a log annotation shows it. *)
Definition error_value (e : AiSvc.Error) : Js.value := AiSvc.json e.

Definition processMessage (data : Js.value) : AiSvc.M Js.value :=
  logInfo "Processing message" Js.Undefined ;;;
  decoded <~ from_option succeed (fail AiSvc.CloudEventValidationError)
               (CloudEvent.decode exact data) ;;
  agentData <~ from_option succeed (fail AiSvc.CloudEventValidationError)
                 (decode exact (CloudEvent.data decoded)) ;;
  logInfo "CloudEvent validated"
    (Js.Object [("id", Js.String (CloudEvent.id decoded));
                ("type", Js.String (CloudEvent.type decoded));
                ("agentId", Js.String (agentId agentData))]) ;;;
  logInfo "Invoking agent"
    (Js.Object [("agentId", Js.String (agentId agentData));
                ("sessionId", sessionId agentData);
                ("has_metadata", Js.Bool (Js.truthy (metadata agentData)))]) ;;;
  response <~ invoke "AgentService.invokeAgent"
                [Js.String (agentId agentData); input agentData; sessionId agentData]
                (mapError (λ _, AiSvc.MessageProcessingError (CloudEvent.id decoded))
                   invokeAgent_exit) ;;
  logInfo "Message processed successfully"
    (Js.Object [("agentId", Js.String (agentId agentData));
                ("sessionId", sessionId agentData);
                ("message_id", Js.String (CloudEvent.id decoded))]) ;;;
  succeed response.

Definition handleMessage (data : Js.value) : AiSvc.M Js.value :=
  catchAll
    (logInfo "Processing message" Js.Undefined ;;;
     decoded <~ from_option succeed (fail AiSvc.CloudEventValidationError)
                  (CloudEvent.decode exact data) ;;
     agentData <~ from_option succeed (fail AiSvc.CloudEventValidationError)
                    (decode exact (CloudEvent.data decoded)) ;;
     logInfo "CloudEvent validated"
       (Js.Object [("id", Js.String (CloudEvent.id decoded));
                   ("type", Js.String (CloudEvent.type decoded));
                   ("agentId", Js.String (agentId agentData))]) ;;;
     logInfo "Invoking agent"
       (Js.Object [("agentId", Js.String (agentId agentData));
                   ("sessionId", sessionId agentData)]) ;;;
     response <~ invoke "AgentService.invokeAgent"
                   [Js.String (agentId agentData); input agentData; sessionId agentData]
                   (mapError (λ _, AiSvc.MessageProcessingError (CloudEvent.id decoded))
                      invokeAgent_exit) ;;
     logInfo "Message processed successfully"
       (Js.Object [("agentId", Js.String (agentId agentData));
                   ("sessionId", sessionId agentData);
                   ("message_id", Js.String (CloudEvent.id decoded))]) ;;;
     succeed response)
    (λ error,
       logError "Message processing failed"
         (Js.Object [("error", Js.String (tag error)); ("cause", error_value error)]) ;;;
       fail error).

End Service.

End MessageHandler.

(** ** Examples for the handlers and the services *)

(** The text of a value that is not a string, for the examples (none of
    them interpolates one). *)
Definition example_text (v : Js.value) : string := "[object Object]".

(** [JSON.stringify] for the examples (the input of each is a string,
    or [undefined]). *)
Definition example_stringify (v : Js.value) : string := "null".

(** The text of the issue of a rejected input, for the examples. *)
Definition example_issue (v : Js.value) : string := "is missing".

(** The request event that [example_call] publishes under the id
    ["req-1"]. *)
Definition example_tool_request_fields : list (string * Js.value) :=
  [("requestId", Js.String "req-1");
   ("tool", Js.String "validate-readme");
   ("arguments", Js.Object [("content", Js.String "# X")])].

Definition example_tool_request : Js.value :=
  Js.Object [("specversion", Js.String "1.0");
             ("type", Js.String "mcp.tool.request");
             ("source", Js.String "ai-svc");
             ("id", Js.String "evt-1");
             ("data", Js.Object example_tool_request_fields)].

(** A request for a tool that readme-mcp does not have. *)
Definition unknown_tool_request_fields : list (string * Js.value) :=
  [("requestId", Js.String "req-2");
   ("tool", Js.String "translate-readme");
   ("arguments", Js.Object [("content", Js.String "# X")])].

Definition unknown_tool_request : Js.value :=
  Js.Object [("specversion", Js.String "1.0");
             ("type", Js.String "mcp.tool.request");
             ("source", Js.String "ai-svc");
             ("id", Js.String "evt-2");
             ("data", Js.Object unknown_tool_request_fields)].

(** The validator answers with [tool_result]; the other services are
    not asked. *)
Definition example_tool_env : ToolServer.Env :=
  {| ToolServer.validate_exit := Success tool_result;
     ToolServer.generate_exit := Failure (Fail (ToolServer.ToolError "GenerationError"));
     ToolServer.sample_exit := Failure (Fail (ToolServer.ToolError "TimeoutError"));
     ToolServer.checkCompleteness_exit := Success Js.Null;
     ToolServer.publish_ok := true;
     ToolServer.responseEventId := "evt-3" |}.

(** The request of [example_sample], as [sample] publishes it under the
    id ["req-1"] ... *)
Definition example_sampling_request_fields : list (string * Js.value) :=
  [("requestId", Js.String "req-1");
   ("prompt", Js.String "Summarise the README");
   ("model", Js.String "azure/gpt-4.1");
   ("temperature", Js.Number (7 # 10)%Q);
   ("maxTokens", Js.Number (inject_Z 2000));
   ("metadata", Js.Object [("source", Js.String "readme-mcp");
                           ("timestamp", Js.String "2023-11-14T22:13:20.000Z")])].

(** ... and as the broker delivers it. *)
Definition delivered_sampling_request : Js.value :=
  Js.Object [("specversion", Js.String "1.0");
             ("type", Js.String "com.dapr.event.sent");
             ("source", Js.String "readme-mcp");
             ("id", Js.String "evt-5");
             ("data", Js.Object example_sampling_request_fields)].

Definition delivered_sampling_event : CloudEvent.t :=
  CloudEvent.mk "1.0" "com.dapr.event.sent" "readme-mcp" "evt-5"
    (Js.Object example_sampling_request_fields).

(** [{specversion, type: "agent.request", ..., data: {agentId: "default",
    input: "hi", sessionId: "s-1"}}] *)
Definition example_agent_request : Js.value :=
  Js.Object [("specversion", Js.String "1.0");
             ("type", Js.String "agent.request");
             ("source", Js.String "client");
             ("id", Js.String "evt-7");
             ("data", Js.Object [("agentId", Js.String "default");
                                 ("input", Js.String "hi");
                                 ("sessionId", Js.String "s-1")])].

(** An agent request without [input]: [{..., data: {agentId: "default"}}] *)
Definition inputless_agent_request : Js.value :=
  Js.Object [("specversion", Js.String "1.0");
             ("type", Js.String "agent.request");
             ("source", Js.String "client");
             ("id", Js.String "evt-6");
             ("data", Js.Object [("agentId", Js.String "default")])].

Definition example_agent_event : CloudEvent.t :=
  CloudEvent.mk "1.0" "agent.request" "client" "evt-7"
    (Js.Object [("agentId", Js.String "default");
                ("input", Js.String "hi");
                ("sessionId", Js.String "s-1")]).

Definition example_agent_data : MessageHandler.AgentRequestData :=
  MessageHandler.mkAgentRequestData "default" (Js.String "hi") (Js.String "s-1")
    Js.Undefined.

(** An agent that answers every input with ["hello"]. *)
Definition example_agent : Agents.Agent :=
  λ messages input, Agents.Resolved (Some (length messages + 1)) (Js.String "hello").

Definition earlier_message : Agents.ChatMessage :=
  Agents.mkChatMessage "user" "first" "2023-11-14T22:00:00.000Z" Js.Undefined.

(** One agent registered, one conversation stored. *)
Definition example_agents : Agents.State :=
  Agents.mkState [("default", example_agent)]
    {[ Agents.chatKey "s-1" :=
         Agents.mkChatSessionState "s-1" "default" [earlier_message]
           "2023-11-14T22:00:00.000Z" "2023-11-14T22:00:00.000Z" Js.Undefined ]}
    [].

(** Every call to the sidecar is fulfilled ... *)
Definition dapr_up : Agents.Env := Agents.mkEnv true true true "2023-11-14T22:13:20.000Z".

(** ... or the read before the save is rejected. *)
Definition dapr_flaky : Agents.Env :=
  Agents.mkEnv true false true "2023-11-14T22:13:20.000Z".

(** [generate({name: "demo", description: "A demo."})] *)
Definition example_readme_input : ReadmeGenerator.GenerateReadmeInput :=
  ReadmeGenerator.mkGenerateReadmeInput "demo" "A demo." None None None None None None
    None None.

(** * Proofs *)

(** ** The scheduler makes the moves of the step relation *)

Section StepSound.
Context {R E I : Type} (B : Bridge R E I) {L : BridgeLaws B}.

Lemma step_sound ev s : Step B ev s (step ev s).
Proof.
  destruct ev as [rid i|i ok|resp|i|i]; simpl.
  - pose proof (begin_exit rid i (world s)) as Hx.
    destruct (begin_registry rid i (world s)) as (r & Hr & Hd).
    pose proof (begin_deferreds rid i (world s)) as Hc.
    destruct (call_begin rid i (world s)) as [x w]; simpl in *; subst x.
    by eapply Step_call.
  - destruct (fibers s !! i) as [[rid input d ph]|] eqn:Hf;
      [|by apply Step_skip].
    destruct ph; try by apply Step_skip.
    pose proof (published_exit rid input ok (world s)) as Hx.
    pose proof (published_registry rid input ok (world s)) as Hr.
    pose proof (published_deferreds rid input ok (world s)) as Hc.
    destruct (call_published rid input ok (world s)) as [x w]; simpl in *.
    destruct ok.
    + subst x. by eapply Step_published.
    + destruct Hx as [e ->]. eapply Step_published; simpl; eauto.
  - pose proof (handle_registry resp (world s)) as Hr.
    destruct (handle_deferreds resp (world s)) as [Hc|(rid & r & x & ? & ? & Hc)].
    + by apply Step_skip.
    + by eapply Step_deliver.
  - destruct (fibers s !! i) as [[rid input d ph]|] eqn:Hf;
      [|by apply Step_skip].
    destruct ph as [|[c0|] that|]; try by apply Step_skip.
    destruct (cells s !! d) as [[[v|c]|]|] eqn:Hd; try by apply Step_skip.
    + simpl.
      pose proof (cleanup_exit rid v (world s)) as Hx.
      pose proof (cleanup_registry rid v (world s)) as Hr.
      pose proof (cleanup_deferreds rid v (world s)) as Hc.
      destruct (call_cleanup rid v (world s)) as [x w]; simpl in *; subst x.
      by eapply Step_await_value.
    + destruct that as [c'|]; simpl; by eapply Step_await_failed.
  - destruct (fibers s !! i) as [[rid input d ph]|] eqn:Hf;
      [|by apply Step_skip].
    destruct ph as [|self [c0|]|]; try by apply Step_skip.
    destruct (timeout_exit rid input (world s)) as [e Hx].
    pose proof (timeout_registry rid input (world s)) as Hr.
    pose proof (timeout_deferreds rid input (world s)) as Hc.
    destruct (call_timeout rid input (world s)) as [x w]; simpl in *; subst x.
    destruct self as [c'|]; simpl; by eapply Step_sleep.
Qed.

End StepSound.

(** ** Both services satisfy the laws *)

Ltac unfold_eff :=
  unfold bind, succeed, fail, die, prop, logDebug, logInfo, logWarning,
    logError, respond, invoke, Ref_get, Ref_set, Ref_delete, Deferred_make,
    Deferred_succeed, Deferred_fail, catchAll in *;
  unfold emit, Deferred_done in *.

Ltac eval_run := cbn; unfold update_fiber, set_phase; simpl.

Ltac run_eff := repeat (unfold_eff; simpl in *; try case_match; simplify_eq).

Lemma AiSvc_laws pubsubName : BridgeLaws (AiSvc.bridge pubsubName).
Proof.
  constructor; simpl.
  - done.
  - intros rid i w. eexists. split; [reflexivity|done].
  - done.
  - intros rid i [] w; [done|]. by eexists.
  - by intros rid i [] w.
  - by intros rid i [] w.
  - intros. by eexists.
  - done.
  - done.
  - done.
  - done.
  - done.
  - intros resp w. unfold AiSvc.handleResponse. run_eff; done.
  - intros resp rid w Hk Hm. unfold AiSvc.handleResponse. unfold_eff.
    rewrite Hk. simpl. by rewrite Hm.
  - intros resp w. unfold AiSvc.handleResponse.
    run_eff; auto; right; unfold Map_get in *; case_match; try done;
      do 3 eexists; eauto.
Qed.

Lemma ReadmeMcp_laws pubsubName topicName timeoutMs :
  BridgeLaws (ReadmeMcp.bridge pubsubName topicName timeoutMs).
Proof.
  constructor; simpl.
  - done.
  - intros rid i w. eexists. split; [reflexivity|done].
  - done.
  - intros rid i [] w; [done|]. by eexists.
  - by intros rid i [] w.
  - by intros rid i [] w.
  - intros. by eexists.
  - done.
  - done.
  - done.
  - done.
  - done.
  - intros resp w. unfold ReadmeMcp.handleResponse. run_eff; done.
  - intros resp rid w Hk Hm. unfold ReadmeMcp.handleResponse. unfold_eff.
    rewrite Hk. simpl. by rewrite Hm.
  - intros resp w. unfold ReadmeMcp.handleResponse.
    run_eff; auto; right; unfold Map_get in *; case_match; try done;
      do 3 eexists; eauto.
Qed.

(** ** Invariants of the scheduler *)

Section Invariants.
Context {R E I : Type}.
Context (B : Bridge R E I).

Lemma run_cons ev evs (s : Sched R E I) : run (ev :: evs) s = run evs (step ev s).
Proof. done. Qed.

Lemma run_app evs1 evs2 (s : Sched R E I) :
  run (evs1 ++ evs2) s = run evs2 (run evs1 s).
Proof. apply fold_left_app. Qed.

(** A returned call stays returned, with the same exit. *)
Lemma Step_done_stable ev (s s' : Sched R E I) i f x :
  Step B ev s s' →
  fibers s !! i = Some f → f_phase f = Done x →
  fibers s' !! i = Some f.
Proof.
  intros HS Hf Hp.
  inversion HS; subst;
    repeat match goal with H : fibers s' = _ |- _ => rewrite H; clear H end;
    try done;
    try (by apply lookup_app_l_Some);
    (destruct (decide (i0 = i)) as [->|];
     [congruence | by rewrite list_lookup_alter_ne]).
Qed.

(** A completed deferred stays completed, with the same exit. *)
Lemma Step_cell_stable ev (s s' : Sched R E I) d x :
  Step B ev s s' →
  cells s !! d = Some (Some x) → cells s' !! d = Some (Some x).
Proof.
  intros HS Hd.
  inversion HS; subst;
    repeat match goal with H : cells s' = _ |- _ => rewrite H; clear H end;
    try done.
  - by apply lookup_app_l_Some.
  - destruct (decide (record_deferred r = d)) as [<-|]; [congruence|].
    by rewrite list_lookup_insert_ne.
Qed.

Lemma Step_clean ev (s s' : Sched R E I) used :
  Step B ev s s' →
  (∀ rid, rid ∈ call_ids [ev] → rid ∉ used) →
  Clean used s → Clean (call_ids [ev] ++ used) s'.
Proof.
  intros HS Hfresh HC j g Hg.
  inversion HS; subst; simpl in *;
    repeat match goal with
           | H : fibers s' = _ |- _ => rewrite H in Hg; clear H
           | H : registry s' = _ |- _ => rewrite H; clear H
           end.
  - (* a new call *)
    apply lookup_app_Some in Hg as [Hg|[_ Hg]].
    + destruct (HC _ _ Hg) as [Hin Hrm]. split; [set_solver|].
      intros Hp. rewrite lookup_insert_ne; [auto|].
      intros ->. eapply Hfresh; [|done]. set_solver.
    + apply list_lookup_singleton_Some in Hg as [_ <-]. simpl.
      split; [set_solver|done].
  - destruct ev; simpl; try (by eapply HC). by destruct (H requestId input).
  - destruct (decide (i = j)) as [->|];
      [|rewrite list_lookup_alter_ne in Hg by done; by eapply HC].
    rewrite list_lookup_alter_eq in Hg. rewrite H in Hg. simpl in Hg.
    simplify_eq. destruct (HC _ _ H) as [Hin _]. split; [done|].
    simpl. destruct ok; [by subst|]. by destruct H1 as [e ->].
  - by eapply HC.
  - destruct (decide (i = j)) as [->|].
    + rewrite list_lookup_alter_eq in Hg. rewrite H in Hg. simpl in Hg.
      simplify_eq. destruct (HC _ _ H) as [Hin _]. split; [done|].
      intros _. apply lookup_delete_eq.
    + rewrite list_lookup_alter_ne in Hg by done.
      destruct (HC _ _ Hg) as [Hin Hrm]. split; [done|].
      intros Hp. apply lookup_delete_None. auto.
  - destruct (decide (i = j)) as [->|];
      [|rewrite list_lookup_alter_ne in Hg by done; by eapply HC].
    rewrite list_lookup_alter_eq in Hg. rewrite H in Hg. simpl in Hg.
    simplify_eq. destruct (HC _ _ H) as [Hin Hrm]. split; [done|].
    rewrite H0 in Hrm. destruct that; simpl; [auto|done].
  - destruct (decide (i = j)) as [->|].
    + rewrite list_lookup_alter_eq in Hg. rewrite H in Hg. simpl in Hg.
      simplify_eq. destruct (HC _ _ H) as [Hin _]. split; [done|].
      intros _. apply lookup_delete_eq.
    + rewrite list_lookup_alter_ne in Hg by done.
      destruct (HC _ _ Hg) as [Hin Hrm]. split; [done|].
      intros Hp. apply lookup_delete_None. auto.
Qed.

Lemma Step_stuck ev (s s' : Sched R E I) i c d :
  Step B ev s s' → Stuck i c d s → Stuck i c d s'.
Proof.
  intros HS ((f & Hf & Hp & Hd) & Hc & Hreg).
  assert (d < length (cells s)) as Hlt by (by eapply lookup_lt_Some).
  inversion HS; subst; unfold Stuck;
    repeat match goal with
           | H : fibers s' = _ |- _ => rewrite H; clear H
           | H : registry s' = _ |- _ => rewrite H; clear H
           | H : cells s' = _ |- _ => rewrite H; clear H
           end.
  - split_and!.
    + exists f. by rewrite lookup_app_l_Some with (x := f).
    + by apply lookup_app_l_Some.
    + intros rid' r' [[-> <-]|[_ Hr]]%lookup_insert_Some; [lia|eauto].
  - split_and!; eauto.
  - split_and!; eauto. exists f.
    rewrite list_lookup_alter_ne; [done|]. intros ->. congruence.
  - split_and!; eauto.
    rewrite list_lookup_insert_ne; [done|]. eauto.
  - split_and!.
    + exists f. rewrite list_lookup_alter_ne; [done|]. intros ->. congruence.
    + done.
    + intros rid' r' [_ Hr]%lookup_delete_Some. eauto.
  - split_and!; eauto. exists f.
    rewrite list_lookup_alter_ne; [done|]. intros ->. congruence.
  - split_and!.
    + exists f. rewrite list_lookup_alter_ne; [done|]. intros ->. congruence.
    + done.
    + intros rid' r' [_ Hr]%lookup_delete_Some. eauto.
Qed.

(** A call leaves its race only with the delivered value or with both
    failures, and keeps its request id. *)
Lemma Step_leaves_race ev (s s' : Sched R E I) i f f' l r x :
  Step B ev s s' →
  fibers s !! i = Some f → f_phase f = Racing l r →
  fibers s' !! i = Some f' → f_phase f' = Done x →
  left_race x ∧ f_requestId f' = f_requestId f.
Proof.
  intros HS Hf Hp Hf' Hp'.
  inversion HS; subst;
    repeat match goal with H : fibers s' = _ |- _ => rewrite H in Hf'; clear H end;
    try (rewrite lookup_app_l_Some with (x := f) in Hf' by done);
    try (simplify_eq; congruence);
    (destruct (decide (i0 = i)) as [->|];
     [rewrite list_lookup_alter_eq in Hf'
     |rewrite list_lookup_alter_ne in Hf' by done; simplify_eq; congruence]);
    rewrite Hf in *; simpl in *; simplify_eq; simpl in *.
  - congruence.
  - by simplify_eq.
  - by destruct that; simplify_eq.
  - by destruct self; simplify_eq.
Qed.

Lemma Step_leaked ev (s s' : Sched R E I) rid :
  Step B ev s s' → rid ∉ call_ids [ev] → Leaked rid s → Leaked rid s'.
Proof.
  intros HS Hfresh [Hreg Hfib].
  assert (∀ i f p, fibers s !! i = Some f → f_phase f = p →
            (∀ x, p ≠ Done x) → f_requestId f ≠ rid) as Hne.
  { intros i f p Hf Hp Hnd Hr. destruct (Hfib _ _ Hf Hr) as [x Hx].
    eapply Hnd. by rewrite <- Hp, Hx. }
  assert (∀ j p g, alter (set_phase p) j (fibers s) !! j = Some g →
            (∃ f, fibers s !! j = Some f ∧ g = set_phase p f)) as Halt.
  { intros j p g. rewrite list_lookup_alter_eq.
    destruct (fibers s !! j); naive_solver. }
  inversion HS; subst; unfold Leaked;
    repeat match goal with
           | H : fibers s' = _ |- _ => rewrite H; clear H
           | H : registry s' = _ |- _ => rewrite H; clear H
           end; simpl in *.
  - split.
    + rewrite lookup_insert_ne; [done|]. set_solver.
    + intros j g [Hg|[_ Hg]]%lookup_app_Some Hrid; [eauto|].
      apply list_lookup_singleton_Some in Hg as [_ <-]. set_solver.
  - done.
  - split; [done|]. intros j g Hg Hrid.
    destruct (decide (i = j)) as [->|];
      [|rewrite list_lookup_alter_ne in Hg by done; eauto].
    apply Halt in Hg as (f' & Hf' & ->). exfalso.
    by eapply (Hne j f' Publishing); simplify_eq.
  - done.
  - split.
    + rewrite lookup_delete_ne; [done|]. by eapply Hne.
    + intros j g Hg Hrid.
      destruct (decide (i = j)) as [->|];
        [|rewrite list_lookup_alter_ne in Hg by done; eauto].
      apply Halt in Hg as (f' & Hf' & ->). by eexists.
  - split; [done|]. intros j g Hg Hrid.
    destruct (decide (i = j)) as [->|];
      [|rewrite list_lookup_alter_ne in Hg by done; eauto].
    apply Halt in Hg as (f' & Hf' & ->). exfalso.
    by eapply (Hne j f' (Racing None that)); simplify_eq.
  - split.
    + rewrite lookup_delete_ne; [done|]. by eapply Hne.
    + intros j g Hg Hrid.
      destruct (decide (i = j)) as [->|];
        [|rewrite list_lookup_alter_ne in Hg by done; eauto].
      apply Halt in Hg as (f' & Hf' & ->). exfalso.
      by eapply (Hne j f' (Racing self None)); simplify_eq.
Qed.

Context {L : BridgeLaws B}.

Lemma run_done_stable evs (s : Sched R E I) i f x :
  fibers s !! i = Some f → f_phase f = Done x →
  fibers (run evs s) !! i = Some f.
Proof.
  revert s. induction evs as [|ev evs IH]; intros s Hf Hp; [done|].
  rewrite run_cons. apply IH; [|done].
  eapply Step_done_stable; eauto using step_sound.
Qed.

Lemma run_cell_stable evs (s : Sched R E I) d x :
  cells s !! d = Some (Some x) → cells (run evs s) !! d = Some (Some x).
Proof.
  revert s. induction evs as [|ev evs IH]; intros s Hd; [done|].
  rewrite run_cons. apply IH.
  eapply Step_cell_stable; eauto using step_sound.
Qed.

Lemma run_stuck evs (s : Sched R E I) i c d :
  Stuck i c d s → Stuck i c d (run evs s).
Proof.
  revert s. induction evs as [|ev evs IH]; intros s Hs; [done|].
  rewrite run_cons. apply IH.
  eapply Step_stuck; eauto using step_sound.
Qed.

Lemma run_clean evs (s : Sched R E I) used :
  NoDup (call_ids evs) →
  (∀ rid, rid ∈ call_ids evs → rid ∉ used) →
  Clean used s → Clean (call_ids evs ++ used) (run evs s).
Proof.
  revert s used. induction evs as [|ev evs IH]; intros s used Hnd Hfr HC.
  { done. }
  rewrite run_cons.
  assert (call_ids (ev :: evs) = call_ids [ev] ++ call_ids evs) as Hids.
  { unfold call_ids. simpl. by case_match. }
  rewrite Hids in *. apply NoDup_app in Hnd as (_ & Hdis & Hnd).
  intros j g Hg.
  destruct (IH (step ev s) (call_ids [ev] ++ used)) with (i := j) (f := g)
    as [Hin Hrm]; [done| | |done|].
  - intros rid Hrid [?|?]%elem_of_app; [by eapply Hdis|].
    eapply Hfr; [|done]. set_solver.
  - eapply Step_clean; eauto using step_sound.
    intros rid Hrid. apply Hfr. set_solver.
  - split; [|done]. revert Hin. rewrite !elem_of_app. tauto.
Qed.

(** From the start, with distinct request ids. *)
Lemma run_init_clean evs i f :
  NoDup (call_ids evs) →
  fibers (run evs initSched) !! i = Some f →
  removed (f_phase f) →
  registry (run evs initSched) !! f_requestId f = None.
Proof.
  intros Hnd Hf Hp.
  destruct (run_clean evs initSched [] Hnd) with (i := i) (f := f)
    as [_ Hrm]; auto.
  - intros rid _. set_solver.
  - by intros j g Hg.
Qed.

Lemma run_leaked evs (s : Sched R E I) rid :
  rid ∉ call_ids evs → Leaked rid s → Leaked rid (run evs s).
Proof.
  revert s. induction evs as [|ev evs IH]; intros s Hfr HL; [done|].
  assert (call_ids (ev :: evs) = call_ids [ev] ++ call_ids evs) as Hids.
  { unfold call_ids. simpl. by case_match. }
  rewrite Hids in Hfr. apply not_elem_of_app in Hfr as [Hfr1 Hfr2].
  rewrite run_cons. apply IH; [done|].
  eapply Step_leaked; eauto using step_sound.
Qed.

(** A call that returns from its race at some event leaves no record in
    the registry, then and after any further events. *)
Lemma returned_from_race_clean evs1 ev evs2 i f l r x :
  NoDup (call_ids (evs1 ++ ev :: evs2)) →
  fibers (run evs1 initSched) !! i = Some f →
  f_phase f = Racing l r →
  phase_of i (step ev (run evs1 initSched)) = Some (Done x) →
  registry (run (evs1 ++ ev :: evs2) initSched) !! f_requestId f = None.
Proof.
  intros Hnd Hf Hp Hx. unfold phase_of in Hx.
  destruct (fibers (step ev (run evs1 initSched)) !! i) as [f'|] eqn:Hf';
    [|done].
  simpl in Hx. simplify_eq.
  destruct (Step_leaves_race ev _ _ i f f' l r x (step_sound B ev _) Hf Hp Hf')
    as [Hlr Hrid]; [done|].
  rewrite <- Hrid.
  apply run_init_clean with (i := i); [done| |by rewrite Hx].
  rewrite run_app, run_cons. by eapply run_done_stable.
Qed.

End Invariants.

(** ** [handleResponse]: what it does to the world *)

Lemma AiSvc_handleResponse_unknown resp key w :
  Js.get resp "requestId" = Some key →
  Map_get (pendingRequests w) key = None →
  AiSvc.handleResponse resp w
  = (Success tt,
     mkWorld (pendingRequests w) (deferreds w)
       (trace w ++
          [OpLog Debug "Received MCP tool response" (Js.Object [("requestId", key)]);
           OpLog Warning "Received response for unknown request"
             (Js.Object [("requestId", key)])])).
Proof.
  intros Hk Hm. unfold AiSvc.handleResponse. unfold_eff. rewrite Hk. simpl.
  rewrite Hm. simpl. by rewrite <- app_assoc.
Qed.

Lemma ReadmeMcp_handleResponse_unknown resp key w :
  Js.get resp "requestId" = Some key →
  Map_get (pendingRequests w) key = None →
  ReadmeMcp.handleResponse resp w
  = (Success tt,
     mkWorld (pendingRequests w) (deferreds w)
       (trace w ++
          [OpLog Debug "Received sampling response" (Js.Object [("requestId", key)]);
           OpLog Warning "Received response for unknown request"
             (Js.Object [("requestId", key)])])).
Proof.
  intros Hk Hm. unfold ReadmeMcp.handleResponse. unfold_eff. rewrite Hk. simpl.
  rewrite Hm. simpl. by rewrite <- app_assoc.
Qed.

Lemma AiSvc_handleResponse_known fields rid r w :
  Js.assoc "requestId" fields = Js.String rid →
  pendingRequests w !! rid = Some r →
  let w' := (AiSvc.handleResponse (Js.Object fields) w).2 in
  (AiSvc.handleResponse (Js.Object fields) w).1 = Success tt
  ∧ pendingRequests w' = pendingRequests w
  ∧ deferreds w' = complete (AiSvc.deferred r) (AiSvc_resolution r fields) (deferreds w).
Proof.
  intros Hk Hr. unfold AiSvc.handleResponse, AiSvc_resolution, complete.
  unfold_eff. simpl. rewrite Hk. simpl. rewrite Hr. simpl.
  destruct (Js.truthy (Js.assoc "error" fields)); simpl;
    destruct (deferreds w !! AiSvc.deferred r) as [[?|]|]; done.
Qed.

Lemma ReadmeMcp_handleResponse_known fields rid r w :
  Js.assoc "requestId" fields = Js.String rid →
  pendingRequests w !! rid = Some r →
  let w' := (ReadmeMcp.handleResponse (Js.Object fields) w).2 in
  (ReadmeMcp.handleResponse (Js.Object fields) w).1 = Success tt
  ∧ pendingRequests w' = pendingRequests w
  ∧ deferreds w' = complete (ReadmeMcp.deferred r) (ReadmeMcp_resolution fields) (deferreds w).
Proof.
  intros Hk Hr. unfold ReadmeMcp.handleResponse, ReadmeMcp_resolution, complete.
  unfold_eff. simpl. rewrite Hk. simpl. rewrite Hr. simpl.
  destruct (Js.truthy (Js.assoc "error" fields)); simpl;
    destruct (deferreds w !! ReadmeMcp.deferred r) as [[?|]|]; done.
Qed.

(** ** The running examples, evaluated *)

Example ai_in_flight_registry :
  registry ai_in_flight !! "req-1"
  = Some (AiSvc.mkPendingRequest 0 1700000000000 "validate-readme").
Proof. by vm_compute. Qed.

Example ai_in_flight_fibers :
  fibers ai_in_flight = [mkFiber "req-1" example_call 0 (Racing None None)].
Proof. by vm_compute. Qed.

(** ** C1: what [handleResponse] does for a matching response *)

(** C1, as stated, fails: after [handleResponse] has resolved the waiter
    of the matching record, the record is still in the registry. *)
Lemma C1_counterexample :
  registry ai_in_flight !! "req-1"
  = Some (AiSvc.mkPendingRequest 0 1700000000000 "validate-readme")
  ∧ let w' := (AiSvc.handleResponse (Js.Object tool_response_fields)
                 (world ai_in_flight)).2 in
    deferreds w' !! 0 = Some (Some (Success tool_result))
    ∧ pendingRequests w' !! "req-1"
      = Some (AiSvc.mkPendingRequest 0 1700000000000 "validate-readme").
Proof. by vm_compute. Qed.

Section AwaitResumed.
Context {R E I : Type} (B : Bridge R E I) {L : BridgeLaws B}.

(** The record of a call whose deferred holds a value is removed when the
    call's fiber resumes from the race, by the call's own cleanup. *)
Lemma step_await_value (s : Sched R E I) i f that v :
  fibers s !! i = Some f → f_phase f = Racing None that →
  cells s !! f_deferred f = Some (Some (Success v)) →
  registry (step (AwaitResumed i) s) = delete (f_requestId f) (registry s)
  ∧ phase_of i (step (AwaitResumed i) s) = Some (Done (Success v)).
Proof.
  intros Hf Hp Hd. unfold phase_of. simpl. rewrite Hf.
  destruct f as [rid input d ph]; simpl in *; subst ph. rewrite Hd. simpl.
  pose proof (cleanup_exit rid v (world s)) as Hx.
  pose proof (cleanup_registry rid v (world s)) as Hr.
  destruct (call_cleanup rid v (world s)) as [x w]; simpl in *; subst x.
  split; [done|]. by rewrite list_lookup_alter_eq, Hf.
Qed.
End AwaitResumed.

(** C1 (amended): for a response whose [requestId] matches a record,
    [handleResponse] returns normally, leaves the registry as it is and
    completes the record's deferred -- with a failure wrapping
    [response.error] when that is truthy, with the success payload
    otherwise (a deferred that is already completed stays as it is).  The
    record is removed later, by the call's own cleanup when its fiber
    resumes from the race with the delivered value. *)
Theorem C1_handleResponse_resolves_keeps_record :
  (∀ fields rid r w,
     Js.assoc "requestId" fields = Js.String rid →
     pendingRequests w !! rid = Some r →
     let w' := (AiSvc.handleResponse (Js.Object fields) w).2 in
     (AiSvc.handleResponse (Js.Object fields) w).1 = Success tt
     ∧ pendingRequests w' = pendingRequests w
     ∧ deferreds w'
       = complete (AiSvc.deferred r) (AiSvc_resolution r fields) (deferreds w))
  ∧ (∀ fields rid r w,
     Js.assoc "requestId" fields = Js.String rid →
     pendingRequests w !! rid = Some r →
     let w' := (ReadmeMcp.handleResponse (Js.Object fields) w).2 in
     (ReadmeMcp.handleResponse (Js.Object fields) w).1 = Success tt
     ∧ pendingRequests w' = pendingRequests w
     ∧ deferreds w'
       = complete (ReadmeMcp.deferred r) (ReadmeMcp_resolution fields) (deferreds w))
  ∧ (∀ pubsubName s i f that v,
     fibers s !! i = Some f → f_phase f = Racing None that →
     cells s !! f_deferred f = Some (Some (Success v)) →
     registry (step (B := AiSvc.bridge pubsubName) (AwaitResumed i) s)
     = delete (f_requestId f) (registry s))
  ∧ (∀ pubsubName topicName timeoutMs s i f that v,
     fibers s !! i = Some f → f_phase f = Racing None that →
     cells s !! f_deferred f = Some (Some (Success v)) →
     registry (step (B := ReadmeMcp.bridge pubsubName topicName timeoutMs)
                 (AwaitResumed i) s)
     = delete (f_requestId f) (registry s)).
Proof.
  split_and!.
  - apply AiSvc_handleResponse_known.
  - apply ReadmeMcp_handleResponse_known.
  - intros pn s i f that v Hf Hp Hd.
    by destruct (step_await_value (L := AiSvc_laws pn) _ s i f that v).
  - intros pn tn ms s i f that v Hf Hp Hd.
    by destruct (step_await_value (L := ReadmeMcp_laws pn tn ms) _ s i f that v).
Qed.

Lemma C1_witness :
  let w := world ai_in_flight in
  let w' := (AiSvc.handleResponse (Js.Object tool_response_fields) w).2 in
  (AiSvc.handleResponse (Js.Object tool_response_fields) w).1 = Success tt
  ∧ pendingRequests w' = pendingRequests w
  ∧ deferreds w' = [Some (Success tool_result)].
Proof.
  apply (proj1 C1_handleResponse_resolves_keeps_record tool_response_fields "req-1"
           (AiSvc.mkPendingRequest 0 1700000000000 "validate-readme")
           (world ai_in_flight)).
  - reflexivity.
  - vm_compute. reflexivity.
Defined.

(** ** C6: a response nobody waits for *)

(** C6: for a response whose [requestId] is not a key of the registry,
    [handleResponse] exits with success, having written the debug line and
    one warning; the registry (every other pending record) and every
    deferred are as before. *)
Theorem C6_unknown_response_is_logged_and_dropped :
  (∀ resp key w,
     Js.get resp "requestId" = Some key →
     Map_get (pendingRequests w) key = None →
     AiSvc.handleResponse resp w
     = (Success tt,
        mkWorld (pendingRequests w) (deferreds w)
          (trace w ++
             [OpLog Debug "Received MCP tool response" (Js.Object [("requestId", key)]);
              OpLog Warning "Received response for unknown request"
                (Js.Object [("requestId", key)])])))
  ∧ (∀ resp key w,
     Js.get resp "requestId" = Some key →
     Map_get (pendingRequests w) key = None →
     ReadmeMcp.handleResponse resp w
     = (Success tt,
        mkWorld (pendingRequests w) (deferreds w)
          (trace w ++
             [OpLog Debug "Received sampling response" (Js.Object [("requestId", key)]);
              OpLog Warning "Received response for unknown request"
                (Js.Object [("requestId", key)])]))).
Proof.
  split.
  - apply AiSvc_handleResponse_unknown.
  - apply ReadmeMcp_handleResponse_unknown.
Qed.

Lemma C6_witness :
  let w := world ai_in_flight in
  (AiSvc.handleResponse stray_response w).1 = Success tt
  ∧ pendingRequests (AiSvc.handleResponse stray_response w).2 = pendingRequests w
  ∧ deferreds (AiSvc.handleResponse stray_response w).2 = [None].
Proof.
  intros w.
  rewrite (proj1 C6_unknown_response_is_logged_and_dropped stray_response
             (Js.String "req-9") w).
  - split_and!; reflexivity.
  - reflexivity.
  - vm_compute. reflexivity.
Defined.

(** ** C2 and C3: a delivered error, then the timer *)

Section ErrorThenTimer.
Context {R E I : Type} (B : Bridge R E I) {L : BridgeLaws B}.

Lemma step_sleep_cells (s : Sched R E I) i :
  cells (step (SleepElapsed i) s) = cells s.
Proof.
  pose proof (step_sound B (SleepElapsed i) s) as HS.
  by inversion HS.
Qed.

(** The await side of a race fails with the failure its deferred was
    completed with; the race goes on, waiting for the timeout side. *)
Lemma step_await_failure (s : Sched R E I) i f c :
  fibers s !! i = Some f → f_phase f = Racing None None →
  cells s !! f_deferred f = Some (Some (Failure c)) →
  step (AwaitResumed i) s = update_fiber i (Racing (Some c) None) (world s) s.
Proof.
  intros Hf Hp Hd. simpl. rewrite Hf.
  destruct f as [rid input d ph]; simpl in *; subst ph. by rewrite Hd.
Qed.

(** The timeout side of a race whose await side has failed: it removes
    the record, fails, and with that the race ends, with both failures. *)
Lemma step_sleep_after_failure (s : Sched R E I) i f c :
  fibers s !! i = Some f → f_phase f = Racing (Some c) None →
  ∃ e,
    (call_timeout (f_requestId f) (f_input f) (world s)).1 = Failure (Fail e)
    ∧ phase_of i (step (SleepElapsed i) s)
      = Some (Done (Failure (Parallel c (Fail e))))
    ∧ registry (step (SleepElapsed i) s) = delete (f_requestId f) (registry s)
    ∧ cells (step (SleepElapsed i) s) = cells s.
Proof.
  intros Hf Hp. unfold phase_of. simpl. rewrite Hf.
  destruct f as [rid input d ph]; simpl in *; subst ph.
  destruct (timeout_exit rid input (world s)) as [e Hx].
  pose proof (timeout_registry rid input (world s)) as Hr.
  pose proof (timeout_deferreds rid input (world s)) as Hc.
  destruct (call_timeout rid input (world s)) as [x w]; simpl in *; subst x.
  exists e. simpl. split_and!; [done| |done|done].
  by rewrite list_lookup_alter_eq, Hf.
Qed.

(** A call in flight whose deferred a delivery completes with a failure:
    resumed, it stays in the race, its record still registered; the
    timer, firing afterwards, removes the record and ends the call. *)
Lemma error_then_timer (s : Sched R E I) i f r resp c :
  fibers s !! i = Some f → f_phase f = Racing None None →
  registry s !! f_requestId f = Some r →
  pendingRequests (handle_response resp (world s)).2 = registry s →
  deferreds (handle_response resp (world s)).2
  = <[f_deferred f := Some (Failure c)]> (cells s) →
  cells s !! f_deferred f = Some None →
  let s1 := step (Deliver resp) s in
  let s2 := step (AwaitResumed i) s1 in
  let s3 := step (SleepElapsed i) s2 in
  ∃ e,
    (call_timeout (f_requestId f) (f_input f) (world s2)).1 = Failure (Fail e)
    ∧ cells s1 !! f_deferred f = Some (Some (Failure c))
    ∧ phase_of i s2 = Some (Racing (Some c) None)
    ∧ registry s2 !! f_requestId f = Some r
    ∧ phase_of i s3 = Some (Done (Failure (Parallel c (Fail e))))
    ∧ registry s3 !! f_requestId f = None
    ∧ cells s3 = cells s1.
Proof.
  intros Hf Hp Hr Hreg Hcells Hd s1 s2 s3.
  assert (cells s1 !! f_deferred f = Some (Some (Failure c))) as Hd1.
  { subst s1. simpl. rewrite Hcells. apply list_lookup_insert_eq.
    by eapply lookup_lt_Some. }
  assert (fibers s1 = fibers s) as Hf1 by done.
  assert (s2 = update_fiber i (Racing (Some c) None) (world s1) s1) as Hs2.
  { subst s2. apply (step_await_failure s1 i f c); [by rewrite Hf1|done|done]. }
  assert (fibers s2 !! i = Some (set_phase (Racing (Some c) None) f)) as Hf2.
  { rewrite Hs2. unfold update_fiber. simpl. by rewrite list_lookup_alter_eq, Hf. }
  destruct (step_sleep_after_failure s2 i _ c Hf2 eq_refl) as (e & Hx & Hp3 & Hr3 & Hc3).
  exists e. split_and!.
  - done.
  - done.
  - unfold phase_of. by rewrite Hf2.
  - rewrite Hs2. unfold update_fiber. simpl. by rewrite Hreg.
  - done.
  - fold s3 in Hr3. rewrite Hr3. apply lookup_delete_eq.
  - fold s3 in Hc3. rewrite Hc3, Hs2. done.
Qed.

End ErrorThenTimer.

Lemma AiSvc_error_then_timer pubsubName
    (s : Sched AiSvc.PendingRequest AiSvc.Error AiSvc.Input) i f r fields :
  fibers s !! i = Some f → f_phase f = Racing None None →
  registry s !! f_requestId f = Some r → AiSvc.deferred r = f_deferred f →
  cells s !! f_deferred f = Some None →
  Js.assoc "requestId" fields = Js.String (f_requestId f) →
  Js.truthy (Js.assoc "error" fields) = true →
  let B := AiSvc.bridge pubsubName in
  let delivered :=
    Fail (AiSvc.McpToolError (AiSvc.toolName r) (Js.assoc "error" fields)) in
  let timeout :=
    Fail (AiSvc.McpToolTimeoutError (AiSvc.in_toolName (f_input f)) (f_requestId f)
            30000) in
  let s1 := step (Deliver (Js.Object fields)) s in
  let s2 := step (AwaitResumed i) s1 in
  let s3 := step (SleepElapsed i) s2 in
  cells s1 !! f_deferred f = Some (Some (Failure delivered))
  ∧ phase_of i s2 = Some (Racing (Some delivered) None)
  ∧ registry s2 !! f_requestId f = Some r
  ∧ phase_of i s3 = Some (Done (Failure (Parallel delivered timeout)))
  ∧ registry s3 !! f_requestId f = None
  ∧ cells s3 = cells s1.
Proof.
  intros Hf Hp Hr Hdef Hd Hid Herr B delivered timeout s1 s2 s3.
  destruct (AiSvc_handleResponse_known fields (f_requestId f) r (world s) Hid Hr)
    as (_ & Hreg & Hcells).
  cbn zeta in Hreg, Hcells. unfold complete, AiSvc_resolution in Hcells.
  rewrite Hdef, Hd, Herr in Hcells.
  destruct (error_then_timer (L := AiSvc_laws pubsubName) B s i f r (Js.Object fields)
              delivered Hf Hp Hr Hreg Hcells Hd)
    as (e & Hx & H1 & H2 & H3 & H4 & H5 & H6).
  assert (Fail e = timeout) as He by (simpl in Hx; by simplify_eq).
  rewrite He in H4. by split_and!.
Qed.

Lemma ReadmeMcp_error_then_timer pubsubName topicName timeoutMs
    (s : Sched ReadmeMcp.PendingRequest ReadmeMcp.Error ReadmeMcp.Input) i f r fields :
  fibers s !! i = Some f → f_phase f = Racing None None →
  registry s !! f_requestId f = Some r → ReadmeMcp.deferred r = f_deferred f →
  cells s !! f_deferred f = Some None →
  Js.assoc "requestId" fields = Js.String (f_requestId f) →
  Js.truthy (Js.assoc "error" fields) = true →
  let B := ReadmeMcp.bridge pubsubName topicName timeoutMs in
  let delivered :=
    Fail (ReadmeMcp.LlmClientError "sample" (Js.assoc "error" fields)) in
  let timeout :=
    Fail (ReadmeMcp.TimeoutError "sample" timeoutMs
            ("Sampling request " +:+ f_requestId f +:+ " timed out after "
               +:+ pretty timeoutMs +:+ "ms")) in
  let s1 := step (Deliver (Js.Object fields)) s in
  let s2 := step (AwaitResumed i) s1 in
  let s3 := step (SleepElapsed i) s2 in
  cells s1 !! f_deferred f = Some (Some (Failure delivered))
  ∧ phase_of i s2 = Some (Racing (Some delivered) None)
  ∧ registry s2 !! f_requestId f = Some r
  ∧ phase_of i s3 = Some (Done (Failure (Parallel delivered timeout)))
  ∧ registry s3 !! f_requestId f = None
  ∧ cells s3 = cells s1.
Proof.
  intros Hf Hp Hr Hdef Hd Hid Herr B delivered timeout s1 s2 s3.
  destruct (ReadmeMcp_handleResponse_known fields (f_requestId f) r (world s) Hid Hr)
    as (_ & Hreg & Hcells).
  cbn zeta in Hreg, Hcells. unfold complete, ReadmeMcp_resolution in Hcells.
  rewrite Hdef, Hd, Herr in Hcells.
  destruct (error_then_timer (L := ReadmeMcp_laws pubsubName topicName timeoutMs) B s i f r
              (Js.Object fields) delivered Hf Hp Hr Hreg Hcells Hd)
    as (e & Hx & H1 & H2 & H3 & H4 & H5 & H6).
  assert (Fail e = timeout) as He by (simpl in Hx; by simplify_eq).
  rewrite He in H4. by split_and!.
Qed.


Example served_run_returns :
  fibers (ai_run served_run initSched)
  = [mkFiber "req-1" example_call 0 (Done (Success tool_result))].
Proof. by vm_compute. Qed.

Example failed_run_still_racing :
  fibers (ai_run failed_run initSched)
  = [mkFiber "req-1" example_call 0
       (Racing (Some (Fail (AiSvc.McpToolError "validate-readme"
                              (Js.String "invalid arguments")))) None)].
Proof. by vm_compute. Qed.

Example failed_run_returns_at_the_timeout :
  phase_of 0 (ai_run (failed_run ++ [SleepElapsed 0]) initSched)
  = Some (Done (Failure (Parallel
       (Fail (AiSvc.McpToolError "validate-readme" (Js.String "invalid arguments")))
       (Fail (AiSvc.McpToolTimeoutError "validate-readme" "req-1" 30000))))).
Proof. by vm_compute. Qed.

(** ** C2: the delivery and the timer *)

(** C2 fails on the code.  When a response with an error is delivered
    for a call in flight, the delivery completes the call's deferred with
    the failure, but the call does not return: resumed, it stays in its
    race.  The timer, firing afterwards, is no no-op: it removes the
    record and it is what ends the call, whose failure holds both the
    delivered error and the timeout error.  (The deferred itself is left
    as the delivery completed it.) *)
Theorem C2_timer_after_delivered_error_ends_the_call :
  (∀ pubsubName (s : Sched AiSvc.PendingRequest AiSvc.Error AiSvc.Input) i f r fields,
     fibers s !! i = Some f → f_phase f = Racing None None →
     registry s !! f_requestId f = Some r → AiSvc.deferred r = f_deferred f →
     cells s !! f_deferred f = Some None →
     Js.assoc "requestId" fields = Js.String (f_requestId f) →
     Js.truthy (Js.assoc "error" fields) = true →
     let B := AiSvc.bridge pubsubName in
     let delivered :=
       Fail (AiSvc.McpToolError (AiSvc.toolName r) (Js.assoc "error" fields)) in
     let timeout :=
       Fail (AiSvc.McpToolTimeoutError (AiSvc.in_toolName (f_input f)) (f_requestId f)
               30000) in
     let s1 := step (Deliver (Js.Object fields)) s in
     let s2 := step (AwaitResumed i) s1 in
     let s3 := step (SleepElapsed i) s2 in
     cells s1 !! f_deferred f = Some (Some (Failure delivered))
     ∧ phase_of i s2 = Some (Racing (Some delivered) None)
     ∧ phase_of i s3 = Some (Done (Failure (Parallel delivered timeout)))
     ∧ registry s2 !! f_requestId f = Some r
     ∧ registry s3 !! f_requestId f = None
     ∧ cells s3 = cells s1)
  ∧ (∀ pubsubName topicName timeoutMs
       (s : Sched ReadmeMcp.PendingRequest ReadmeMcp.Error ReadmeMcp.Input) i f r fields,
     fibers s !! i = Some f → f_phase f = Racing None None →
     registry s !! f_requestId f = Some r → ReadmeMcp.deferred r = f_deferred f →
     cells s !! f_deferred f = Some None →
     Js.assoc "requestId" fields = Js.String (f_requestId f) →
     Js.truthy (Js.assoc "error" fields) = true →
     let B := ReadmeMcp.bridge pubsubName topicName timeoutMs in
     let delivered :=
       Fail (ReadmeMcp.LlmClientError "sample" (Js.assoc "error" fields)) in
     let timeout :=
       Fail (ReadmeMcp.TimeoutError "sample" timeoutMs
               ("Sampling request " +:+ f_requestId f +:+ " timed out after "
                  +:+ pretty timeoutMs +:+ "ms")) in
     let s1 := step (Deliver (Js.Object fields)) s in
     let s2 := step (AwaitResumed i) s1 in
     let s3 := step (SleepElapsed i) s2 in
     cells s1 !! f_deferred f = Some (Some (Failure delivered))
     ∧ phase_of i s2 = Some (Racing (Some delivered) None)
     ∧ phase_of i s3 = Some (Done (Failure (Parallel delivered timeout)))
     ∧ registry s2 !! f_requestId f = Some r
     ∧ registry s3 !! f_requestId f = None
     ∧ cells s3 = cells s1).
Proof.
  split.
  - intros pn s i f r fields Hf Hp Hr Hdef Hd Hid Herr.
    destruct (AiSvc_error_then_timer pn s i f r fields Hf Hp Hr Hdef Hd Hid Herr)
      as (H1 & H2 & H3 & H4 & H5 & H6).
    cbn zeta. by split_and!.
  - intros pn tn ms s i f r fields Hf Hp Hr Hdef Hd Hid Herr.
    destruct (ReadmeMcp_error_then_timer pn tn ms s i f r fields Hf Hp Hr Hdef Hd Hid Herr)
      as (H1 & H2 & H3 & H4 & H5 & H6).
    cbn zeta. by split_and!.
Qed.

Lemma C2_witness :
  (let s2 := ai_run failed_run initSched in
   let s3 := ai_step (SleepElapsed 0) s2 in
   cells s2 !! 0
   = Some (Some (Failure (Fail (AiSvc.McpToolError "validate-readme"
                                  (Js.String "invalid arguments")))))
   ∧ phase_of 0 s3
     = Some (Done (Failure (Parallel
          (Fail (AiSvc.McpToolError "validate-readme" (Js.String "invalid arguments")))
          (Fail (AiSvc.McpToolTimeoutError "validate-readme" "req-1" 30000)))))
   ∧ registry s2 !! "req-1"
     = Some (AiSvc.mkPendingRequest 0 1700000000000 "validate-readme")
   ∧ registry s3 !! "req-1" = None)
  ∧ (let s2 := mcp_run [Deliver sampling_error_response; AwaitResumed 0] mcp_in_flight in
     let s3 := mcp_step (SleepElapsed 0) s2 in
     phase_of 0 s3
     = Some (Done (Failure (Parallel
          (Fail (ReadmeMcp.LlmClientError "sample" (Js.String "rate limited")))
          (Fail (ReadmeMcp.TimeoutError "sample" 30000
                   "Sampling request req-1 timed out after 30000ms")))))
     ∧ registry s2 !! "req-1" = Some (ReadmeMcp.mkPendingRequest 0 1700000000000)
     ∧ registry s3 !! "req-1" = None).
Proof.
  split.
  - destruct (proj1 C2_timer_after_delivered_error_ends_the_call "ai-pubsub" ai_in_flight 0
                (mkFiber "req-1" example_call 0 (Racing None None))
                (AiSvc.mkPendingRequest 0 1700000000000%Z "validate-readme")
                [("requestId", Js.String "req-1"); ("error", Js.String "invalid arguments")]
                eq_refl eq_refl eq_refl eq_refl eq_refl eq_refl eq_refl)
      as (H1 & _ & H3 & H4 & H5 & H6).
    cbn zeta. split_and!; [exact H1|exact H3|exact H4|exact H5].
  - destruct (proj2 C2_timer_after_delivered_error_ends_the_call "ai-pubsub" "ai-stream"
                30000%Z mcp_in_flight 0
                (mkFiber "req-1" example_sample 0 (Racing None None))
                (ReadmeMcp.mkPendingRequest 0 1700000000000%Z)
                [("requestId", Js.String "req-1"); ("error", Js.String "rate limited")]
                eq_refl eq_refl eq_refl eq_refl eq_refl eq_refl eq_refl)
      as (_ & _ & H3 & H4 & H5 & _).
    cbn zeta. split_and!; [exact H3|exact H4|exact H5].
Defined.

(** ** C3: no record is left behind *)

(** C3: in every run in which the calls draw distinct request ids, a call
    has no record in the registry (1) once its own removal has run, that
    is, once its timeout has elapsed, whether or not it has returned, and
    once it has returned from its race, with the delivered value or with
    the two failures of its two sides; (2) in particular a call that
    returns from its race at some event has no record then and after any
    further events.  (3) A delivered error alone does not complete the
    call: resumed, it stays in the race with its record registered, and
    it returns, its record removed, when its timeout elapses. *)
Theorem C3_no_record_after_resolution :
  (∀ pubsubName evs i f,
     NoDup (call_ids evs) →
     let s := run (B := AiSvc.bridge pubsubName) evs initSched in
     fibers s !! i = Some f →
     ((∃ v, f_phase f = Done (Success v))
      ∨ (∃ l r, f_phase f = Done (Failure (Parallel l r)))
      ∨ (∃ a c, f_phase f = Racing a (Some c))) →
     registry s !! f_requestId f = None)
  ∧ (∀ pubsubName topicName timeoutMs evs i f,
     NoDup (call_ids evs) →
     let s := run (B := ReadmeMcp.bridge pubsubName topicName timeoutMs) evs initSched in
     fibers s !! i = Some f →
     ((∃ v, f_phase f = Done (Success v))
      ∨ (∃ l r, f_phase f = Done (Failure (Parallel l r)))
      ∨ (∃ a c, f_phase f = Racing a (Some c))) →
     registry s !! f_requestId f = None)
  ∧ (∀ pubsubName evs1 ev evs2 i f l r x,
     NoDup (call_ids (evs1 ++ ev :: evs2)) →
     let B := AiSvc.bridge pubsubName in
     fibers (run (B := B) evs1 initSched) !! i = Some f →
     f_phase f = Racing l r →
     phase_of i (step (B := B) ev (run (B := B) evs1 initSched)) = Some (Done x) →
     registry (run (B := B) (evs1 ++ ev :: evs2) initSched) !! f_requestId f = None)
  ∧ (∀ pubsubName topicName timeoutMs evs1 ev evs2 i f l r x,
     NoDup (call_ids (evs1 ++ ev :: evs2)) →
     let B := ReadmeMcp.bridge pubsubName topicName timeoutMs in
     fibers (run (B := B) evs1 initSched) !! i = Some f →
     f_phase f = Racing l r →
     phase_of i (step (B := B) ev (run (B := B) evs1 initSched)) = Some (Done x) →
     registry (run (B := B) (evs1 ++ ev :: evs2) initSched) !! f_requestId f = None)
  ∧ (∀ pubsubName (s : Sched AiSvc.PendingRequest AiSvc.Error AiSvc.Input) i f r fields,
     fibers s !! i = Some f → f_phase f = Racing None None →
     registry s !! f_requestId f = Some r → AiSvc.deferred r = f_deferred f →
     cells s !! f_deferred f = Some None →
     Js.assoc "requestId" fields = Js.String (f_requestId f) →
     Js.truthy (Js.assoc "error" fields) = true →
     let B := AiSvc.bridge pubsubName in
     let s2 := run [Deliver (Js.Object fields); AwaitResumed i] s in
     let s3 := step (SleepElapsed i) s2 in
     (∃ c, phase_of i s2 = Some (Racing (Some c) None))
     ∧ registry s2 !! f_requestId f = Some r
     ∧ (∃ c, phase_of i s3 = Some (Done (Failure c)))
     ∧ registry s3 !! f_requestId f = None)
  ∧ (∀ pubsubName topicName timeoutMs
       (s : Sched ReadmeMcp.PendingRequest ReadmeMcp.Error ReadmeMcp.Input) i f r fields,
     fibers s !! i = Some f → f_phase f = Racing None None →
     registry s !! f_requestId f = Some r → ReadmeMcp.deferred r = f_deferred f →
     cells s !! f_deferred f = Some None →
     Js.assoc "requestId" fields = Js.String (f_requestId f) →
     Js.truthy (Js.assoc "error" fields) = true →
     let B := ReadmeMcp.bridge pubsubName topicName timeoutMs in
     let s2 := run [Deliver (Js.Object fields); AwaitResumed i] s in
     let s3 := step (SleepElapsed i) s2 in
     (∃ c, phase_of i s2 = Some (Racing (Some c) None))
     ∧ registry s2 !! f_requestId f = Some r
     ∧ (∃ c, phase_of i s3 = Some (Done (Failure c)))
     ∧ registry s3 !! f_requestId f = None).
Proof.
  assert (∀ E (p : Phase E),
            (∃ v, p = Done (Success v)) ∨ (∃ l r, p = Done (Failure (Parallel l r)))
            ∨ (∃ a c, p = Racing a (Some c)) → removed p) as Hrm.
  { intros E p [[v ->]|[(l & r & ->)|(a & c & ->)]]; exact I. }
  split_and!.
  - intros pn evs i f Hnd s Hf Hp.
    by apply (run_init_clean (L := AiSvc_laws pn) _ evs i f Hnd Hf), Hrm.
  - intros pn tn ms evs i f Hnd s Hf Hp.
    by apply (run_init_clean (L := ReadmeMcp_laws pn tn ms) _ evs i f Hnd Hf), Hrm.
  - intros pn evs1 ev evs2 i f l r x Hnd B.
    exact (returned_from_race_clean (L := AiSvc_laws pn) _ evs1 ev evs2 i f l r x Hnd).
  - intros pn tn ms evs1 ev evs2 i f l r x Hnd B.
    exact (returned_from_race_clean (L := ReadmeMcp_laws pn tn ms) _
             evs1 ev evs2 i f l r x Hnd).
  - intros pn s i f r fields Hf Hp Hr Hdef Hd Hid Herr.
    destruct (AiSvc_error_then_timer pn s i f r fields Hf Hp Hr Hdef Hd Hid Herr)
      as (H1 & H2 & H3 & H4 & H5 & H6).
    cbn zeta. split_and!; [by eexists|done|by eexists|done].
  - intros pn tn ms s i f r fields Hf Hp Hr Hdef Hd Hid Herr.
    destruct (ReadmeMcp_error_then_timer pn tn ms s i f r fields Hf Hp Hr Hdef Hd Hid Herr)
      as (H1 & H2 & H3 & H4 & H5 & H6).
    cbn zeta. split_and!; [by eexists|done|by eexists|done].
Qed.

Lemma C3_witness :
  registry (ai_run (served_run ++ [Deliver (Js.Object tool_response_fields)]) initSched)
    !! "req-1" = None
  ∧ registry (ai_run (failed_run ++ [SleepElapsed 0]) initSched) !! "req-1" = None
  ∧ registry (ai_run [Call "req-1" example_call; PublishSettled 0 true; SleepElapsed 0]
                initSched) !! "req-1" = None
  ∧ registry (mcp_run [Call "req-1" example_sample; PublishSettled 0 true;
                       Deliver (Js.Object sampling_response_fields); AwaitResumed 0]
                initSched) !! "req-1" = None
  ∧ registry (mcp_run [Call "req-1" example_sample; PublishSettled 0 true; SleepElapsed 0]
                initSched) !! "req-1" = None.
Proof.
  destruct C3_no_record_after_resolution as (Hai & Hmcp & _).
  assert (NoDup ["req-1"]) as Hnd by apply NoDup_singleton.
  split_and!.
  - apply (Hai "ai-pubsub"
             (served_run ++ [Deliver (Js.Object tool_response_fields)]) 0
             (mkFiber "req-1" example_call 0 (Done (Success tool_result))) Hnd eq_refl).
    left. by eexists.
  - apply (Hai "ai-pubsub" (failed_run ++ [SleepElapsed 0]) 0
             (mkFiber "req-1" example_call 0
                (Done (Failure (Parallel
                   (Fail (AiSvc.McpToolError "validate-readme"
                            (Js.String "invalid arguments")))
                   (Fail (AiSvc.McpToolTimeoutError "validate-readme" "req-1" 30000))))))
             Hnd eq_refl).
    right. left. by eexists _, _.
  - apply (Hai "ai-pubsub"
             [Call "req-1" example_call; PublishSettled 0 true; SleepElapsed 0] 0
             (mkFiber "req-1" example_call 0
                (Racing None
                   (Some (Fail (AiSvc.McpToolTimeoutError "validate-readme" "req-1"
                                  30000)))))
             Hnd eq_refl).
    right. right. by eexists _, _.
  - apply (Hmcp "ai-pubsub" "ai-stream" 30000%Z
             [Call "req-1" example_sample; PublishSettled 0 true;
              Deliver (Js.Object sampling_response_fields); AwaitResumed 0] 0
             (mkFiber "req-1" example_sample 0 (Done (Success (Js.String "A summary"))))
             Hnd eq_refl).
    left. by eexists.
  - apply (Hmcp "ai-pubsub" "ai-stream" 30000%Z
             [Call "req-1" example_sample; PublishSettled 0 true; SleepElapsed 0] 0
             (mkFiber "req-1" example_sample 0
                (Racing None
                   (Some (Fail (ReadmeMcp.TimeoutError "sample" 30000
                                  "Sampling request req-1 timed out after 30000ms")))))
             Hnd eq_refl).
    right. right. by eexists _, _.
Defined.

(** ** C4: a publish that fails *)

(** C4 fails on the code.  When the publish promise of a call is rejected
    the call returns the [DaprError] at once, but its record, registered
    before the publish, is in the registry then, and stays there whatever
    happens afterwards (as long as no later call draws the same id). *)
Theorem C4_publish_failure_leaves_record :
  (∀ pubsubName rid input,
     let B := AiSvc.bridge pubsubName in
     let s := run (B := B) [Call rid input; PublishSettled 0 false] initSched in
     phase_of 0 s = Some (Done (Failure (Fail (AiSvc.DaprError "publishEvent"))))
     ∧ registry s !! rid
       = Some (AiSvc.mkPendingRequest 0 (AiSvc.in_now input) (AiSvc.in_toolName input))
     ∧ ∀ evs, rid ∉ call_ids evs → is_Some (registry (run (B := B) evs s) !! rid))
  ∧ (∀ pubsubName topicName timeoutMs rid input,
     let B := ReadmeMcp.bridge pubsubName topicName timeoutMs in
     let s := run (B := B) [Call rid input; PublishSettled 0 false] initSched in
     phase_of 0 s
     = Some (Done (Failure (Fail (ReadmeMcp.DaprError "publishEvent"
          ("Failed to publish event to " +:+ pubsubName +:+ "/" +:+ topicName)))))
     ∧ registry s !! rid = Some (ReadmeMcp.mkPendingRequest 0 (ReadmeMcp.in_now input))
     ∧ ∀ evs, rid ∉ call_ids evs → is_Some (registry (run (B := B) evs s) !! rid)).
Proof.
  split.
  - intros pn rid input B s. split_and!.
    + done.
    + subst s B. eval_run. apply lookup_insert_eq.
    + intros evs Hfr.
      apply (run_leaked (L := AiSvc_laws pn) _ evs s rid Hfr).
      subst s B. eval_run. split; simpl.
      * rewrite lookup_insert_eq. by eexists.
      * intros [|j] f Hf _; simpl in Hf; simplify_eq. by eexists.
  - intros pn tn ms rid input B s. split_and!.
    + done.
    + subst s B. eval_run. apply lookup_insert_eq.
    + intros evs Hfr.
      apply (run_leaked (L := ReadmeMcp_laws pn tn ms) _ evs s rid Hfr).
      subst s B. eval_run. split; simpl.
      * rewrite lookup_insert_eq. by eexists.
      * intros [|j] f Hf _; simpl in Hf; simplify_eq. by eexists.
Qed.

Lemma C4_witness :
  is_Some (registry (ai_run [Call "req-1" example_call; PublishSettled 0 false;
                             Deliver (Js.Object tool_response_fields);
                             SleepElapsed 0; AwaitResumed 0] initSched) !! "req-1").
Proof.
  apply (proj2 (proj2 (proj1 C4_publish_failure_leaves_record "ai-pubsub" "req-1"
                         example_call))
           [Deliver (Js.Object tool_response_fields); SleepElapsed 0; AwaitResumed 0]).
  vm_compute. apply not_elem_of_nil.
Defined.

(** ** C7: registered, then published *)

(** C7: in every call, what the bridge does up to the publish is, in this
    order: the [Ref.update] that registers the record under the request id,
    then, as the last and only publish, the request carrying that id; the
    record is in the registry when the publish is made; and the rest of
    the call (after the publish, the timeout side, the cleanup) publishes
    nothing. *)
Theorem C7_registered_before_published :
  (∀ pubsubName rid i w,
     let w' := (AiSvc.callTool_begin pubsubName rid i w).2 in
     ∃ pre mid data,
       trace w' = trace w ++ pre ++ OpRegistrySet rid :: mid
                    ++ [OpPublish pubsubName "mcp-tool-requests" data]
       ∧ forallb (λ o, negb (is_publish o)) (pre ++ mid) = true
       ∧ (Js.get data "data" ≫= λ d, Js.get d "requestId") = Some (Js.String rid)
       ∧ pendingRequests w' !! rid
         = Some (AiSvc.mkPendingRequest (length (deferreds w)) (AiSvc.in_now i)
                   (AiSvc.in_toolName i)))
  ∧ (∀ pubsubName topicName rid i w,
     let w' := (ReadmeMcp.sample_begin pubsubName topicName rid i w).2 in
     ∃ pre mid data,
       trace w' = trace w ++ pre ++ OpRegistrySet rid :: mid
                    ++ [OpPublish pubsubName topicName data]
       ∧ forallb (λ o, negb (is_publish o)) (pre ++ mid) = true
       ∧ Js.get data "requestId" = Some (Js.String rid)
       ∧ pendingRequests w' !! rid
         = Some (ReadmeMcp.mkPendingRequest (length (deferreds w)) (ReadmeMcp.in_now i)))
  ∧ (∀ pubsubName rid i ok v w,
     ∃ t1 t2 t3,
       trace (AiSvc.callTool_published pubsubName rid i ok w).2 = trace w ++ t1
       ∧ trace (AiSvc.callTool_timeout rid i w).2 = trace w ++ t2
       ∧ trace (AiSvc.callTool_cleanup rid v w).2 = trace w ++ t3
       ∧ forallb (λ o, negb (is_publish o)) (t1 ++ t2 ++ t3) = true)
  ∧ (∀ pubsubName topicName timeoutMs rid i ok v w,
     ∃ t1 t2 t3,
       trace (ReadmeMcp.sample_published pubsubName topicName rid i ok w).2 = trace w ++ t1
       ∧ trace (ReadmeMcp.sample_timeout timeoutMs rid i w).2 = trace w ++ t2
       ∧ trace (ReadmeMcp.sample_cleanup rid v w).2 = trace w ++ t3
       ∧ forallb (λ o, negb (is_publish o)) (t1 ++ t2 ++ t3) = true).
Proof.
  split_and!; [| |intros pn rid i [] v w; cbn; rewrite <- ?app_assoc;
                   eexists _, [_], [_]; split_and!; try reflexivity;
                   rewrite ?app_nil_r; reflexivity
                 |intros pn tn ms rid i [] v w; cbn; rewrite <- ?app_assoc;
                   eexists _, [_], [_]; split_and!; try reflexivity;
                   rewrite ?app_nil_r; reflexivity].
  - intros pn rid i w. cbn.
    eexists [_], [_], _. rewrite <- !app_assoc. cbn.
    split_and!; [reflexivity|reflexivity|reflexivity|apply lookup_insert_eq].
  - intros pn tn rid i w. cbn.
    eexists [_], [_], _. rewrite <- !app_assoc. cbn.
    split_and!; [reflexivity|reflexivity|reflexivity|apply lookup_insert_eq].
Qed.

(** ** C9: the handlers of the response topics *)

(** Reading a property throws on [undefined] and [null] only. *)
Lemma get_defined (v : Js.value) (k : string) :
  v ≠ Js.Undefined ∧ v ≠ Js.Null → is_Some (Js.get v k).
Proof. intros [Hu Hn]. destruct v; simpl; by eauto. Qed.

(** [handleResponse] answers no HTTP request and, given a value that is
    neither [undefined] nor [null], never fails. *)
Lemma AiSvc_handleResponse_quiet resp key w :
  Js.get resp "requestId" = Some key →
  ∃ t,
    (AiSvc.handleResponse resp w).1 = Success tt
    ∧ trace (AiSvc.handleResponse resp w).2 = trace w ++ t
    ∧ forallb (λ o, negb (is_respond o)) t = true.
Proof.
  intros Hk. assert (∀ k, is_Some (Js.get resp k)) as Hget.
  { intros k. destruct resp; simpl in *; by eauto. }
  destruct (Hget "error") as [e He]. destruct (Hget "result") as [r Hr].
  unfold AiSvc.handleResponse. unfold_eff. rewrite Hk, He, Hr. simpl.
  destruct (Map_get (pendingRequests w) key) as [request|]; simpl.
  - destruct (Js.truthy e); simpl;
      destruct (deferreds w !! AiSvc.deferred request) as [[?|]|]; simpl;
      rewrite <- app_assoc; by eexists.
  - rewrite <- app_assoc; by eexists.
Qed.

Lemma ReadmeMcp_handleResponse_quiet resp key w :
  Js.get resp "requestId" = Some key →
  ∃ t,
    (ReadmeMcp.handleResponse resp w).1 = Success tt
    ∧ trace (ReadmeMcp.handleResponse resp w).2 = trace w ++ t
    ∧ forallb (λ o, negb (is_respond o)) t = true.
Proof.
  intros Hk. assert (∀ k, is_Some (Js.get resp k)) as Hget.
  { intros k. destruct resp; simpl in *; by eauto. }
  destruct (Hget "error") as [e He]. destruct (Hget "content") as [r Hr].
  destruct (Hget "tokensUsed") as [u Hu].
  unfold ReadmeMcp.handleResponse. unfold_eff. rewrite Hk, He, Hr, Hu. simpl.
  destruct (Map_get (pendingRequests w) key) as [request|]; simpl.
  - destruct (Js.truthy e); simpl;
      destruct (deferreds w !! ReadmeMcp.deferred request) as [[?|]|]; simpl;
      rewrite <- app_assoc; by eexists.
  - rewrite <- app_assoc; by eexists.
Qed.

(** C9, as stated, fails: a body that does not pass the schema is answered
    with status 500, after an error-level log line; no 200 is sent. *)
Lemma C9_counterexample :
  CloudEvent.decode true malformed_body = None
  ∧ AiSvc.post_mcp_tool_events example_issue true malformed_body emptyWorld
    = (Success tt,
       mkWorld ∅ []
         [OpLog Info "Received MCP tool response from Dapr pub/sub" Js.Undefined;
          OpLog Debug "Request body: " malformed_body;
          OpLog Error "Error processing MCP tool response: "
            (Js.Object [("_id", Js.String "ParseError");
                        ("message", Js.String (example_issue malformed_body))]);
          OpRespond 500
            (Js.Object [("error", Js.String "Failed to process MCP tool response");
                        ("message", Js.String (example_issue malformed_body))])]).
Proof. split; reflexivity. Qed.

(** C9 (amended): each of the two handlers of a response topic answers a
    body that fails the CloudEvent schema exactly once, with status 500,
    after an error-level log line; the message of the answer is the text
    of the parse error, and [handleResponse] is not run: registry and
    deferreds are as before.  A body that passes the schema, and whose
    [data] is neither [undefined] nor [null] when its type is the response
    type, is answered exactly once, with status 200 and [{success: true}],
    whether or not its type is the response type and whether or not
    [handleResponse] finds a record. *)
Theorem C9_one_answer_per_message :
  (∀ formatIssue exact body w,
     let r := AiSvc.post_mcp_tool_events formatIssue exact body w in
     match CloudEvent.decode exact body with
     | None =>
         r = (Success tt,
              mkWorld (pendingRequests w) (deferreds w)
                (trace w ++
                   [OpLog Info "Received MCP tool response from Dapr pub/sub" Js.Undefined;
                    OpLog Debug "Request body: " body;
                    OpLog Error "Error processing MCP tool response: "
                      (Js.Object [("_id", Js.String "ParseError");
                                  ("message", Js.String (formatIssue body))]);
                    OpRespond 500
                      (Js.Object
                         [("error", Js.String "Failed to process MCP tool response");
                          ("message", Js.String (formatIssue body))])]))
     | Some ev =>
         (CloudEvent.type ev = "mcp.tool.response" →
          CloudEvent.data ev ≠ Js.Undefined ∧ CloudEvent.data ev ≠ Js.Null) →
         r.1 = Success tt
         ∧ ∃ t, trace r.2
                = trace w ++ t ++ [OpRespond 200 (Js.Object [("success", Js.Bool true)])]
                ∧ forallb (λ o, negb (is_respond o)) t = true
     end)
  ∧ (∀ toString formatIssue exact body w,
     let r := ReadmeMcp.post_mcp_events toString formatIssue exact body w in
     match CloudEvent.decode exact body with
     | None =>
         r = (Success tt,
              mkWorld (pendingRequests w) (deferreds w)
                (trace w ++
                   [OpLog Debug "Received MCP event" (Js.Object [("body", body)]);
                    OpLog Error ("Failed to process event: " +:+ formatIssue body)
                      Js.Undefined;
                    OpRespond 500
                      (Js.Object [("error", Js.String "Event processing failed");
                                  ("message", Js.String (formatIssue body))])]))
     | Some ev =>
         (CloudEvent.type ev = "mcp.sampling.response" →
          CloudEvent.data ev ≠ Js.Undefined ∧ CloudEvent.data ev ≠ Js.Null) →
         r.1 = Success tt
         ∧ ∃ t, trace r.2
                = trace w ++ t ++ [OpRespond 200 (Js.Object [("success", Js.Bool true)])]
                ∧ forallb (λ o, negb (is_respond o)) t = true
     end).
Proof.
  split.
  - intros formatIssue exact body w r. subst r. unfold AiSvc.post_mcp_tool_events.
    destruct (CloudEvent.decode exact body) as [ev|] eqn:Hdec.
    + intros Hdata. unfold catchAll, bind at 1 2 3. unfold_eff. simpl.
      destruct (String.eqb_spec (CloudEvent.type ev) "mcp.tool.response") as [Ht|Ht].
      * destruct (get_defined (CloudEvent.data ev) "requestId" (Hdata Ht)) as [key Hk].
        match goal with
        | |- context [AiSvc.handleResponse ?d ?w0] =>
            destruct (AiSvc_handleResponse_quiet d key w0 Hk) as (t & Hx & Ht' & Hq);
            destruct (AiSvc.handleResponse d w0) as [x w']
        end.
        simpl in *. subst x. simpl.
        split; [done|]. rewrite Ht'. eexists (_ :: _ :: t).
        rewrite <- !app_assoc. simpl. split; [reflexivity|done].
      * simpl. split; [done|]. eexists [_; _]. by rewrite <- !app_assoc.
    + unfold_eff. simpl. by rewrite <- !app_assoc.
  - intros toString formatIssue exact body w r. subst r. unfold ReadmeMcp.post_mcp_events.
    destruct (CloudEvent.decode exact body) as [ev|] eqn:Hdec.
    + intros Hdata. unfold catchAll, bind at 1 2 3. unfold_eff. simpl.
      destruct (String.eqb_spec (CloudEvent.type ev) "mcp.sampling.response") as [Ht|Ht].
      * destruct (get_defined (CloudEvent.data ev) "requestId" (Hdata Ht)) as [key Hk].
        match goal with
        | |- context [ReadmeMcp.handleResponse ?d ?w0] =>
            destruct (ReadmeMcp_handleResponse_quiet d key w0 Hk) as (t & Hx & Ht' & Hq);
            destruct (ReadmeMcp.handleResponse d w0) as [x w']
        end.
        simpl in *. subst x. simpl.
        split; [done|]. rewrite Ht'. eexists (_ :: _ :: t).
        rewrite <- !app_assoc. simpl. split; [reflexivity|done].
      * simpl. split; [done|]. eexists [_; _]. by rewrite <- !app_assoc.
    + unfold_eff. simpl. by rewrite <- !app_assoc.
Qed.

Lemma C9_witness :
  (let r := AiSvc.post_mcp_tool_events example_issue true stray_event (world ai_in_flight) in
   r.1 = Success tt
   ∧ ∃ t, trace r.2
          = trace (world ai_in_flight) ++ t
              ++ [OpRespond 200 (Js.Object [("success", Js.Bool true)])]
          ∧ forallb (λ o, negb (is_respond o)) t = true)
  ∧ (let r := ReadmeMcp.post_mcp_events example_text example_issue true
                sampling_response_event (world mcp_in_flight) in
     r.1 = Success tt
     ∧ ∃ t, trace r.2
            = trace (world mcp_in_flight) ++ t
                ++ [OpRespond 200 (Js.Object [("success", Js.Bool true)])]
            ∧ forallb (λ o, negb (is_respond o)) t = true).
Proof.
  split.
  - pose proof (proj1 C9_one_answer_per_message example_issue true stray_event
                  (world ai_in_flight)) as H.
    cbv zeta in H.
    change (CloudEvent.decode true stray_event)
      with (Some (CloudEvent.mk "1.0" "mcp.tool.response" "mcp-srvr" "evt-9" stray_response))
      in H.
    apply H. intros _. split; discriminate.
  - pose proof (proj2 C9_one_answer_per_message example_text example_issue true
                  sampling_response_event (world mcp_in_flight)) as H.
    cbv zeta in H.
    change (CloudEvent.decode true sampling_response_event)
      with (Some (CloudEvent.mk "1.0" "mcp.sampling.response" "ai-svc" "evt-8"
                    (Js.Object sampling_response_fields)))
      in H.
    apply H. intros _. split; discriminate.
Defined.

(** ** C10: the routing of [/ai-events] *)

(** C10, as stated, fails: an event of type ["agent.request"] whose data
    carries a truthy [requestId] is handled as an agent request, not as a
    sampling request. *)
Lemma C10_counterexample :
  (CloudEvent.decode true agent_event_with_requestId
     ≫= λ ev, Js.get (CloudEvent.data ev) "requestId") = Some (Js.String "req-1")
  ∧ Js.truthy (Js.String "req-1") = true
  ∧ AiSvc.post_ai_events "ai-pubsub" example_issue true example_env agent_event_with_requestId emptyWorld
    = (Success tt,
       mkWorld ∅ []
         [OpLog Info "Received AI event from Dapr pub/sub" Js.Undefined;
          OpLog Debug "Request body: " agent_event_with_requestId;
          OpInvoke "MessageHandlerService.handleMessage" [agent_event_with_requestId];
          OpRespond 200
            (Js.Object [("success", Js.Bool true);
                        ("result", Js.Object [("output", Js.String "hello")])])]).
Proof. split_and!; reflexivity. Qed.

(** C10 (amended): for a body that passes the CloudEvent schema,
    (1) type ["agent.request"] goes to the message handler, whatever its
    data holds, and the sampling service is not called; (2) any other
    type, with data that is neither [undefined] nor [null], goes to the
    sampling service when the type is ["sampling.request"] or
    [data.requestId] is truthy, and (3) is answered with status 400
    otherwise. *)
Theorem C10_routing_of_ai_events :
  ∀ pubsubName formatIssue exact env body w ev,
    CloudEvent.decode exact body = Some ev →
    let r := AiSvc.post_ai_events pubsubName formatIssue exact env body w in
    let received :=
      [OpLog Info "Received AI event from Dapr pub/sub" Js.Undefined;
       OpLog Debug "Request body: " body] in
    (CloudEvent.type ev = "agent.request" →
     ∃ t, trace r.2
          = trace w ++ received
              ++ OpInvoke "MessageHandlerService.handleMessage" [body] :: t
          ∧ forallb (λ o, negb (is_invoke o)) t = true)
    ∧ (CloudEvent.type ev ≠ "agent.request" →
       ∀ rid, Js.get (CloudEvent.data ev) "requestId" = Some rid →
         (CloudEvent.type ev = "sampling.request" ∨ Js.truthy rid = true →
          ∃ t, trace r.2
               = trace w ++ received
                   ++ OpLog Info "Processing sampling request"
                        (Js.Object [("requestId", rid)])
                   :: OpInvoke "SamplingService.sample"
                        [rid; field (CloudEvent.data ev) "prompt";
                         field (CloudEvent.data ev) "model";
                         field (CloudEvent.data ev) "temperature";
                         field (CloudEvent.data ev) "maxTokens"]
                   :: t
               ∧ forallb (λ o, negb (is_invoke o)) t = true)
         ∧ (CloudEvent.type ev ≠ "sampling.request" → Js.truthy rid = false →
            r = (Success tt,
                 mkWorld (pendingRequests w) (deferreds w)
                   (trace w ++ received
                      ++ [OpLog Warning "Unknown event type"
                            (Js.Object [("type", Js.String (CloudEvent.type ev))]);
                          OpRespond 400
                            (Js.Object [("error", Js.String "Unknown event type");
                                        ("type", Js.String (CloudEvent.type ev))])])))).
Proof.
  intros pn formatIssue exact env body w ev Hdec r received. subst r received.
  unfold AiSvc.post_ai_events. rewrite Hdec. split.
  - intros Ht. unfold_eff. simpl. rewrite Ht. simpl.
    destruct (AiSvc.handleMessage_exit env) as [res|c]; simpl;
      [|destruct (failureOption c); simpl];
      rewrite <- ?app_assoc; simpl; by eexists.
  - intros Ht rid Hrid.
    assert (∀ k, Js.get (CloudEvent.data ev) k = Some (field (CloudEvent.data ev) k))
      as Hget.
    { intros k. unfold field. destruct (CloudEvent.data ev); simpl in *; by eauto. }
    apply String.eqb_neq in Ht. split.
    + intros Hs. unfold_eff. simpl. rewrite Ht.
      assert ((if String.eqb (CloudEvent.type ev) "sampling.request"
               then Some true else Some (Js.truthy rid)) = Some true) as Hroute.
      { destruct Hs as [-> | ->]; [done | by case_match]. }
      destruct (String.eqb (CloudEvent.type ev) "sampling.request"); simplify_eq;
        rewrite ?Hrid; simpl; rewrite ?Hroute; simpl;
        rewrite !Hget; simpl;
        (destruct (AiSvc.sample_exit env) as [res|c]; simpl;
         [destruct (AiSvc.publish_ok env); simpl
         |destruct (failureOption c); simpl]);
        rewrite <- ?app_assoc; simpl; by eexists.
    + intros Hns Hf. apply String.eqb_neq in Hns.
      unfold_eff. simpl. rewrite Ht, Hns, Hrid. simpl. rewrite Hf. simpl.
      by rewrite <- !app_assoc.
Qed.

Lemma C10_witness :
  ∃ t, trace (AiSvc.post_ai_events "ai-pubsub" example_issue true example_env
                wrapped_sampling_request emptyWorld).2
       = [OpLog Info "Received AI event from Dapr pub/sub" Js.Undefined;
          OpLog Debug "Request body: " wrapped_sampling_request;
          OpLog Info "Processing sampling request"
            (Js.Object [("requestId", Js.String "req-1")]);
          OpInvoke "SamplingService.sample"
            [Js.String "req-1"; Js.String "Summarise the README"; Js.Undefined;
             Js.Undefined; Js.Undefined]] ++ t
       ∧ forallb (λ o, negb (is_invoke o)) t = true.
Proof.
  destruct (C10_routing_of_ai_events "ai-pubsub" example_issue true example_env
              wrapped_sampling_request emptyWorld
              (CloudEvent.mk "1.0" "com.dapr.event.sent" "readme-mcp" "evt-5"
                 (Js.Object [("requestId", Js.String "req-1");
                             ("prompt", Js.String "Summarise the README")]))
              eq_refl) as [_ Hother].
  destruct (Hother ltac:(discriminate) (Js.String "req-1") eq_refl) as [Hsampling _].
  destruct (Hsampling (or_intror eq_refl)) as (t & Ht & Hq).
  exists t. split; [exact Ht | exact Hq].
Defined.

(** ** C8: what a response envelope carries *)




(** ** C5: the timeout *)

Section TimeoutFirst.
Context {R E I : Type} (B : Bridge R E I).

Lemma lookup_alter_phase (fs : list (Fiber E I)) i p j g :
  alter (set_phase p) i fs !! j = Some g →
  ∃ f, fs !! j = Some f ∧ f_requestId g = f_requestId f
       ∧ f_deferred g = f_deferred f.
Proof.
  rewrite list_lookup_alter. case_decide; [subst|naive_solver].
  destruct (fs !! j) as [f|]; simpl; [|done]. intros [= <-]. by exists f.
Qed.

Lemma lookup_alter_phase_inv (fs : list (Fiber E I)) i p j f :
  fs !! j = Some f →
  ∃ g, alter (set_phase p) i fs !! j = Some g
       ∧ f_requestId g = f_requestId f ∧ f_deferred g = f_deferred f.
Proof.
  intros Hf. rewrite list_lookup_alter. case_decide; subst; rewrite Hf; simpl;
    by eexists.
Qed.

Lemma Owned_alter (s s' : Sched R E I) i p :
  fibers s' = alter (set_phase p) i (fibers s) →
  length (cells s') = length (cells s) →
  (∀ rid r, registry s' !! rid = Some r → registry s !! rid = Some r) →
  Owned s → Owned s'.
Proof.
  intros Hfib Hlen Hreg (Hlt & Hinj & Hown). split_and!.
  - intros j g. rewrite Hfib, Hlen.
    intros (f & Hf & _ & ->)%lookup_alter_phase. eauto.
  - intros j k g1 g2. rewrite Hfib.
    intros (f1 & Hf1 & _ & ->)%lookup_alter_phase
           (f2 & Hf2 & _ & ->)%lookup_alter_phase. eauto.
  - intros rid r Hr. destruct (Hown rid r (Hreg _ _ Hr)) as (j & f & Hf & Hrid & Hd).
    destruct (lookup_alter_phase_inv (fibers s) i p j f Hf) as (g & Hg & Hg1 & Hg2).
    exists j, g. rewrite Hfib. split_and!; congruence.
Qed.

Ltac owned_alter :=
  eapply Owned_alter;
  [ eassumption
  | match goal with H : cells _ = _ |- _ => by rewrite H end
  | intros ? ?;
    match goal with H : registry _ = _ |- _ => rewrite H end;
    first [ done | by intros [_ ?]%lookup_delete_Some ]
  | assumption ].

Lemma Step_owned ev (s s' : Sched R E I) : Step B ev s s' → Owned s → Owned s'.
Proof.
  intros HS HO. inversion HS; subst.
  - destruct HO as (Hlt & Hinj & Hown). split_and!.
    + intros j f. rewrite H1, H2, length_app. simpl.
      intros [Hf|[_ Hf]]%lookup_app_Some.
      * apply Hlt in Hf. lia.
      * apply list_lookup_singleton_Some in Hf as [_ <-]. simpl. lia.
    + intros j k f g. rewrite H2.
      intros [Hf|[Hj Hf]]%lookup_app_Some [Hg|[Hk Hg]]%lookup_app_Some Hd.
      * eauto.
      * apply list_lookup_singleton_Some in Hg as [_ <-]. simpl in Hd.
        apply Hlt in Hf. lia.
      * apply list_lookup_singleton_Some in Hf as [_ <-]. simpl in Hd.
        apply Hlt in Hg. lia.
      * apply list_lookup_singleton_Some in Hf as [Hj' _].
        apply list_lookup_singleton_Some in Hg as [Hk' _]. lia.
    + intros rid' r'. rewrite H0, H2.
      intros [[<- <-]|[_ Hr]]%lookup_insert_Some.
      * exists (length (fibers s)), (mkFiber rid i (length (cells s)) Publishing).
        split_and!; [|done|done].
        rewrite lookup_app_r by done. by rewrite Nat.sub_diag.
      * destruct (Hown _ _ Hr) as (j & f & Hf & ? & ?).
        exists j, f. split_and!; [|done|done]. by apply lookup_app_l_Some.
  - destruct HO as (Hlt & Hinj & Hown). split_and!.
    + intros j f. rewrite H1, H2. apply Hlt.
    + intros j k f g. rewrite H2. apply Hinj.
    + intros rid r. rewrite H0, H2. apply Hown.
  - owned_alter.
  - destruct HO as (Hlt & Hinj & Hown). split_and!.
    + intros j f. rewrite H2, H3, length_insert. apply Hlt.
    + intros j k f g. rewrite H3. apply Hinj.
    + intros rid' r'. rewrite H1, H3. apply Hown.
  - owned_alter.
  - owned_alter.
  - owned_alter.
Qed.

Context {L : BridgeLaws B}.

Lemma run_owned evs (s : Sched R E I) : Owned s → Owned (run evs s).
Proof.
  revert s. induction evs as [|ev evs IH]; intros s HO; [done|].
  rewrite run_cons. apply IH. eapply Step_owned; eauto using step_sound.
Qed.

Lemma init_owned : Owned (initSched : Sched R E I).
Proof. split_and!; intros *; simpl; by rewrite ?lookup_nil, ?lookup_empty. Qed.

(** The timeout side of a race whose await side is still running. *)
Lemma step_sleep_first (s : Sched R E I) i f :
  fibers s !! i = Some f → f_phase f = Racing None None →
  ∃ e,
    call_timeout (f_requestId f) (f_input f) (world s)
    = (Failure (Fail e), (call_timeout (f_requestId f) (f_input f) (world s)).2)
    ∧ fibers (step (SleepElapsed i) s)
      = alter (set_phase (Racing None (Some (Fail e)))) i (fibers s)
    ∧ registry (step (SleepElapsed i) s) = delete (f_requestId f) (registry s)
    ∧ cells (step (SleepElapsed i) s) = cells s.
Proof.
  intros Hf Hp. simpl. rewrite Hf.
  destruct f as [rid input d ph]; simpl in *; subst ph.
  destruct (timeout_exit rid input (world s)) as [e Hx].
  pose proof (timeout_registry rid input (world s)) as Hr.
  pose proof (timeout_deferreds rid input (world s)) as Hc.
  destruct (call_timeout rid input (world s)) as [x w]; simpl in *; subst x.
  exists e. by simpl.
Qed.

(** In any run, a call whose timeout elapses while its deferred is still
    pending stays in its race for ever. *)
Lemma timeout_first_never_returns evs i f :
  fibers (run evs initSched) !! i = Some f →
  f_phase f = Racing None None →
  cells (run evs initSched) !! f_deferred f = Some None →
  ∃ e,
    (call_timeout (f_requestId f) (f_input f) (world (run evs initSched))).1
    = Failure (Fail e)
    ∧ ∀ evs',
        phase_of i (run (evs ++ SleepElapsed i :: evs') initSched)
        = Some (Racing None (Some (Fail e))).
Proof.
  intros Hf Hp Hd. set (s := run evs initSched) in *.
  destruct (step_sleep_first s i f Hf Hp) as (e & Hx & Hfib & Hreg & Hc).
  exists e. split; [by rewrite Hx|]. intros evs'.
  destruct (run_owned evs initSched init_owned) as (Hlt & Hinj & Hown). fold s in Hlt, Hinj, Hown.
  destruct (run_stuck B evs' (step (SleepElapsed i) s) i (Fail e) (f_deferred f))
    as ((g & Hg & Hgp & _) & _).
  - split_and!.
    + exists (set_phase (Racing None (Some (Fail e))) f).
      rewrite Hfib, list_lookup_alter_eq, Hf. done.
    + by rewrite Hc.
    + intros rid' r'. rewrite Hreg. intros [Hne Hr]%lookup_delete_Some Heq.
      destruct (Hown _ _ Hr) as (j & g & Hg & Hrid & Hdg).
      assert (j = i) as -> by (eapply Hinj; eauto; congruence).
      congruence.
  - unfold phase_of. rewrite run_app, run_cons. fold s. by rewrite Hg, <- Hgp.
Qed.

End TimeoutFirst.

(** C5 fails on the code.  In any run, when the timeout of a call elapses
    while no response has completed its deferred, the timeout side removes
    the record and fails with the timeout error, which carries the
    operation, the request id and the timeout -- but the call does not
    return it: the race waits for the await side, and nothing that happens
    afterwards brings the call out of the race. *)
Theorem C5_timeout_alone_never_returns :
  (∀ pubsubName evs i f,
     let B := AiSvc.bridge pubsubName in
     let s := run (B := B) evs initSched in
     fibers s !! i = Some f → f_phase f = Racing None None →
     cells s !! f_deferred f = Some None →
     registry (step (B := B) (SleepElapsed i) s) !! f_requestId f = None
     ∧ ∀ evs',
         phase_of i (run (B := B) (evs ++ SleepElapsed i :: evs') initSched)
         = Some (Racing None (Some (Fail
             (AiSvc.McpToolTimeoutError (AiSvc.in_toolName (f_input f))
                (f_requestId f) 30000)))))
  ∧ (∀ pubsubName topicName timeoutMs evs i f,
     let B := ReadmeMcp.bridge pubsubName topicName timeoutMs in
     let s := run (B := B) evs initSched in
     fibers s !! i = Some f → f_phase f = Racing None None →
     cells s !! f_deferred f = Some None →
     registry (step (B := B) (SleepElapsed i) s) !! f_requestId f = None
     ∧ ∀ evs',
         phase_of i (run (B := B) (evs ++ SleepElapsed i :: evs') initSched)
         = Some (Racing None (Some (Fail
             (ReadmeMcp.TimeoutError "sample" timeoutMs
                ("Sampling request " +:+ f_requestId f +:+ " timed out after "
                   +:+ pretty timeoutMs +:+ "ms")))))).
Proof.
  split.
  - intros pn evs i f B s Hf Hp Hd. subst B. split.
    + destruct (step_sleep_first (L := AiSvc_laws pn) _ s i f Hf Hp)
        as (e & _ & _ & Hreg & _).
      rewrite Hreg. apply lookup_delete_eq.
    + destruct (timeout_first_never_returns (L := AiSvc_laws pn) _ evs i f Hf Hp Hd)
        as (e & He & Hstuck).
      simpl in He. by simplify_eq.
  - intros pn tn ms evs i f B s Hf Hp Hd. subst B. split.
    + destruct (step_sleep_first (L := ReadmeMcp_laws pn tn ms) _ s i f Hf Hp)
        as (e & _ & _ & Hreg & _).
      rewrite Hreg. apply lookup_delete_eq.
    + destruct (timeout_first_never_returns (L := ReadmeMcp_laws pn tn ms) _
                  evs i f Hf Hp Hd) as (e & He & Hstuck).
      simpl in He. by simplify_eq.
Qed.

(** A late response does not help: the call is still in its race. *)
Lemma C5_witness :
  registry (ai_run [Call "req-1" example_call; PublishSettled 0 true; SleepElapsed 0]
              initSched) !! "req-1" = None
  ∧ phase_of 0 (ai_run ([Call "req-1" example_call; PublishSettled 0 true]
                          ++ SleepElapsed 0
                          :: [Deliver (Js.Object tool_response_fields); AwaitResumed 0])
                  initSched)
    = Some (Racing None (Some (Fail
        (AiSvc.McpToolTimeoutError "validate-readme" "req-1" 30000)))).
Proof.
  destruct (proj1 C5_timeout_alone_never_returns "ai-pubsub"
              [Call "req-1" example_call; PublishSettled 0 true] 0
              (mkFiber "req-1" example_call 0 (Racing None None)))
    as [Hreg Hstuck]; [by vm_compute | reflexivity | by vm_compute |].
  split; [exact Hreg | apply Hstuck].
Defined.

(** * Beyond the claims *)

(** ** Strings and patterns *)

Section TextFacts.
Import Stdlib.Strings.Ascii.

Lemma str_cons_app x (a b : string) : String x a +:+ b = String x (a +:+ b).
Proof. reflexivity. Qed.

Lemma str_nil_app (b : string) : "" +:+ b = b.
Proof. reflexivity. Qed.

Lemma str_app_assoc (a b c : string) : (a +:+ b) +:+ c = a +:+ b +:+ c.
Proof.
  induction a as [|x a IH]; [done|].
  by rewrite !str_cons_app, IH.
Qed.

Lemma str_app_nil_r (a : string) : a +:+ "" = a.
Proof. induction a as [|x a IH]; [done|]. by rewrite str_cons_app, IH. Qed.

Lemma same_refl ci p : Text.same ci p p = true.
Proof. unfold Text.same. destruct ci; apply Ascii.eqb_refl. Qed.

Lemma lit_cons ci p pat k c s :
  Text.lit ci (String p pat) k (String c s)
  = Text.same ci p c && Text.lit ci pat k s.
Proof. reflexivity. Qed.

Lemma lit_app ci p k s : Text.lit ci p k (p +:+ s) = k s.
Proof.
  induction p as [|x p IH]; [done|].
  rewrite str_cons_app. simpl. by rewrite same_refl, IH.
Qed.

Lemma lit_prefix ci p q s :
  Text.lit ci (p +:+ q) Text.accept s = true → Text.lit ci p Text.accept s = true.
Proof.
  revert s. induction p as [|x p IH]; intros s; [done|].
  rewrite str_cons_app. simpl.
  destruct s as [|c s]; [done|].
  intros [? ?]%andb_true_iff. apply andb_true_iff. eauto.
Qed.

Lemma search_cons m c s :
  Text.search m (String c s) = m (String c s) || Text.search m s.
Proof. reflexivity. Qed.

Lemma search_here m s : m s = true → Text.search m s = true.
Proof. intros H. destruct s; simpl; by rewrite H. Qed.

Lemma search_app m a s : Text.search m s = true → Text.search m (a +:+ s) = true.
Proof.
  intros H. induction a as [|x a IH]; [done|].
  rewrite str_cons_app. simpl. rewrite IH. apply orb_true_r.
Qed.

Lemma search_spec m s :
  Text.search m s = true ↔ ∃ a t, s = a +:+ t ∧ m t = true.
Proof.
  split.
  - induction s as [|c s IH]; simpl.
    + rewrite orb_false_r. intros H. by exists "", "".
    + intros [H|H]%orb_true_iff.
      * by exists "", (String c s).
      * destruct (IH H) as (a & t & -> & Ht). by exists (String c a), t.
  - intros (a & t & -> & H). by apply search_app, search_here.
Qed.

Lemma search_mono (m1 m2 : string → bool) s :
  (∀ t, m1 t = true → Text.search m2 t = true) →
  Text.search m1 s = true → Text.search m2 s = true.
Proof.
  intros Hm (a & t & -> & H)%search_spec. by apply search_app, Hm.
Qed.

(** A pattern that occurs in the text is found, whatever surrounds it. *)
Lemma sectionRegex_intro (section a b : string) :
  ReadmeValidator.sectionRegex section (a +:+ section +:+ b) = true.
Proof.
  unfold ReadmeValidator.sectionRegex. apply search_app, search_here.
  by rewrite lit_app.
Qed.

(** [trim] *)
Lemma trimStart_nil_iff s : Text.trimStart s = "" ↔ Text.all_space s = true.
Proof.
  induction s as [|c s IH]; simpl; [done|].
  destruct (Text.is_space c); simpl; [done|]. split; done.
Qed.

Lemma all_space_trimStart s : Text.all_space (Text.trimStart s) = Text.all_space s.
Proof.
  induction s as [|c s IH]; simpl; [done|].
  destruct (Text.is_space c) eqn:Hc; simpl; [done|]. by rewrite Hc.
Qed.

Lemma all_space_rev_app s t :
  Text.all_space (String.rev_app s t) = Text.all_space s && Text.all_space t.
Proof.
  revert t. induction s as [|c s IH]; intros t; simpl; [done|].
  rewrite IH. simpl. destruct (Text.is_space c), (Text.all_space s); simpl; done.
Qed.

Lemma all_space_rev s : Text.all_space (String.rev s) = Text.all_space s.
Proof. unfold String.rev. rewrite all_space_rev_app. simpl. apply andb_true_r. Qed.

Lemma length_rev_app s t :
  String.length (String.rev_app s t) = (String.length s + String.length t)%nat.
Proof.
  revert t. induction s as [|c s IH]; intros t; simpl; [done|].
  rewrite IH. simpl. lia.
Qed.

Lemma length_zero_iff (s : string) : String.length s = 0%nat ↔ s = "".
Proof. destruct s; simpl; split; done. Qed.

Lemma trim_empty_iff s :
  (String.length (Text.trim s) =? 0)%nat = Text.all_space s.
Proof.
  apply eq_true_iff_eq. rewrite Nat.eqb_eq.
  unfold Text.trim, String.rev at 1. rewrite length_rev_app. simpl.
  rewrite Nat.add_0_r, length_zero_iff, trimStart_nil_iff, all_space_rev,
    all_space_trimStart. done.
Qed.

Lemma empty_all_space s : ReadmeValidator.empty s = Text.all_space s.
Proof.
  unfold ReadmeValidator.empty. rewrite trim_empty_iff.
  destruct s; simpl; [done|]. done.
Qed.

End TextFacts.

(** ** The validator *)

Lemma filter_all {A} (f : A → bool) (l : list A) :
  (∀ x, In x l → f x = true) → List.filter f l = l.
Proof.
  induction l as [|x l IH]; simpl; intros H; [done|].
  rewrite (H x) by auto. f_equal. apply IH. auto.
Qed.

Lemma filter_none {A} (f : A → bool) (l : list A) :
  (∀ x, In x l → f x = false) → List.filter f l = [].
Proof.
  induction l as [|x l IH]; simpl; intros H; [done|].
  rewrite (H x) by auto. apply IH. auto.
Qed.

Lemma filter_length_le {A} (f : A → bool) (l : list A) :
  length (List.filter f l) ≤ length l.
Proof. induction l as [|x l IH]; simpl; [done|]. destruct (f x); simpl; lia. Qed.

Lemma filter_length_full {A} (f : A → bool) (l : list A) :
  length (List.filter f l) = length l ↔ forallb f l = true.
Proof.
  induction l as [|x l IH]; simpl; [done|].
  pose proof (filter_length_le f l).
  destruct (f x); simpl; [rewrite <-IH; lia|]. split; [lia|done].
Qed.

Lemma filter_split_perm {A} (f : A → bool) (l : list A) :
  List.filter (λ x, negb (f x)) l ++ List.filter f l ≡ₚ l.
Proof.
  induction l as [|x l IH]; simpl; [done|].
  destruct (f x); simpl; [|by rewrite IH].
  by rewrite <-Permutation_middle, IH.
Qed.

Ltac run_validator :=
  unfold ReadmeValidator.validate, ReadmeValidator.checkCompleteness, bind, logDebug,
    logInfo, emit, succeed;
  cbn [fst snd trace pendingRequests deferreds].

Section ValidatorFacts.
Import ReadmeValidator.
Context {R E : Type}.

(** Every section name contains the title marker, and only the
    recommended ones contain a recommended name. *)
Lemma counted_as_required (l : list string) :
  (∀ s, In s l → In s (REQUIRED_SECTIONS ++ RECOMMENDED_SECTIONS)) →
  List.filter (λ s, existsb (λ req, Text.includes req s) REQUIRED_SECTIONS) l = l.
Proof.
  intros Hl. apply filter_all. intros s Hs. apply Hl in Hs.
  simpl in Hs. intuition (subst; reflexivity).
Qed.

Lemma counted_as_recommended (f : string → bool) :
  List.filter (λ s, existsb (λ rec, Text.includes rec s) RECOMMENDED_SECTIONS)
    (List.filter f REQUIRED_SECTIONS ++ List.filter f RECOMMENDED_SECTIONS)
  = List.filter f RECOMMENDED_SECTIONS.
Proof.
  rewrite List.filter_app. rewrite filter_none, filter_all; [done|..].
  - intros s [Hs _]%filter_In. simpl in Hs. intuition (subst; reflexivity).
  - intros s [Hs _]%filter_In. simpl in Hs. intuition (subst; reflexivity).
Qed.

Lemma validate_score_eq (content : string) (strictMode : Js.value) (w : World R E) :
  Text.all_space content = false →
  ∃ res w', validate content strictMode w = (Success res, w') ∧
    presentSections res =
      List.filter (λ s, sectionRegex s content) REQUIRED_SECTIONS
      ++ List.filter (λ s, sectionRegex s content) RECOMMENDED_SECTIONS ∧
    score res =
      weighted (length (presentSections res)) 4
        (length (List.filter (λ s, sectionRegex s content) RECOMMENDED_SECTIONS)) 6.
Proof.
  intros Hne. run_validator. rewrite empty_all_space, Hne.
  eexists _, _. split; [reflexivity|]. cbn [score presentSections].
  split; [done|].
  rewrite counted_as_recommended, counted_as_required; [done|].
  intros s [[H _]%filter_In|[H _]%filter_In]%in_app_iff; apply in_app_iff; auto.
Qed.

Lemma validate_verdict_eq (content : string) (strictMode : Js.value) (w : World R E) :
  ∃ res w', validate content strictMode w = (Success res, w') ∧
    valid res = negb (Text.all_space content)
                && forallb (λ s, sectionRegex s content) REQUIRED_SECTIONS
                && titleRegex content.
Proof.
  run_validator. rewrite empty_all_space.
  destruct (Text.all_space content); [by eexists _, _|].
  eexists _, _. split; [reflexivity|]. cbn [valid].
  generalize (Js.truthy match strictMode with Js.Undefined => Js.Bool false | _ => strictMode end).
  intros strict. generalize (titleRegex content). intros t.
  cbv [REQUIRED_SECTIONS List.filter List.app map forallb].
  generalize (sectionRegex "# " content); intros b1.
  generalize (sectionRegex "## Description" content); intros b2.
  generalize (sectionRegex "## Installation" content); intros b3.
  generalize (sectionRegex "## Usage" content); intros b4.
  clear.
  destruct strict, t, b1, b2, b3, b4; reflexivity.
Qed.

(** X15: the verdict of [validate] does not depend on [strictMode]: a
    README is valid exactly when it is not blank, each of the four
    required sections is found in it and it has a title line.  Strict
    mode only changes the severity recorded with a missing required
    section. *)
Theorem X15_validate_verdict (content : string) (strictMode : Js.value) (w : World R E) :
  ∃ res w', validate content strictMode w = (Success res, w') ∧
    valid res = negb (Text.all_space content)
                && forallb (λ s, sectionRegex s content) REQUIRED_SECTIONS
                && titleRegex content.
Proof. apply validate_verdict_eq. Qed.

(** X16: for a README that is not blank, the score of [validate] is
    [Math.round(17.5 * p + 5 * q)], where [p] counts every section found,
    required or recommended, and [q] the recommended ones found: every
    section name contains the title marker ["# "], so the filter that
    should count the required sections counts them all.  The score lies
    between 0 and 205, and is above 100 as soon as the four required and
    two recommended sections are found. *)
Theorem X16_validate_score (content : string) (strictMode : Js.value) (w : World R E) :
  Text.all_space content = false →
  ∃ res w', validate content strictMode w = (Success res, w') ∧
    let recommended :=
      List.filter (λ s, sectionRegex s content) RECOMMENDED_SECTIONS in
    score res = Math_round ((35 * Z.of_nat (length (presentSections res))
                             + 10 * Z.of_nat (length recommended)) # 2)
    ∧ (0 ≤ score res ≤ 205)%Z
    ∧ (forallb (λ s, sectionRegex s content) REQUIRED_SECTIONS = true →
       2 ≤ length recommended → (100 < score res)%Z).
Proof.
  intros Hne.
  destruct (validate_score_eq content strictMode w Hne) as (res & w' & -> & Hp & Hs).
  exists res, w'. split; [done|]. cbn zeta.
  rewrite Hs, Hp, length_app. clear Hs Hp.
  pose proof (filter_length_le (λ s, sectionRegex s content) REQUIRED_SECTIONS) as Ha.
  pose proof (filter_length_le (λ s, sectionRegex s content) RECOMMENDED_SECTIONS) as Hq.
  pose proof (filter_length_full (λ s, sectionRegex s content) REQUIRED_SECTIONS) as Hfull.
  revert Ha Hq Hfull.
  generalize (length (List.filter (λ s, sectionRegex s content) REQUIRED_SECTIONS)).
  generalize (length (List.filter (λ s, sectionRegex s content) RECOMMENDED_SECTIONS)).
  generalize (forallb (λ s, sectionRegex s content) REQUIRED_SECTIONS).
  change (length REQUIRED_SECTIONS) with 4. change (length RECOMMENDED_SECTIONS) with 6.
  intros all q a Ha Hq Hfull.
  assert (a = 0 ∨ a = 1 ∨ a = 2 ∨ a = 3 ∨ a = 4) as Hac by lia.
  assert (q = 0 ∨ q = 1 ∨ q = 2 ∨ q = 3 ∨ q = 4 ∨ q = 5 ∨ q = 6) as Hqc by lia.
  split_and!.
  - destruct Hac as [->|[->|[->|[->| ->]]]];
      destruct Hqc as [->|[->|[->|[->|[->|[->| ->]]]]]]; reflexivity.
  - destruct Hac as [->|[->|[->|[->| ->]]]];
      destruct Hqc as [->|[->|[->|[->|[->|[->| ->]]]]]]; vm_compute; discriminate.
  - destruct Hac as [->|[->|[->|[->| ->]]]];
      destruct Hqc as [->|[->|[->|[->|[->|[->| ->]]]]]]; vm_compute; discriminate.
  - intros Hall Hq2. apply Hfull in Hall. subst a.
    destruct Hqc as [->|[->|[->|[->|[->|[->| ->]]]]]]; try lia; reflexivity.
Qed.

End ValidatorFacts.

Section ValidatorSections.
Import ReadmeValidator.
Context {R E : Type}.

(** A section name other than the title marker starts with [#] followed
    by the marker. *)
Lemma section_has_marker (s content : string) :
  s ∈ REQUIRED_SECTIONS ++ RECOMMENDED_SECTIONS →
  sectionRegex s content = true → sectionRegex "# " content = true.
Proof.
  intros Hs. unfold sectionRegex.
  assert (s = "# " ∨ ∃ rest, s = "#" +:+ "# " +:+ rest) as [->|[rest ->]].
  { apply list_elem_of_In in Hs. simpl in Hs.
    destruct Hs as [<-|Hs]; [by left|]. right.
    repeat (destruct Hs as [<-|Hs]; [by eexists|]). done. }
  { done. }
  apply search_mono. intros t Ht.
  rewrite str_cons_app, str_nil_app in Ht.
  destruct t as [|c t]; [done|]. rewrite lit_cons in Ht.
  apply andb_true_iff in Ht as [_ Ht].
  apply lit_prefix in Ht.
  rewrite search_cons, (search_here _ _ Ht). apply orb_true_r.
Qed.

(** X17: [validate] reports each of the ten sections exactly once: the
    missing and the present sections together are a permutation of the
    required and recommended ones, a section is present exactly when the
    README is not blank and the pattern of its name matches it, and a
    blank README has score 0 and is invalid. *)
Theorem X17_validate_sections (content : string) (strictMode : Js.value) (w : World R E) :
  ∃ res w', validate content strictMode w = (Success res, w') ∧
    missingSections res ++ presentSections res
      ≡ₚ REQUIRED_SECTIONS ++ RECOMMENDED_SECTIONS ∧
    (∀ s, s ∈ presentSections res ↔
          s ∈ REQUIRED_SECTIONS ++ RECOMMENDED_SECTIONS
          ∧ sectionRegex s content = true ∧ Text.all_space content = false) ∧
    (Text.all_space content = true → score res = 0%Z ∧ valid res = false).
Proof.
  run_validator. rewrite empty_all_space.
  destruct (Text.all_space content).
  - eexists _, _. split; [reflexivity|]. cbn [missingSections presentSections score valid].
    split_and!; [by rewrite app_nil_r| |done].
    intros s. rewrite elem_of_nil. naive_solver.
  - eexists _, _. split; [reflexivity|]. cbn [missingSections presentSections score valid].
    split_and!; [| |done].
    + set (f := λ s, sectionRegex s content).
      etrans; [|apply Permutation_app; apply (filter_split_perm f)].
      rewrite <-!(assoc_L (++)). apply Permutation_app_head.
      rewrite !(assoc_L (++)). apply Permutation_app_tail, Permutation_app_comm.
    + intros s. rewrite !elem_of_app, !list_elem_of_In, !filter_In. naive_solver.
Qed.

(** X18: the required section ["# "] is reported missing only when no
    section at all is found: every other section name contains it, so
    any heading makes it present, and a README with sections but without
    a first-level title is caught by the title check alone. *)
Theorem X18_validate_title_marker (content : string) (strictMode : Js.value) (w : World R E) :
  ∃ res w', validate content strictMode w = (Success res, w') ∧
    ("# " ∈ missingSections res → presentSections res = []) ∧
    (presentSections res ≠ [] → "# " ∈ presentSections res).
Proof.
  run_validator. destruct (empty content).
  { eexists _, _. split; [reflexivity|]. done. }
  eexists _, _. split; [reflexivity|]. cbn [missingSections presentSections].
  destruct (sectionRegex "# " content) eqn:Hm.
  - split.
    + rewrite elem_of_app, !list_elem_of_In, !filter_In, Hm. naive_solver.
    + intros _. simpl. rewrite Hm. apply list_elem_of_here.
  - assert (∀ s, s ∈ REQUIRED_SECTIONS ++ RECOMMENDED_SECTIONS →
                 sectionRegex s content = false) as Hnone.
    { intros s Hs. destruct (sectionRegex s content) eqn:Hp; [|done].
      apply (section_has_marker _ _ Hs) in Hp. congruence. }
    rewrite !(filter_none (λ s, sectionRegex s content)); [done|..].
    + intros s Hs. apply Hnone, elem_of_app. right. by apply list_elem_of_In.
    + intros s Hs. apply Hnone, elem_of_app. left. by apply list_elem_of_In.
Qed.

(** X19: the overall score of [checkCompleteness] lies between 0 and
    100 and is 100 exactly when all ten sections are found; the
    recommendation ["README meets all standards!"] is given in exactly
    that case (also beside a recommendation to add code examples or
    links), and the list of recommendations is never empty. *)
Theorem X19_checkCompleteness_score (content : string) (w : World R E) :
  ∃ res w', checkCompleteness content w = (Success res, w') ∧
    let all := forallb (λ s, sectionRegex s content)
                 (REQUIRED_SECTIONS ++ RECOMMENDED_SECTIONS) in
    (0 ≤ overallScore res ≤ 100)%Z ∧
    (overallScore res = 100%Z ↔ all = true) ∧
    ("README meets all standards!" ∈ recommendations res ↔ all = true) ∧
    recommendations res ≠ [].
Proof.
  run_validator. eexists _, _. split; [reflexivity|].
  cbn [overallScore recommendations]. cbn zeta.
  set (f := λ s, sectionRegex s content).
  set (g := λ s, negb (sectionRegex s content)).
  rewrite forallb_app.
  pose proof (filter_length_le f REQUIRED_SECTIONS) as Ha.
  pose proof (filter_length_le f RECOMMENDED_SECTIONS) as Hq.
  pose proof (filter_length_full f REQUIRED_SECTIONS) as Hfa.
  pose proof (filter_length_full f RECOMMENDED_SECTIONS) as Hfq.
  pose proof (filter_split_perm f REQUIRED_SECTIONS) as Hpa.
  pose proof (filter_split_perm f RECOMMENDED_SECTIONS) as Hpq.
  apply Permutation_length in Hpa, Hpq. rewrite length_app in Hpa, Hpq.
  change (λ x, negb (f x)) with g in Hpa, Hpq.
  revert Ha Hq Hfa Hfq Hpa Hpq.
  generalize (List.filter g REQUIRED_SECTIONS). intros ma.
  generalize (List.filter g RECOMMENDED_SECTIONS). intros mq.
  generalize (length (List.filter f REQUIRED_SECTIONS)).
  generalize (length (List.filter f RECOMMENDED_SECTIONS)).
  generalize (forallb f REQUIRED_SECTIONS).
  generalize (forallb f RECOMMENDED_SECTIONS).
  change (length REQUIRED_SECTIONS) with 4. change (length RECOMMENDED_SECTIONS) with 6.
  intros allq alla q a Ha Hq Hfa Hfq Hpa Hpq.
  assert (alla && allq = true ↔ a = 4 ∧ q = 6) as ->.
  { rewrite andb_true_iff, <-Hfa, <-Hfq. done. }
  assert (a = 0 ∨ a = 1 ∨ a = 2 ∨ a = 3 ∨ a = 4) as Hac by lia.
  assert (q = 0 ∨ q = 1 ∨ q = 2 ∨ q = 3 ∨ q = 4 ∨ q = 5 ∨ q = 6) as Hqc by lia.
  assert (weighted a 4 q 6 = 100%Z ↔ a = 4 ∧ q = 6) as Hw.
  { destruct Hac as [->|[->|[->|[->| ->]]]];
      destruct Hqc as [->|[->|[->|[->|[->|[->| ->]]]]]];
      vm_compute; split; intros H; try discriminate H; try lia; done. }
  split_and!.
  - destruct Hac as [->|[->|[->|[->| ->]]]];
      destruct Hqc as [->|[->|[->|[->|[->|[->| ->]]]]]]; vm_compute; discriminate.
  - destruct Hac as [->|[->|[->|[->| ->]]]];
      destruct Hqc as [->|[->|[->|[->|[->|[->| ->]]]]]]; vm_compute; discriminate.
  - done.
  - rewrite <-Hw, !elem_of_app.
    assert (∀ (c : bool) (x : string),
              x ≠ "README meets all standards!" →
              "README meets all standards!" ∈ (if c then [x] else []) ↔ False) as Hno.
    { intros [] x Hx; rewrite ?elem_of_nil, ?list_elem_of_singleton; naive_solver. }
    assert (∀ (c : bool) (x : string),
              x ≠ "README meets all standards!" →
              "README meets all standards!" ∈ (if c then [] else [x]) ↔ False) as Hno'.
    { intros [] x Hx; rewrite ?elem_of_nil, ?list_elem_of_singleton; naive_solver. }
    rewrite !Hno, !Hno' by (rewrite ?str_cons_app; discriminate).
    destruct (weighted a 4 q 6 =? 100)%Z eqn:Hs.
    + apply Z.eqb_eq in Hs. rewrite list_elem_of_singleton. naive_solver.
    + apply Z.eqb_neq in Hs. rewrite elem_of_nil. naive_solver.
  - destruct (0 <? length ma)%nat eqn:H1; [done|].
    destruct (0 <? length mq)%nat eqn:H2; [simpl; by destruct (codeBlockRegex content), (linkRegex content)|].
    apply Nat.ltb_ge in H1, H2.
    assert (weighted a 4 q 6 = 100%Z) as -> by (apply Hw; lia).
    simpl. by destruct (codeBlockRegex content), (linkRegex content).
Qed.

(** X20: the two scores of the same README differ: the score of
    [validate] is never below the overall score of [checkCompleteness],
    and the two agree exactly when no recommended section is found. *)
Theorem X20_validate_score_above_completeness (content : string) (strictMode : Js.value)
    (w w0 : World R E) :
  Text.all_space content = false →
  ∃ v c w' w0',
    validate content strictMode w = (Success v, w') ∧
    checkCompleteness content w0 = (Success c, w0') ∧
    (overallScore c ≤ score v)%Z ∧
    (overallScore c = score v ↔ present (optionalSections c) = []).
Proof.
  intros Hne.
  destruct (validate_score_eq content strictMode w Hne) as (v & w' & -> & Hp & Hs).
  exists v. run_validator. eexists _, _, _. split_and!; [done..| |];
    cbn [overallScore optionalSections present]; rewrite Hs, Hp, length_app; clear Hs Hp.
  all: set (f := λ s, sectionRegex s content).
  all: pose proof (filter_length_le f REQUIRED_SECTIONS) as Ha.
  all: pose proof (filter_length_le f RECOMMENDED_SECTIONS) as Hq.
  all: try rewrite <-(length_zero_iff_nil (List.filter f RECOMMENDED_SECTIONS)).
  all: revert Ha Hq.
  all: generalize (length (List.filter f REQUIRED_SECTIONS)).
  all: generalize (length (List.filter f RECOMMENDED_SECTIONS)).
  all: change (length REQUIRED_SECTIONS) with 4; change (length RECOMMENDED_SECTIONS) with 6.
  all: intros q a Ha Hq.
  all: assert (a = 0 ∨ a = 1 ∨ a = 2 ∨ a = 3 ∨ a = 4) as Hac by lia.
  all: assert (q = 0 ∨ q = 1 ∨ q = 2 ∨ q = 3 ∨ q = 4 ∨ q = 5 ∨ q = 6) as Hqc by lia.
  - destruct Hac as [->|[->|[->|[->| ->]]]];
      destruct Hqc as [->|[->|[->|[->|[->|[->| ->]]]]]]; vm_compute; discriminate.
  - destruct Hac as [->|[->|[->|[->| ->]]]];
      destruct Hqc as [->|[->|[->|[->|[->|[->| ->]]]]]];
      vm_compute; split; intros H; try discriminate H; done.
Qed.

End ValidatorSections.

(** ** The generator, and the validator on what it generates *)

Lemma concat_elem (sep x : string) (l : list string) :
  In x l → ∃ a b, String.concat sep l = a +:+ x +:+ b.
Proof.
  induction l as [|y l IH]; simpl; [done|].
  intros [->|Hx].
  - destruct l; [exists "", ""; by rewrite str_app_nil_r|].
    exists "". by eexists.
  - destruct (IH Hx) as (a & b & Heq).
    destruct l as [|z l]; [done|].
    exists (y +:+ sep +:+ a), b. by rewrite Heq, !str_app_assoc.
Qed.

Lemma terminator_is_space c : Text.is_space c = false → Text.dot c = true.
Proof. destruct c as [[] [] [] [] [] [] [] []]; vm_compute; congruence. Qed.

(** After a [#] and a space, a text that is not blank gives [\s+.+] its
    match. *)
Lemma title_of_name (name rest : string) :
  Text.all_space name = false →
  Text.plus Text.dot Text.accept (name +:+ rest)
  || Text.plus Text.is_space (Text.plus Text.dot Text.accept) (name +:+ rest) = true.
Proof.
  induction name as [|c name IH]; [done|].
  rewrite str_cons_app. cbn [Text.all_space Text.plus].
  destruct (Text.is_space c) eqn:Hc; cbn [andb].
  - intros H. rewrite (IH H). apply orb_true_r.
  - intros _. by rewrite (terminator_is_space _ Hc).
Qed.

Section GeneratorFacts.
Import ReadmeValidator ReadmeGenerator.
Context {R R' E' : Type}.

Ltac run_generator :=
  unfold generate, bind, logDebug, logInfo, emit, succeed, fail;
  cbn [fst snd trace pendingRequests deferreds].

Lemma generate_exit (input : GenerateReadmeInput) (w : World R Error) :
  (generate input w).1 =
    if Text.all_space (name input)
    then Failure (Fail (GenerationError "Error: Project name is required"))
    else if Text.all_space (description input)
    then Failure (Fail (GenerationError "Error: Project description is required"))
    else Success (generateReadmeTemplate input).
Proof.
  run_generator. rewrite !empty_all_space.
  by destruct (Text.all_space (name input)), (Text.all_space (description input)).
Qed.

Lemma template_shape (input : GenerateReadmeInput) :
  ∃ rest, generateReadmeTemplate input = "# " +:+ name input +:+ rest.
Proof.
  unfold generateReadmeTemplate. cbn [app String.concat].
  eexists. by rewrite str_app_assoc.
Qed.

Lemma template_sections (input : GenerateReadmeInput) (s : string) :
  s ∈ ["## Installation"; "## Usage"; "## Contributing"; "## License"] →
  ∃ a b, generateReadmeTemplate input = a +:+ s +:+ b.
Proof.
  intros Hs. apply concat_elem.
  rewrite !in_app_iff. apply list_elem_of_In in Hs. cbn [In] in *.
  intuition.
Qed.

(** X22: [generate] fails, with a [GenerationError], exactly when the
    name or the description is empty or white space only (the name is
    checked first); otherwise it returns the filled template. *)
Theorem X22_generate_requires_name_and_description (input : GenerateReadmeInput)
    (w : World R Error) :
  (generate input w).1 =
    if Text.all_space (name input)
    then Failure (Fail (GenerationError "Error: Project name is required"))
    else if Text.all_space (description input)
    then Failure (Fail (GenerationError "Error: Project description is required"))
    else Success (generateReadmeTemplate input).
Proof. apply generate_exit. Qed.

(** X21: [validate] on a README that [generate] returned: the title
    marker and the sections Installation, Usage, Contributing and License
    are found, the title check passes and the score is at least 98; the
    README is valid exactly when the pattern of ["## Description"]
    matches it (that of [example_readme_input] is not: the template
    writes the description without a heading). *)
Theorem X21_generated_readme_validated (input : GenerateReadmeInput)
    (strictMode : Js.value) (w : World R Error) (w0 : World R' E')
    (readme : string) :
  (generate input w).1 = Success readme →
  ∃ res w0', validate readme strictMode w0 = (Success res, w0') ∧
    (∀ s, s ∈ ["# "; "## Installation"; "## Usage"; "## Contributing"; "## License"] →
          s ∈ presentSections res) ∧
    titleRegex readme = true ∧
    valid res = sectionRegex "## Description" readme ∧
    (98 ≤ score res)%Z.
Proof.
  rewrite generate_exit.
  destruct (Text.all_space (name input)) eqn:Hname; [done|].
  destruct (Text.all_space (description input)); [done|].
  intros [= <-].
  destruct (template_shape input) as [rest Hshape].
  assert (Text.all_space (generateReadmeTemplate input) = false) as Hne.
  { by rewrite Hshape. }
  assert (titleRegex (generateReadmeTemplate input) = true) as Htitle.
  { rewrite Hshape. unfold titleRegex, Text.search_lines.
    apply orb_true_iff. left.
    rewrite !str_cons_app, str_nil_app, !lit_cons. cbn [Text.lit Text.plus].
    rewrite (title_of_name _ _ Hname). done. }
  assert (∀ s, s ∈ ["# "; "## Installation"; "## Usage"; "## Contributing"; "## License"] →
               sectionRegex s (generateReadmeTemplate input) = true) as Hin.
  { intros s [->|Hs]%elem_of_cons.
    - rewrite Hshape. apply (sectionRegex_intro "# " "").
    - destruct (template_sections input s Hs) as (a & b & ->).
      apply sectionRegex_intro. }
  pose proof (Hin "# " ltac:(rewrite !elem_of_cons; auto 10)) as H1.
  pose proof (Hin "## Installation" ltac:(rewrite !elem_of_cons; auto 10)) as H2.
  pose proof (Hin "## Usage" ltac:(rewrite !elem_of_cons; auto 10)) as H3.
  pose proof (Hin "## Contributing" ltac:(rewrite !elem_of_cons; auto 10)) as H4.
  pose proof (Hin "## License" ltac:(rewrite !elem_of_cons; auto 10)) as H5.
  destruct (validate_score_eq (generateReadmeTemplate input) strictMode w0 Hne)
    as (res & w0' & Hres & Hp & Hs).
  destruct (validate_verdict_eq (generateReadmeTemplate input) strictMode w0)
    as (res' & w0'' & Hres' & Hv).
  rewrite Hres in Hres'. injection Hres' as <- <-.
  exists res, w0'. split; [done|]. split_and!.
  - intros s Hs'. rewrite Hp. pose proof (Hin s Hs') as Hs''.
    rewrite elem_of_app, !list_elem_of_In, !filter_In.
    apply list_elem_of_In in Hs'. cbn [In] in *. cbn [REQUIRED_SECTIONS RECOMMENDED_SECTIONS In].
    intuition (subst; auto 10).
  - done.
  - rewrite Hv, Hne, Htitle. cbn [REQUIRED_SECTIONS forallb negb andb].
    rewrite H1, H2, H3. cbn [andb]. by rewrite !andb_true_r.
  - rewrite Hs, Hp, length_app.
    cbn [REQUIRED_SECTIONS RECOMMENDED_SECTIONS List.filter].
    rewrite H1, H2, H3, H4, H5.
    destruct (sectionRegex "## Description" _), (sectionRegex "## Features" _),
      (sectionRegex "## Configuration" _), (sectionRegex "## Testing" _),
      (sectionRegex "## Documentation" _); vm_compute; discriminate.
Qed.

End GeneratorFacts.

(** ** readme-mcp: the tool requests *)

Section ToolServerFacts.
Variables (pubsubName : string) (toString formatIssue : Js.value → string).

(** [ToolServer.routeToTool] exits as the service of the tool does and does nothing
    but call it. *)
Lemma routeToTool_run (env : ToolServer.Env) (toolName args : Js.value) :
  ∃ x ops,
    (∀ w, ToolServer.routeToTool toString env toolName args w
          = (x, mkWorld (pendingRequests w) (deferreds w) (trace w ++ ops)))
    ∧ List.filter is_publish ops = [] ∧ List.filter is_respond ops = []
    ∧ (existsb (Js.is_string toolName)
         ["validate-readme"; "generate-readme"; "suggest-improvements";
          "check-completeness"] = false →
       x = Failure (Fail (ToolServer.UnknownTool (ToolServer.interpolate toString toolName))) ∧ ops = []).
Proof.
  unfold ToolServer.routeToTool.
  destruct (Js.is_string toolName "validate-readme") eqn:H1;
    [|destruct (Js.is_string toolName "generate-readme") eqn:H2;
      [|destruct (Js.is_string toolName "suggest-improvements") eqn:H3;
        [|destruct (Js.is_string toolName "check-completeness") eqn:H4]]].
  1-4: assert (∀ P : Prop,
                 existsb (Js.is_string toolName)
                   ["validate-readme"; "generate-readme"; "suggest-improvements";
                    "check-completeness"] = false → P) as Hno
    by (intros P Hn; simpl in Hn; rewrite ?H1, ?H2, ?H3, ?H4 in Hn; simpl in Hn;
        rewrite ?orb_true_r in Hn; discriminate Hn).
  - unfold_eff. destruct (Js.get args "content") as [c|] eqn:Hc; simpl.
    + destruct (Js.get args "strictMode") as [s|] eqn:Hs; simpl.
      * eexists _, [_]. split; [intros w; reflexivity|]. split_and!; [done..|apply Hno].
      * exists (Failure (Die "TypeError")), []. split; [|split_and!; [done..|apply Hno]].
        intros []; simpl. by rewrite app_nil_r.
    + exists (Failure (Die "TypeError")), []. split; [|split_and!; [done..|apply Hno]].
      intros []; simpl. by rewrite app_nil_r.
  - unfold_eff. eexists _, [_]. split; [intros w; reflexivity|].
    split_and!; [done..|apply Hno].
  - unfold_eff. destruct (Js.get args "content") as [c|] eqn:Hc; simpl.
    + destruct (ToolServer.sample_exit env) as [r|c'] eqn:Hx.
      * eexists _, [_]. split; [intros w; reflexivity|]. split_and!; [done..|apply Hno].
      * eexists _, [_]. split; [intros w; reflexivity|]. split_and!; [done..|apply Hno].
    + exists (Failure (Die "TypeError")), []. split; [|split_and!; [done..|apply Hno]].
      intros []; simpl. by rewrite app_nil_r.
  - unfold_eff. destruct (Js.get args "content") as [c|] eqn:Hc; simpl.
    + eexists _, [_]. split; [intros w; reflexivity|]. split_and!; [done..|apply Hno].
    + exists (Failure (Die "TypeError")), []. split; [|split_and!; [done..|apply Hno]].
      intros []; simpl. by rewrite app_nil_r.
  - unfold_eff. eexists _, []. split; [|done].
    intros []; simpl. by rewrite app_nil_r.
Qed.

(** What the handler publishes, answers and calls for a tool request. *)
Lemma tool_request_run (exact : bool) (env : ToolServer.Env) (body : Js.value)
    (ev : CloudEvent.t) (fields : list (string * Js.value))
    (w : World ReadmeMcp.PendingRequest ToolServer.Error) :
  CloudEvent.decode exact body = Some ev →
  CloudEvent.type ev = "mcp.tool.request" →
  CloudEvent.data ev = Js.Object fields →
  let requestId := Js.assoc "requestId" fields in
  let tool := ToolServer.routeToTool toString env (Js.assoc "tool" fields)
                (Js.assoc "arguments" fields) w in
  let w' := (ToolServer.post_mcp_tool_events pubsubName toString formatIssue exact env body w).2 in
  invoked w' = invoked tool.2
  ∧ match tool.1 with
    | Success result =>
        published w' =
          published w ++ [OpPublish pubsubName "mcp-tool-responses"
                            (ToolServer.responseEvent env requestId result)]
        ∧ answered w' =
            answered w ++
              [if ToolServer.publish_ok env
               then OpRespond 200 (Js.Object [("success", Js.Bool true)])
               else OpRespond 500
                      (Js.Object [("error",
                         Js.String ("DaprError: Failed to publish event to "
                                      +:+ pubsubName +:+ "/mcp-tool-responses"))])]
    | Failure cause =>
        published w' = published w
        ∧ answered w' =
            answered w ++
              match failureOption cause with
              | Some e => [OpRespond 500 (Js.Object [("error", Js.String (ToolServer.show e))])]
              | None => []
              end
    end.
Proof.
  intros Hdec Htype Hdata. cbn zeta.
  destruct (routeToTool_run env (Js.assoc "tool" fields) (Js.assoc "arguments" fields))
    as (x & ops & Hrun & Hp & Hr & _).
  unfold ToolServer.post_mcp_tool_events, published, answered, invoked, ToolServer.publishEvent. unfold_eff.
  rewrite Hdec. simpl. rewrite Htype. simpl. rewrite Hdata. simpl.
  repeat match goal with
         | |- context [ToolServer.routeToTool _ _ _ _ ?w0] => rewrite (Hrun w0)
         end.
  simpl.
  destruct x as [result|cause]; simpl.
  - destruct (ToolServer.publish_ok env); simpl;
      rewrite !List.filter_app, Hp, Hr; simpl; by rewrite ?app_nil_r.
  - destruct (failureOption cause) as [e|]; simpl;
      rewrite !List.filter_app, Hp, Hr; simpl; by rewrite ?app_nil_r.
Qed.

(** X1: what the tool-request handler of readme-mcp does with a request
    event whose data is an object, from the exit of [routeToTool]: when
    the tool succeeds it publishes one response event, on
    ["mcp-tool-responses"], carrying the request id of the request and
    the result, and answers 200 (500 when that publish fails); when the
    tool fails it publishes nothing and answers 500 with the text of the
    error; when the tool dies it publishes nothing and sends no answer. *)
Theorem X1_tool_request_outcome (exact : bool) (env : ToolServer.Env) (body : Js.value)
    (ev : CloudEvent.t) (fields : list (string * Js.value))
    (w : World ReadmeMcp.PendingRequest ToolServer.Error) :
  CloudEvent.decode exact body = Some ev →
  CloudEvent.type ev = "mcp.tool.request" →
  CloudEvent.data ev = Js.Object fields →
  let requestId := Js.assoc "requestId" fields in
  let tool := ToolServer.routeToTool toString env (Js.assoc "tool" fields)
                (Js.assoc "arguments" fields) w in
  let w' := (ToolServer.post_mcp_tool_events pubsubName toString formatIssue exact env body w).2 in
  match tool.1 with
  | Success result =>
      published w' =
        published w ++ [OpPublish pubsubName "mcp-tool-responses"
                          (ToolServer.responseEvent env requestId result)]
      ∧ answered w' =
          answered w ++
            [if ToolServer.publish_ok env
             then OpRespond 200 (Js.Object [("success", Js.Bool true)])
             else OpRespond 500
                    (Js.Object [("error",
                       Js.String ("DaprError: Failed to publish event to "
                                    +:+ pubsubName +:+ "/mcp-tool-responses"))])]
  | Failure cause =>
      published w' = published w
      ∧ answered w' =
          answered w ++
            match failureOption cause with
            | Some e => [OpRespond 500 (Js.Object [("error", Js.String (ToolServer.show e))])]
            | None => []
            end
  end.
Proof.
  intros Hdec Htype Hdata.
  apply (tool_request_run exact env body ev fields w Hdec Htype Hdata).
Qed.

(** X2: a request for a tool other than the four of [routeToTool] is
    answered 500 with ["Error: Unknown tool: <name>"]; no service is
    called and no response event is published. *)
Theorem X2_unknown_tool_rejected (exact : bool) (env : ToolServer.Env) (body : Js.value)
    (ev : CloudEvent.t) (fields : list (string * Js.value))
    (w : World ReadmeMcp.PendingRequest ToolServer.Error) :
  CloudEvent.decode exact body = Some ev →
  CloudEvent.type ev = "mcp.tool.request" →
  CloudEvent.data ev = Js.Object fields →
  existsb (Js.is_string (Js.assoc "tool" fields))
    ["validate-readme"; "generate-readme"; "suggest-improvements";
     "check-completeness"] = false →
  let w' := (ToolServer.post_mcp_tool_events pubsubName toString formatIssue exact env body w).2 in
  let text := "Error: Unknown tool: " +:+ ToolServer.interpolate toString (Js.assoc "tool" fields) in
  published w' = published w
  ∧ invoked w' = invoked w
  ∧ answered w' = answered w ++ [OpRespond 500 (Js.Object [("error", Js.String text)])].
Proof.
  intros Hdec Htype Hdata Hno. cbn zeta.
  destruct (routeToTool_run env (Js.assoc "tool" fields) (Js.assoc "arguments" fields))
    as (x & ops & Hrun & _ & _ & Hunknown).
  destruct (Hunknown Hno) as [-> ->].
  destruct (tool_request_run exact env body ev fields w Hdec Htype Hdata)
    as (Hi & Hrest).
  rewrite Hrun in Hi, Hrest. cbn [fst snd] in Hi, Hrest.
  destruct Hrest as [Hp Ha]. split_and!; [done| |done].
  rewrite Hi. unfold invoked. cbn [trace]. by rewrite app_nil_r.
Qed.

(** X3: a CloudEvent whose type is not ["mcp.tool.request"] is dropped
    by the tool-request handler: it logs its first line and ends with
    success, without any HTTP answer ([res.status] is only called inside
    the branch of the tool requests). *)
Theorem X3_other_events_get_no_answer (exact : bool) (env : ToolServer.Env) (body : Js.value)
    (ev : CloudEvent.t) (w : World ReadmeMcp.PendingRequest ToolServer.Error) :
  CloudEvent.decode exact body = Some ev →
  CloudEvent.type ev ≠ "mcp.tool.request" →
  ToolServer.post_mcp_tool_events pubsubName toString formatIssue exact env body w
  = (Success tt,
     mkWorld (pendingRequests w) (deferreds w)
       (trace w ++ [OpLog Info "Received MCP tool request" Js.Undefined])).
Proof.
  intros Hdec Htype. unfold ToolServer.post_mcp_tool_events. unfold_eff.
  rewrite Hdec. simpl. apply String.eqb_neq in Htype. by rewrite Htype.
Qed.

End ToolServerFacts.

(** ** A tool call, there and back *)

Section RoundTrip.
Variables (pubsubName : string) (toString formatIssue : Js.value → string).

(** The request event of a call, as [callTool] builds it. *)
Lemma callTool_in_flight (s0 : Sched AiSvc.PendingRequest AiSvc.Error AiSvc.Input)
    (rid : string) (i : AiSvc.Input) :
  let B := AiSvc.bridge pubsubName in
  let n := length (fibers s0) in
  let d := length (cells s0) in
  let s1 := run [Call rid i; PublishSettled n true] s0 in
  fibers s1 = fibers s0 ++ [mkFiber rid i d (Racing None None)]
  ∧ registry s1
    = <[rid := AiSvc.mkPendingRequest d (AiSvc.in_now i) (AiSvc.in_toolName i)]>
        (registry s0)
  ∧ cells s1 = cells s0 ++ [None]
  ∧ published (world s1)
    = published (world s0)
      ++ [OpPublish pubsubName AiSvc.toolRequestTopic
            (Js.Object [("specversion", Js.String "1.0");
                        ("type", Js.String "mcp.tool.request");
                        ("source", Js.String "ai-svc");
                        ("id", Js.String (AiSvc.in_eventId i));
                        ("data", Js.Object [("requestId", Js.String rid);
                                            ("tool", Js.String (AiSvc.in_toolName i));
                                            ("arguments", AiSvc.in_args i)])])].
Proof.
  cbn zeta. unfold run. cbn [fold_left step].
  unfold call_begin, call_published. cbn [AiSvc.bridge].
  unfold AiSvc.callTool_begin, AiSvc.callTool_published, AiSvc.publishEvent_start,
    AiSvc.publishEvent_settle.
  unfold_eff. cbn [fst snd world fibers].
  rewrite list_lookup_middle by done. cbn [world fibers].
  unfold update_fiber. cbn [world fibers pendingRequests deferreds trace].
  split_and!.
  - rewrite alter_app_r_alt, Nat.sub_diag by done. done.
  - done.
  - done.
  - unfold published. cbn [trace]. rewrite !List.filter_app. simpl.
    by rewrite ?app_nil_r.
Qed.

(** A response event for a registered request, through the handler of
    ai-svc. *)
Lemma AiSvc_post_tool_response (exact : bool) (body : Js.value) (ev : CloudEvent.t)
    (fields : list (string * Js.value)) (rid : string) (r : AiSvc.PendingRequest)
    (w : World AiSvc.PendingRequest AiSvc.Error) :
  CloudEvent.decode exact body = Some ev →
  CloudEvent.type ev = "mcp.tool.response" →
  CloudEvent.data ev = Js.Object fields →
  Js.assoc "requestId" fields = Js.String rid →
  pendingRequests w !! rid = Some r →
  let w' := (AiSvc.post_mcp_tool_events formatIssue exact body w).2 in
  pendingRequests w' = pendingRequests w
  ∧ deferreds w' = complete (AiSvc.deferred r) (AiSvc_resolution r fields) (deferreds w).
Proof.
  intros Hdec Htype Hdata Hid Hreg. cbn zeta.
  unfold AiSvc.post_mcp_tool_events.
  unfold catchAll, bind, logInfo, logDebug, respond, emit, succeed.
  rewrite Hdec. cbn [from_option]. rewrite Htype, Hdata.
  change (String.eqb "mcp.tool.response" "mcp.tool.response") with true. cbv iota.
  match goal with
  | |- context [AiSvc.handleResponse _ ?w0] =>
      destruct (AiSvc_handleResponse_known fields rid r w0 Hid Hreg) as (Hx & Hk & Hd);
      destruct (AiSvc.handleResponse (Js.Object fields) w0) as [x w1]
  end.
  cbn [fst snd] in *. subst x. cbn [fst snd pendingRequests deferreds]. done.
Qed.

(** X4: a tool call, there and back.  In any state of the bridge, the
    request event that [callTool] publishes is accepted by the
    tool-request handler of readme-mcp; when the tool succeeds, the
    response event that handler publishes is accepted by the
    tool-response handler of ai-svc and completes the call's deferred, so
    that the call, resumed, returns the result of the tool and leaves no
    record behind. *)
Theorem X4_tool_call_round_trip
    (s0 : Sched AiSvc.PendingRequest AiSvc.Error AiSvc.Input)
    (rid : string) (i : AiSvc.Input) (exact : bool) (env : ToolServer.Env)
    (wm : World ReadmeMcp.PendingRequest ToolServer.Error) (result : Js.value) :
  let B := AiSvc.bridge pubsubName in
  let n := length (fibers s0) in
  let s1 := run [Call rid i; PublishSettled n true] s0 in
  (ToolServer.routeToTool toString env (Js.String (AiSvc.in_toolName i))
     (AiSvc.in_args i) wm).1 = Success result →
  ∃ request response,
    last (published (world s1))
      = Some (OpPublish pubsubName AiSvc.toolRequestTopic request)
    ∧ last (published
              (ToolServer.post_mcp_tool_events pubsubName toString formatIssue exact env request wm).2)
      = Some (OpPublish pubsubName "mcp-tool-responses" response)
    ∧ let s2 := mkSched (AiSvc.post_mcp_tool_events formatIssue exact response (world s1)).2
                        (fibers s1) in
      let s3 := step (AwaitResumed n) s2 in
      phase_of n s3 = Some (Done (Success result))
      ∧ registry s3 = delete rid (registry s1).
Proof.
  cbn zeta. intros Htool.
  destruct (callTool_in_flight s0 rid i) as (Hf & Hr & Hc & Hp).
  cbn zeta in Hf, Hr, Hc, Hp.
  set (s1 := run [Call rid i; PublishSettled (length (fibers s0)) true] s0) in *.
  eexists _, _. split; [rewrite Hp; apply last_snoc|].
  match goal with
  | |- context [ToolServer.post_mcp_tool_events _ _ _ _ _ ?request _] =>
      set (req := request)
  end.
  assert (∃ ev, CloudEvent.decode exact req = Some ev
                ∧ CloudEvent.type ev = "mcp.tool.request"
                ∧ CloudEvent.data ev
                  = Js.Object [("requestId", Js.String rid);
                               ("tool", Js.String (AiSvc.in_toolName i));
                               ("arguments", AiSvc.in_args i)])
    as (ev & Hdec & Htype & Hdata).
  { eexists. split_and!; [by destruct exact|done..]. }
  destruct (tool_request_run pubsubName toString formatIssue exact env req ev _ wm Hdec Htype Hdata)
    as (_ & Hrun).
  cbn [Js.assoc String.eqb Ascii.eqb Bool.eqb] in Hrun.
  rewrite Htool in Hrun. destruct Hrun as [Hpub _].
  split; [rewrite Hpub; apply last_snoc|].
  set (fields := [("requestId", Js.String rid); ("result", result)]).
  assert (registry s1 !! rid
          = Some (AiSvc.mkPendingRequest (length (cells s0)) (AiSvc.in_now i)
                    (AiSvc.in_toolName i))) as Hreg.
  { rewrite Hr. apply lookup_insert_eq. }
  assert (∃ ev', CloudEvent.decode exact
                   (ToolServer.responseEvent env (Js.String rid) result) = Some ev'
                 ∧ CloudEvent.type ev' = "mcp.tool.response"
                 ∧ CloudEvent.data ev' = Js.Object fields)
    as (ev' & Hdec' & Htype' & Hdata').
  { eexists. split_and!; [by destruct exact|done..]. }
  destruct (AiSvc_post_tool_response exact _ ev' fields rid _ (world s1)
              Hdec' Htype' Hdata' eq_refl Hreg) as (Hk & Hd).
  cbn zeta in Hk, Hd.
  set (w2 := (AiSvc.post_mcp_tool_events formatIssue exact
                (ToolServer.responseEvent env (Js.String rid) result) (world s1)).2) in *.
  assert (deferreds w2 !! length (cells s0) = Some (Some (Success result))) as Hcell.
  { rewrite Hd. unfold complete, AiSvc_resolution. cbn [AiSvc.deferred].
    rewrite Hc. rewrite list_lookup_middle by done.
    rewrite list_lookup_insert_eq; [done|]. rewrite length_app. simpl. lia. }
  unfold step, phase_of. cbn [world fibers].
  rewrite Hf, list_lookup_middle by done.
  rewrite Hcell. cbn [race_onSelfDone after_race].
  unfold call_cleanup. cbn [AiSvc.bridge]. unfold AiSvc.callTool_cleanup.
  unfold_eff. cbn [fst snd]. unfold update_fiber. cbn [world fibers pendingRequests].
  split.
  - rewrite alter_app_r_alt, Nat.sub_diag by done. cbn [alter list_alter].
    by rewrite list_lookup_middle.
  - by rewrite Hk.
Qed.

End RoundTrip.

(** ** A sampling call, there and back *)

Section SamplingRoundTrip.
Variables (pubsubName topicName : string) (timeoutMs : Z).
Variables (toString formatIssue : Js.value → string).

Lemma sample_in_flight
    (s0 : Sched ReadmeMcp.PendingRequest ReadmeMcp.Error ReadmeMcp.Input)
    (rid : string) (i : ReadmeMcp.Input) :
  let B := ReadmeMcp.bridge pubsubName topicName timeoutMs in
  let n := length (fibers s0) in
  let d := length (cells s0) in
  let s1 := run [Call rid i; PublishSettled n true] s0 in
  fibers s1 = fibers s0 ++ [mkFiber rid i d (Racing None None)]
  ∧ registry s1 = <[rid := ReadmeMcp.mkPendingRequest d (ReadmeMcp.in_now i)]> (registry s0)
  ∧ cells s1 = cells s0 ++ [None]
  ∧ published (world s1)
    = published (world s0)
      ++ [OpPublish pubsubName topicName
            (Js.Object [("requestId", Js.String rid);
                        ("prompt", Js.String (ReadmeMcp.in_prompt i));
                        ("model", Js.String (ReadmeMcp.model_of i));
                        ("temperature", Js.Number (ReadmeMcp.temperature_of i));
                        ("maxTokens", Js.Number (inject_Z 2000));
                        ("metadata",
                         Js.Object [("source", Js.String "readme-mcp");
                                    ("timestamp", Js.String (ReadmeMcp.in_isoNow i))])])].
Proof.
  cbn zeta. unfold run. cbn [fold_left step].
  unfold call_begin, call_published. cbn [ReadmeMcp.bridge].
  unfold ReadmeMcp.sample_begin, ReadmeMcp.sample_published,
    ReadmeMcp.publishEvent_start, ReadmeMcp.publishEvent_settle.
  unfold_eff. cbn [fst snd world fibers].
  rewrite list_lookup_middle by done. cbn [world fibers].
  unfold update_fiber. cbn [world fibers pendingRequests deferreds trace].
  split_and!.
  - rewrite alter_app_r_alt, Nat.sub_diag by done. done.
  - done.
  - done.
  - unfold published. cbn [trace]. rewrite !List.filter_app. simpl.
    by rewrite ?app_nil_r.
Qed.

(** A sampling request through [/ai-events], when the sampling service
    answers and the publish succeeds. *)
Lemma post_ai_events_sampling (exact : bool) (env : AiSvc.Env) (body : Js.value)
    (ev : CloudEvent.t) (fields : list (string * Js.value)) (response : Js.value)
    (w : World AiSvc.PendingRequest AiSvc.Error) :
  CloudEvent.decode exact body = Some ev →
  CloudEvent.type ev ≠ "agent.request" →
  CloudEvent.data ev = Js.Object fields →
  Js.truthy (Js.assoc "requestId" fields) = true →
  AiSvc.sample_exit env = Success response →
  AiSvc.publish_ok env = true →
  let w' := (AiSvc.post_ai_events pubsubName formatIssue exact env body w).2 in
  published w'
  = published w
    ++ [OpPublish pubsubName "ai-stream-responses"
          (Js.Object [("specversion", Js.String "1.0");
                      ("type", Js.String "mcp.sampling.response");
                      ("source", Js.String "ai-svc");
                      ("id", Js.String (AiSvc.responseEventId env));
                      ("data", response)])]
  ∧ invoked w'
    = invoked w
      ++ [OpInvoke "SamplingService.sample"
            [Js.assoc "requestId" fields; Js.assoc "prompt" fields;
             Js.assoc "model" fields; Js.assoc "temperature" fields;
             Js.assoc "maxTokens" fields]]
  ∧ answered w' = answered w ++ [OpRespond 200 (Js.Object [("success", Js.Bool true)])].
Proof.
  intros Hdec Htype Hdata Hid Hx Hok. cbn zeta.
  unfold AiSvc.post_ai_events, AiSvc.publishEvent_start, AiSvc.publishEvent_settle,
    published, invoked, answered.
  unfold_eff. rewrite Hdec. simpl. apply String.eqb_neq in Htype. rewrite Htype.
  rewrite Hdata. simpl. rewrite Hid, Hx, Hok.
  destruct (String.eqb (CloudEvent.type ev) "sampling.request"); simpl;
    rewrite !List.filter_app; simpl; by rewrite ?app_nil_r.
Qed.

(** A response event for a registered sampling request, through the
    handler of readme-mcp. *)
Lemma ReadmeMcp_post_sampling_response (exact : bool) (body : Js.value)
    (ev : CloudEvent.t) (fields : list (string * Js.value)) (rid : string)
    (r : ReadmeMcp.PendingRequest) (w : World ReadmeMcp.PendingRequest ReadmeMcp.Error) :
  CloudEvent.decode exact body = Some ev →
  CloudEvent.type ev = "mcp.sampling.response" →
  CloudEvent.data ev = Js.Object fields →
  Js.assoc "requestId" fields = Js.String rid →
  pendingRequests w !! rid = Some r →
  let w' := (ReadmeMcp.post_mcp_events toString formatIssue exact body w).2 in
  pendingRequests w' = pendingRequests w
  ∧ deferreds w'
    = complete (ReadmeMcp.deferred r) (ReadmeMcp_resolution fields) (deferreds w).
Proof.
  intros Hdec Htype Hdata Hid Hreg. cbn zeta.
  unfold ReadmeMcp.post_mcp_events.
  unfold catchAll, bind, logInfo, logDebug, respond, emit, succeed.
  rewrite Hdec. cbn [from_option]. rewrite Htype, Hdata.
  change (String.eqb "mcp.sampling.response" "mcp.sampling.response") with true.
  cbv iota.
  match goal with
  | |- context [ReadmeMcp.handleResponse _ ?w0] =>
      destruct (ReadmeMcp_handleResponse_known fields rid r w0 Hid Hreg)
        as (Hx & Hk & Hd);
      destruct (ReadmeMcp.handleResponse (Js.Object fields) w0) as [x w1]
  end.
  cbn [fst snd] in *. subst x. cbn [fst snd pendingRequests deferreds]. done.
Qed.

(** X5: a sampling call, there and back.  In any state of the client,
    for a request id that is not empty: a CloudEvent that delivers the
    request [sample] published is routed by [/ai-events] to the sampling
    service; when the model answers, the response event ai-svc publishes
    is accepted by [/mcp-events] and completes the call's deferred, so
    that the call, resumed, returns the text of the model and leaves no
    record behind. *)
Theorem X5_sampling_round_trip
    (s0 : Sched ReadmeMcp.PendingRequest ReadmeMcp.Error ReadmeMcp.Input)
    (rid : string) (i : ReadmeMcp.Input) (exact : bool) (body : Js.value)
    (ev : CloudEvent.t) (content : string) (total_tokens : Js.value)
    (agent : Exit AiSvc.Error Js.value) (eventId : string)
    (wa : World AiSvc.PendingRequest AiSvc.Error) :
  let B := ReadmeMcp.bridge pubsubName topicName timeoutMs in
  let n := length (fibers s0) in
  let s1 := run [Call rid i; PublishSettled n true] s0 in
  let request := CloudEvent.data ev in
  let served :=
    SamplingService.sample (field request "requestId") (field request "prompt")
      (field request "model") (field request "temperature") (field request "maxTokens")
      (SamplingService.Answers content total_tokens) wa in
  let env := AiSvc.mkEnv agent served.1 true eventId in
  rid ≠ "" →
  CloudEvent.decode exact body = Some ev →
  CloudEvent.type ev ≠ "agent.request" →
  last (published (world s1)) = Some (OpPublish pubsubName topicName request) →
  ∃ response,
    last (published (AiSvc.post_ai_events pubsubName formatIssue exact env body wa).2)
      = Some (OpPublish pubsubName "ai-stream-responses" response)
    ∧ let s2 := mkSched (ReadmeMcp.post_mcp_events toString formatIssue exact response (world s1)).2
                        (fibers s1) in
      let s3 := step (AwaitResumed n) s2 in
      phase_of n s3 = Some (Done (Success (Js.String content)))
      ∧ registry s3 = delete rid (registry s1).
Proof.
  cbn zeta. intros Hrid Hdec Htype Hlast.
  destruct (sample_in_flight s0 rid i) as (Hf & Hr & Hc & Hp).
  cbn zeta in Hf, Hr, Hc, Hp.
  set (s1 := run [Call rid i; PublishSettled (length (fibers s0)) true] s0) in *.
  rewrite Hp, last_snoc in Hlast. injection Hlast as Hdata. symmetry in Hdata.
  set (env := AiSvc.mkEnv _ _ _ _).
  destruct (post_ai_events_sampling exact env body ev _
              (Js.Object [("requestId", Js.String rid);
                          ("content", Js.String content);
                          ("model", Js.String (ReadmeMcp.model_of i));
                          ("tokensUsed", total_tokens)])
              wa Hdec Htype Hdata) as (Hpub & _).
  { simpl. destruct rid; [done|]. done. }
  { subst env. cbn [AiSvc.sample_exit]. rewrite Hdata. reflexivity. }
  { done. }
  eexists. split; [rewrite Hpub; apply last_snoc|].
  set (fields := [("requestId", Js.String rid); ("content", Js.String content);
                  ("model", Js.String (ReadmeMcp.model_of i));
                  ("tokensUsed", total_tokens)]).
  assert (registry s1 !! rid
          = Some (ReadmeMcp.mkPendingRequest (length (cells s0)) (ReadmeMcp.in_now i)))
    as Hreg.
  { rewrite Hr. apply lookup_insert_eq. }
  match goal with
  | |- context [ReadmeMcp.post_mcp_events toString formatIssue exact ?resp _] => set (response := resp)
  end.
  assert (∃ ev', CloudEvent.decode exact response = Some ev'
                 ∧ CloudEvent.type ev' = "mcp.sampling.response"
                 ∧ CloudEvent.data ev' = Js.Object fields)
    as (ev' & Hdec' & Htype' & Hdata').
  { eexists. split_and!; [by destruct exact|done..]. }
  destruct (ReadmeMcp_post_sampling_response exact _ ev' fields rid _ (world s1)
              Hdec' Htype' Hdata' eq_refl Hreg) as (Hk & Hd).
  cbn zeta in Hk, Hd.
  set (w2 := (ReadmeMcp.post_mcp_events toString formatIssue exact response (world s1)).2) in *.
  assert (deferreds w2 !! length (cells s0) = Some (Some (Success (Js.String content))))
    as Hcell.
  { rewrite Hd. unfold complete, ReadmeMcp_resolution. cbn [ReadmeMcp.deferred].
    rewrite Hc. rewrite list_lookup_middle by done.
    rewrite list_lookup_insert_eq; [done|]. rewrite length_app. simpl. lia. }
  unfold step, phase_of. cbn [world fibers].
  rewrite Hf, list_lookup_middle by done.
  rewrite Hcell. cbn [race_onSelfDone after_race].
  unfold call_cleanup. cbn [ReadmeMcp.bridge]. unfold ReadmeMcp.sample_cleanup.
  unfold_eff. cbn [fst snd]. unfold update_fiber. cbn [world fibers pendingRequests].
  split.
  - rewrite alter_app_r_alt, Nat.sub_diag by done. cbn [alter list_alter].
    by rewrite list_lookup_middle.
  - by rewrite Hk.
Qed.

End SamplingRoundTrip.

(** ** ai-svc: the message handler *)

Section MessageHandlerFacts.
Variables (exact : bool) (invokeAgent_exit : Exit Agents.Error Js.value).

(** X7: [handleMessage] exits as [processMessage] does and calls the
    agent service on the same occasions: once, with the agent id, the
    input and the session id of the request, when the body passes the
    CloudEvent schema and its data the agent-request schema, and never
    otherwise, in which case both fail with a
    [CloudEventValidationError].  What [handleMessage] adds is the
    error-level log line that ends its trace when it fails. *)
Theorem X7_handleMessage_as_processMessage (data : Js.value)
    (w : World AiSvc.PendingRequest AiSvc.Error) :
  (∀ l r, invokeAgent_exit ≠ Failure (Parallel l r)) →
  let h := MessageHandler.handleMessage exact invokeAgent_exit data w in
  let p := MessageHandler.processMessage exact invokeAgent_exit data w in
  h.1 = p.1
  ∧ invoked h.2 = invoked p.2
  ∧ invoked h.2 =
      invoked w ++
        match CloudEvent.decode exact data with
        | Some ev =>
            match MessageHandler.decode exact (CloudEvent.data ev) with
            | Some d =>
                [OpInvoke "AgentService.invokeAgent"
                   [Js.String (MessageHandler.agentId d); MessageHandler.input d;
                    MessageHandler.sessionId d]]
            | None => []
            end
        | None => []
        end
  ∧ (h.1 = Failure (Fail AiSvc.CloudEventValidationError) ↔
     ∀ ev d, CloudEvent.decode exact data = Some ev →
             MessageHandler.decode exact (CloudEvent.data ev) ≠ Some d)
  ∧ (∀ e, h.1 = Failure (Fail e) →
          last (trace h.2)
          = Some (OpLog Error "Message processing failed"
                    (Js.Object [("error", Js.String (MessageHandler.tag e));
                                ("cause", MessageHandler.error_value e)]))).
Proof.
  intros Hpar. cbn zeta.
  unfold MessageHandler.handleMessage, MessageHandler.processMessage, invoked.
  unfold_eff.
  destruct (CloudEvent.decode exact data) as [ev|] eqn:Hev; simpl.
  2:{ rewrite !List.filter_app. simpl. rewrite !app_nil_r.
      split_and!; [done..| |]; [naive_solver|].
      intros e [= <-]. by rewrite last_snoc. }
  destruct (MessageHandler.decode exact (CloudEvent.data ev)) as [d|] eqn:Hd; simpl.
  2:{ rewrite !List.filter_app. simpl. rewrite !app_nil_r.
      split_and!; [done..| |].
      - split; [|done]. intros _ ev' d' [= <-]. by rewrite Hd.
      - intros e [= <-]. by rewrite last_snoc. }
  assert (¬ ∀ ev' d', Some ev = Some ev' →
            MessageHandler.decode exact (CloudEvent.data ev') ≠ Some d') as Hno.
  { intros H. by apply (H ev d). }
  destruct invokeAgent_exit as [a|[e|defect|l r]]; simpl.
  - rewrite !List.filter_app. simpl. rewrite !app_nil_r.
    split_and!; [done..| |done]. split; [done|]. intros H. by destruct Hno.
  - rewrite !List.filter_app. simpl. rewrite !app_nil_r.
    split_and!; [done..| |].
    + split; [done|]. intros H. by destruct Hno.
    + intros e' [= <-]. by rewrite last_snoc.
  - rewrite !List.filter_app. simpl. rewrite !app_nil_r.
    split_and!; [done..| |done]. split; [done|]. intros H. by destruct Hno.
  - by destruct (Hpar l r).
Qed.

End MessageHandlerFacts.

(** ** The topics of the sampling traffic *)

Lemma str_length_app (a b : string) :
  String.length (a +:+ b) = (String.length a + String.length b)%nat.
Proof. induction a as [|x a IH]; [done|]. rewrite str_cons_app. simpl. by rewrite IH. Qed.

Lemma str_app_inj_r (a b c : string) : a +:+ c = b +:+ c → a = b.
Proof.
  revert b. induction a as [|x a IH]; intros [|y b] H.
  - done.
  - apply (f_equal String.length) in H. rewrite str_nil_app, str_length_app in H.
    simpl in H. lia.
  - apply (f_equal String.length) in H. rewrite str_nil_app, str_length_app in H.
    simpl in H. lia.
  - rewrite !str_cons_app in H. injection H as -> H. f_equal. by apply IH.
Qed.

Section Topics.
Variables (pubsubName topicName : string) (timeoutMs : Z).
Variable formatIssue : Js.value → string.

(** X6: the topics of the sampling traffic.  [sample] publishes its
    request on the topic readme-mcp is configured with, which ai-svc
    subscribes [/ai-events] to exactly when it is configured with the
    same topic; ai-svc publishes every sampling response on
    ["ai-stream-responses"], which readme-mcp subscribes [/mcp-events] to
    exactly when its topic is ["ai-stream"]. *)
Theorem X6_sampling_topics_meet
    (s0 : Sched ReadmeMcp.PendingRequest ReadmeMcp.Error ReadmeMcp.Input)
    (rid : string) (i : ReadmeMcp.Input) (topic : string)
    (exact : bool) (env : AiSvc.Env) (body : Js.value) (ev : CloudEvent.t)
    (fields : list (string * Js.value)) (response : Js.value)
    (w : World AiSvc.PendingRequest AiSvc.Error) :
  CloudEvent.decode exact body = Some ev →
  CloudEvent.type ev ≠ "agent.request" →
  CloudEvent.data ev = Js.Object fields →
  Js.truthy (Js.assoc "requestId" fields) = true →
  AiSvc.sample_exit env = Success response →
  AiSvc.publish_ok env = true →
  let B := ReadmeMcp.bridge pubsubName topicName timeoutMs in
  let s1 := run [Call rid i; PublishSettled (length (fibers s0)) true] s0 in
  let w' := (AiSvc.post_ai_events pubsubName formatIssue exact env body w).2 in
  ∃ request answer,
    last (published (world s1)) = Some (OpPublish pubsubName topicName request)
    ∧ last (published w') = Some (OpPublish pubsubName "ai-stream-responses" answer)
    ∧ (mkSubscription pubsubName topicName "/ai-events"
         ∈ AiSvc_subscribe pubsubName topic ↔ topic = topicName)
    ∧ (mkSubscription pubsubName "ai-stream-responses" "/mcp-events"
         ∈ ReadmeMcp_subscribe pubsubName topicName ↔ topicName = "ai-stream").
Proof.
  intros Hdec Htype Hdata Hid Hx Hok. cbn zeta.
  destruct (sample_in_flight pubsubName topicName timeoutMs s0 rid i) as (_ & _ & _ & Hp).
  destruct (post_ai_events_sampling pubsubName formatIssue exact env body ev fields response w
              Hdec Htype Hdata Hid Hx Hok) as (Hq & _).
  cbn zeta in Hp, Hq. eexists _, _.
  split; [rewrite Hp; apply last_snoc|].
  split; [rewrite Hq; apply last_snoc|].
  unfold AiSvc_subscribe, ReadmeMcp_subscribe. rewrite !elem_of_cons, !elem_of_nil.
  split.
  - split; [|intros ->; by left]. intros [[= ->]|[[=]|[]]]. done.
  - split; [|intros ->; by left].
    intros [[= H]|[[=]|[]]].
    apply (str_app_inj_r topicName "ai-stream" "-responses"). by symmetry.
Qed.

End Topics.

(** ** ai-svc: the agents and their chat history *)

Lemma chatKey_inj (a b : string) : Agents.chatKey a = Agents.chatKey b → a = b.
Proof.
  unfold Agents.chatKey. intros H. apply String.app_inj in H.
  by apply str_app_inj_r in H.
Qed.

Ltac run_prog :=
  unfold Agents.andThen, Agents.recover, Agents.getChatHistory, Agents.saveChatHistory,
    Agents.log, Agents.ret, Agents.raise, Agents.die, Agents.getAgent in *;
  cbn [fst snd failureOption Agents.registry Agents.store Agents.logged] in *.

Section AgentFacts.
Variables (JSON_stringify : Js.value → string) (toString : Js.value → string).

Lemma invokeAgent_run (env : Agents.Env) (agentId : string) (input : Js.value)
    (sessionId : option string) (s : Agents.State) :
  let r := Agents.invokeAgent JSON_stringify toString env agentId input sessionId s in
  Agents.registry r.2 = Agents.registry s
  ∧ match Agents.Map_get agentId (Agents.registry s) with
    | None =>
        r.1 = Failure (Fail (Agents.AgentNotFoundError agentId))
        ∧ Agents.store r.2 = Agents.store s
    | Some agent =>
        match Agents.userContent JSON_stringify input with
        | None =>
            r.1 = Failure (Die "TypeError")
            ∧ Agents.store r.2 = Agents.store s
        | Some content =>
            match agent (Agents.prompt_of env s content sessionId) input with
            | Agents.Rejected =>
                r.1 = Failure (Fail (Agents.AgentInvocationError agentId))
                ∧ Agents.store r.2 = Agents.store s
            | Agents.Resolved n output =>
                (∃ response, r.1 = Success response
                             ∧ Js.get response "output" = Some output)
                ∧ Agents.store r.2 =
                    match Agents.session sessionId with
                    | Some sid =>
                        if Agents.save_ok env
                        then <[Agents.chatKey sid :=
                                 Agents.saved_state toString env agentId sid content output
                                   (if Agents.read_after_ok env
                                    then Agents.store s !! Agents.chatKey sid
                                    else None)]> (Agents.store s)
                        else Agents.store s
                    | None => Agents.store s
                    end
            end
        end
    end.
Proof.
  cbn zeta. unfold Agents.invokeAgent, Agents.prompt_of, Agents.saved_state, Agents.turn. run_prog.
  destruct (Agents.Map_get agentId (Agents.registry s)) as [agent|]; [|by split_and!].
  destruct (Agents.userContent JSON_stringify input) as [content|];
    destruct (Agents.session sessionId) as [sid|]; run_prog.
  - destruct (Agents.read_before_ok env); run_prog.
    + destruct (Agents.store s !! Agents.chatKey sid) as [existing|] eqn:Hst; run_prog.
      * destruct (agent _ input) as [|n output]; run_prog; [by split_and!|].
        destruct (Agents.read_after_ok env), (Agents.save_ok env); simpl;
          rewrite ?Hst; (split; [done|]); (split; [by eexists|]); done.
      * destruct (agent _ input) as [|n output]; run_prog; [by split_and!|].
        destruct (Agents.read_after_ok env), (Agents.save_ok env); simpl;
          rewrite ?Hst; (split; [done|]); (split; [by eexists|]); done.
    + destruct (agent _ input) as [|n output]; run_prog; [by split_and!|].
      destruct (Agents.read_after_ok env), (Agents.save_ok env); simpl;
        (split; [done|]); (split; [by eexists|]); done.
  - destruct (agent _ input) as [|n output]; run_prog; [by split_and!|].
    split; [done|]. split; [by eexists|]. done.
  - destruct (Agents.read_before_ok env); run_prog; [|by split_and!].
    destruct (Agents.store s !! Agents.chatKey sid) as [existing|]; run_prog; by split_and!.
  - by split_and!.
Qed.

(** X9: [invokeAgent] succeeds exactly when the agent is registered, its
    input has a text (it is a string, or [JSON.stringify] gives it one)
    and its invocation resolves.  An unknown agent gives an
    [AgentNotFoundError]; for a registered agent and the input
    [undefined] the call dies with the [TypeError] of
    [new HumanMessage(undefined)].  No failure of the chat history
    (reading or saving) ever fails the invocation, and the registry is
    left as it is. *)
Theorem X9_invokeAgent_exit (env : Agents.Env) (agentId : string) (input : Js.value)
    (sessionId : option string) (s : Agents.State) :
  let r := Agents.invokeAgent JSON_stringify toString env agentId input sessionId s in
  (∀ operation, r.1 ≠ Failure (Fail (Agents.DaprError operation)))
  ∧ Agents.registry r.2 = Agents.registry s
  ∧ ((∃ response, r.1 = Success response) ↔
     ∃ agent content n output,
       Agents.Map_get agentId (Agents.registry s) = Some agent
       ∧ Agents.userContent JSON_stringify input = Some content
       ∧ agent (Agents.prompt_of env s content sessionId) input = Agents.Resolved n output)
  ∧ (Agents.Map_get agentId (Agents.registry s) = None →
     r.1 = Failure (Fail (Agents.AgentNotFoundError agentId)))
  ∧ (is_Some (Agents.Map_get agentId (Agents.registry s)) → input = Js.Undefined →
     r.1 = Failure (Die "TypeError")).
Proof.
  cbn zeta.
  destruct (invokeAgent_run env agentId input sessionId s) as (Hreg & Hrun).
  cbn zeta in Hreg, Hrun.
  destruct (Agents.Map_get agentId (Agents.registry s)) as [agent|].
  - destruct (Agents.userContent JSON_stringify input) as [content|] eqn:Hc.
    + destruct (agent (Agents.prompt_of env s content sessionId) input)
        as [|n output] eqn:Hout.
      * destruct Hrun as [-> _]. split_and!; [done..| |done|].
        -- split; [by intros [? ?]|]. intros (a & c & n & o & [= <-] & [= <-] & Ho).
           congruence.
        -- intros _ ->. done.
      * destruct Hrun as [(response & -> & _) _]. split_and!; [done..| |done|].
        -- split; [|by eexists]. intros _. by exists agent, content, n, output.
        -- intros _ ->. done.
    + destruct Hrun as [-> _]. split_and!; [done..| |done|done].
      split; [by intros [? ?]|]. by intros (a & c & n & o & _ & [=] & _).
  - destruct Hrun as [-> _]. split_and!; [done..| |done|].
    + split; [by intros [? ?]|]. by intros (a & c & n & o & [=] & _).
    + by intros [? ?].
Qed.

(** X10: a successful invocation with a session, when the sidecar
    fulfils the read and the save that follow it: the history of the
    session is the one stored before followed by the user message and
    the assistant message, it carries the id of the agent, keeps the
    creation time of an existing history, and the histories of the other
    sessions are untouched. *)
Theorem X10_invokeAgent_appends_turn (env : Agents.Env) (agentId : string) (input : Js.value)
    (sessionId : option string) (s : Agents.State) (agent : Agents.Agent)
    (content : string) (n : option nat) (output : Js.value) (sid : string) :
  Agents.Map_get agentId (Agents.registry s) = Some agent →
  Agents.userContent JSON_stringify input = Some content →
  agent (Agents.prompt_of env s content sessionId) input = Agents.Resolved n output →
  Agents.session sessionId = Some sid →
  Agents.read_after_ok env = true →
  Agents.save_ok env = true →
  let r := Agents.invokeAgent JSON_stringify toString env agentId input sessionId s in
  let before := Agents.store s !! Agents.chatKey sid in
  ∃ saved,
    Agents.store r.2 !! Agents.chatKey sid = Some saved
    ∧ Agents.messages saved
      = from_option Agents.messages [] before ++ Agents.turn toString env content output
    ∧ Agents.state_agentId saved = agentId
    ∧ Agents.created_at saved = from_option Agents.created_at (Agents.isoNow env) before
    ∧ ∀ other, other ≠ sid →
        Agents.store r.2 !! Agents.chatKey other = Agents.store s !! Agents.chatKey other.
Proof.
  intros Hagent Hcontent Hout Hsid Hread Hsave. cbn zeta.
  destruct (invokeAgent_run env agentId input sessionId s) as (_ & Hrun).
  cbn zeta in Hrun. rewrite Hagent, Hcontent, Hout, Hsid, Hread, Hsave in Hrun.
  destruct Hrun as [_ ->]. eexists. split; [apply lookup_insert_eq|].
  split_and!.
  - by destruct (Agents.store s !! Agents.chatKey sid).
  - by destruct (Agents.store s !! Agents.chatKey sid).
  - by destruct (Agents.store s !! Agents.chatKey sid).
  - intros other Hother. apply lookup_insert_ne. intros H%chatKey_inj. done.
Qed.

(** X11: when the read that precedes the save is rejected but the save
    is fulfilled, a resolved invocation still succeeds and the history of
    the session is overwritten with a new one that holds the two messages
    of this turn only: whatever was stored before is lost. *)
Theorem X11_invokeAgent_failed_read_drops_history (env : Agents.Env) (agentId : string)
    (input : Js.value) (sessionId : option string) (s : Agents.State)
    (agent : Agents.Agent) (content : string) (n : option nat) (output : Js.value)
    (sid : string) :
  Agents.Map_get agentId (Agents.registry s) = Some agent →
  Agents.userContent JSON_stringify input = Some content →
  agent (Agents.prompt_of env s content sessionId) input = Agents.Resolved n output →
  Agents.session sessionId = Some sid →
  Agents.read_after_ok env = false →
  Agents.save_ok env = true →
  let r := Agents.invokeAgent JSON_stringify toString env agentId input sessionId s in
  (∃ response, r.1 = Success response)
  ∧ ∃ saved,
      Agents.store r.2 !! Agents.chatKey sid = Some saved
      ∧ Agents.messages saved = Agents.turn toString env content output
      ∧ Agents.created_at saved = Agents.isoNow env.
Proof.
  intros Hagent Hcontent Hout Hsid Hread Hsave. cbn zeta.
  destruct (invokeAgent_run env agentId input sessionId s) as (_ & Hrun).
  cbn zeta in Hrun. rewrite Hagent, Hcontent, Hout, Hsid, Hread, Hsave in Hrun.
  destruct Hrun as [(response & -> & _) ->]. split; [by eexists|].
  eexists. split; [apply lookup_insert_eq|]. done.
Qed.

(** X12: the state store is left as it is when the agent is unknown,
    when the input has no text (the call dies before the agent is
    invoked), when the invocation is rejected, when no session id is
    given (or an empty one), and when the save is rejected. *)
Theorem X12_invokeAgent_leaves_history (env : Agents.Env) (agentId : string)
    (input : Js.value) (sessionId : option string) (s : Agents.State) :
  Agents.Map_get agentId (Agents.registry s) = None
  ∨ Agents.userContent JSON_stringify input = None
  ∨ (∃ agent content,
       Agents.Map_get agentId (Agents.registry s) = Some agent
       ∧ Agents.userContent JSON_stringify input = Some content
       ∧ agent (Agents.prompt_of env s content sessionId) input = Agents.Rejected)
  ∨ Agents.session sessionId = None
  ∨ Agents.save_ok env = false →
  Agents.store (Agents.invokeAgent JSON_stringify toString env agentId input sessionId s).2
  = Agents.store s.
Proof.
  intros Hcase.
  destruct (invokeAgent_run env agentId input sessionId s) as (_ & Hrun).
  cbn zeta in Hrun.
  destruct (Agents.Map_get agentId (Agents.registry s)) as [agent|]; [|by destruct Hrun].
  destruct (Agents.userContent JSON_stringify input) as [content|] eqn:Hc;
    [|by destruct Hrun].
  destruct (agent (Agents.prompt_of env s content sessionId) input) as [|n output] eqn:Hout;
    [by destruct Hrun|].
  destruct Hrun as [_ ->].
  destruct Hcase as [[=]|[[=]|[(a & c & [= <-] & [= <-] & Ha)|[-> | ->]]]];
    [congruence|done|].
  by destruct (Agents.session sessionId).
Qed.

End AgentFacts.

(** The registry *)
Lemma Map_get_set {V} (key key' : string) (value : V) (m : list (string * V)) :
  Agents.Map_get key' (Agents.Map_set key value m)
  = if String.eqb key' key then Some value else Agents.Map_get key' m.
Proof.
  induction m as [|[k v] m IH]; simpl.
  - by destruct (String.eqb key' key).
  - destruct (String.eqb key k) eqn:Hk; simpl.
    + apply String.eqb_eq in Hk as ->. by destruct (String.eqb key' k).
    + destruct (String.eqb key' k) eqn:Hk'; simpl.
      * apply String.eqb_eq in Hk' as ->.
        rewrite String.eqb_sym in Hk. by rewrite Hk.
      * done.
Qed.

Lemma Map_keys_set {V} (key : string) (value : V) (m : list (string * V)) :
  map fst (Agents.Map_set key value m)
  = if bool_decide (key ∈ map fst m) then map fst m else map fst m ++ [key].
Proof.
  induction m as [|[k v] m IH]; simpl; [done|].
  destruct (String.eqb key k) eqn:Hk; simpl.
  - apply String.eqb_eq in Hk as ->.
    rewrite bool_decide_eq_true_2; [done|]. apply list_elem_of_here.
  - apply String.eqb_neq in Hk. rewrite IH.
    destruct (bool_decide (key ∈ map fst m)) eqn:Hin.
    + apply bool_decide_eq_true in Hin.
      rewrite bool_decide_eq_true_2; [done|]. by apply list_elem_of_further.
    + apply bool_decide_eq_false in Hin.
      rewrite bool_decide_eq_false_2; [done|]. rewrite elem_of_cons. naive_solver.
Qed.

(** X13: after [registerCustomAgent(id, graph)], [getAgent(id)] yields
    that graph and the other ids resolve as before; [listAgents] keeps
    the order of registration, an id registered again keeping its place,
    and so never lists an id twice. *)
Theorem X13_registered_agent_is_found (agentId : string) (graph : Agents.Agent)
    (s : Agents.State) :
  let s' := (Agents.registerCustomAgent agentId graph s).2 in
  (Agents.getAgent agentId s').1 = Success graph
  ∧ (∀ other, other ≠ agentId → (Agents.getAgent other s').1 = (Agents.getAgent other s).1)
  ∧ (Agents.listAgents s').1
    = Success (if bool_decide (agentId ∈ map fst (Agents.registry s))
               then map fst (Agents.registry s)
               else map fst (Agents.registry s) ++ [agentId])
  ∧ (NoDup (map fst (Agents.registry s)) → NoDup (map fst (Agents.registry s'))).
Proof.
  cbn zeta. unfold Agents.registerCustomAgent, Agents.listAgents. run_prog.
  rewrite !Map_get_set, String.eqb_refl, Map_keys_set. split_and!.
  - done.
  - intros other Hother. rewrite Map_get_set.
    apply String.eqb_neq in Hother. rewrite Hother.
    by destruct (Agents.Map_get other (Agents.registry s)).
  - done.
  - intros Hnd. destruct (bool_decide (agentId ∈ map fst (Agents.registry s))) eqn:Hin;
      [done|].
    apply bool_decide_eq_false in Hin. apply NoDup_app. split_and!; [done| |].
    + intros x Hx ->%list_elem_of_singleton. done.
    + apply NoDup_singleton.
Qed.

(** X14: [appendMessage], called for each message of a non-empty list in
    turn with the sidecar fulfilling every call, leaves as history of the
    session the messages stored before followed by those of the list, in
    order; the histories of the other sessions are untouched. *)
Theorem X14_appendMessage_appends (now sid : string) (ms : list Agents.ChatMessage)
    (s : Agents.State) :
  let s' := foldl (λ s m, (Agents.appendMessage true true now sid m s).2) s ms in
  ms ≠ [] →
  (∃ saved,
     Agents.store s' !! Agents.chatKey sid = Some saved
     ∧ Agents.messages saved
       = from_option Agents.messages [] (Agents.store s !! Agents.chatKey sid) ++ ms)
  ∧ ∀ other, other ≠ sid →
      Agents.store s' !! Agents.chatKey other = Agents.store s !! Agents.chatKey other.
Proof.
  cbn zeta. revert s. induction ms as [|m ms IH]; intros s Hne; [done|].
  cbn [foldl].
  set (s1 := (Agents.appendMessage true true now sid m s).2).
  assert (∃ saved, Agents.store s1 !! Agents.chatKey sid = Some saved
                   ∧ Agents.messages saved
                     = from_option Agents.messages []
                         (Agents.store s !! Agents.chatKey sid) ++ [m]) as (st1 & H1 & Hm1).
  { subst s1. unfold Agents.appendMessage. run_prog.
    eexists. split; [apply lookup_insert_eq|].
    by destruct (Agents.store s !! Agents.chatKey sid). }
  assert (∀ other, other ≠ sid →
            Agents.store s1 !! Agents.chatKey other
            = Agents.store s !! Agents.chatKey other) as Ho1.
  { intros other Hother. subst s1. unfold Agents.appendMessage. run_prog.
    apply lookup_insert_ne. by intros H%chatKey_inj. }
  destruct ms as [|m' ms].
  - split; [by exists st1|done].
  - destruct (IH s1 ltac:(done)) as ((saved & Hs & Hm) & Ho).
    split.
    + exists saved. split; [done|]. rewrite Hm, H1. simpl. rewrite Hm1.
      by rewrite <-app_assoc.
    + intros other Hother. by rewrite Ho, Ho1.
Qed.

(** ** An agent request, from [/ai-events] to the agent *)

Section AgentRequest.
Variables (pubsubName : string) (formatIssue : Js.value → string).
Variables (JSON_stringify : Js.value → string) (toString : Js.value → string).

Lemma handleMessage_valid (exact : bool) (x : Exit Agents.Error Js.value)
    (data : Js.value) (ev : CloudEvent.t) (d : MessageHandler.AgentRequestData)
    (w : World AiSvc.PendingRequest AiSvc.Error) :
  CloudEvent.decode exact data = Some ev →
  MessageHandler.decode exact (CloudEvent.data ev) = Some d →
  (∀ a, x = Success a → (MessageHandler.handleMessage exact x data w).1 = Success a)
  ∧ (∀ e, x = Failure (Fail e) →
          (MessageHandler.handleMessage exact x data w).1
          = Failure (Fail (AiSvc.MessageProcessingError (CloudEvent.id ev))))
  ∧ (∀ defect, x = Failure (Die defect) →
          (MessageHandler.handleMessage exact x data w).1 = Failure (Die defect)).
Proof.
  intros Hev Hd. unfold MessageHandler.handleMessage. unfold_eff.
  rewrite Hev. simpl. rewrite Hd. simpl.
  split_and!; [intros a ->|intros e ->|intros defect ->]; done.
Qed.

(** X8: an agent request, from [/ai-events] through [handleMessage] to
    [invokeAgent]: a valid request is answered 200, with the response of
    the agent service as result, exactly when the agent is registered,
    the input has a text and the invocation resolves; for an unknown
    agent or a rejected invocation it is answered 500 with the message
    ["MessageProcessingError"]; for a registered agent and an input
    without text (the request has no [input]) the handler dies with the
    [TypeError] of [invokeAgent] and sends no answer.  Nothing is
    published in any case. *)
Theorem X8_agent_request_answer (exact : bool) (aenv : Agents.Env) (body : Js.value)
    (ev : CloudEvent.t) (d : MessageHandler.AgentRequestData) (s : Agents.State)
    (sample_exit : Exit AiSvc.Error Js.value) (publish_ok : bool) (eventId : string)
    (w wh : World AiSvc.PendingRequest AiSvc.Error) :
  CloudEvent.decode exact body = Some ev →
  CloudEvent.type ev = "agent.request" →
  MessageHandler.decode exact (CloudEvent.data ev) = Some d →
  let agentId := MessageHandler.agentId d in
  let input := MessageHandler.input d in
  let sessionId := CloudEvent.as_string (MessageHandler.sessionId d) in
  let invocation :=
    Agents.invokeAgent JSON_stringify toString aenv agentId input sessionId s in
  let handled := MessageHandler.handleMessage exact invocation.1 body wh in
  let env := AiSvc.mkEnv handled.1 sample_exit publish_ok eventId in
  let w' := (AiSvc.post_ai_events pubsubName formatIssue exact env body w).2 in
  let failed :=
    OpRespond 500 (Js.Object [("error", Js.String "Failed to process AI event");
                              ("message", Js.String "MessageProcessingError")]) in
  published w' = published w
  ∧ match Agents.Map_get agentId (Agents.registry s) with
    | Some agent =>
        match Agents.userContent JSON_stringify input with
        | Some content =>
            match agent (Agents.prompt_of aenv s content sessionId) input with
            | Agents.Resolved n output =>
                ∃ response,
                  Js.get response "output" = Some output
                  ∧ answered w'
                    = answered w
                      ++ [OpRespond 200 (Js.Object [("success", Js.Bool true);
                                                    ("result", response)])]
            | Agents.Rejected => answered w' = answered w ++ [failed]
            end
        | None => answered w' = answered w
        end
    | None => answered w' = answered w ++ [failed]
    end.
Proof.
  intros Hev Htype Hd. cbn zeta.
  destruct (handleMessage_valid exact
              (Agents.invokeAgent JSON_stringify toString aenv (MessageHandler.agentId d)
                 (MessageHandler.input d)
                 (CloudEvent.as_string (MessageHandler.sessionId d)) s).1
              body ev d wh Hev Hd) as (Hok & Hfail & Hdie).
  destruct (invokeAgent_run JSON_stringify toString aenv (MessageHandler.agentId d)
              (MessageHandler.input d)
              (CloudEvent.as_string (MessageHandler.sessionId d)) s) as (_ & Hrun).
  cbn zeta in Hrun.
  unfold AiSvc.post_ai_events, published, answered. unfold_eff.
  rewrite Hev. simpl. rewrite Htype. simpl.
  destruct (Agents.Map_get (MessageHandler.agentId d) (Agents.registry s)) as [agent|].
  - destruct (Agents.userContent JSON_stringify (MessageHandler.input d)) as [content|].
    + destruct (agent _ (MessageHandler.input d)) as [|n output].
      * destruct Hrun as [Hx _]. rewrite (Hfail _ Hx). simpl.
        rewrite !List.filter_app. simpl. by rewrite !app_nil_r.
      * destruct Hrun as [(response & Hx & Hout) _]. rewrite (Hok _ Hx). simpl.
        rewrite !List.filter_app. simpl. rewrite !app_nil_r.
        split; [done|]. by exists response.
    + destruct Hrun as [Hx _]. rewrite (Hdie _ Hx). simpl.
      rewrite !List.filter_app. simpl. by rewrite !app_nil_r.
  - destruct Hrun as [Hx _]. rewrite (Hfail _ Hx). simpl.
    rewrite !List.filter_app. simpl. by rewrite !app_nil_r.
Qed.

End AgentRequest.

(** ** The extras at work *)

Lemma X1_witness :
  published (ToolServer.post_mcp_tool_events "ai-pubsub" example_text example_issue true
               example_tool_env example_tool_request emptyWorld).2
  = [OpPublish "ai-pubsub" "mcp-tool-responses"
       (ToolServer.responseEvent example_tool_env (Js.String "req-1") tool_result)].
Proof.
  exact (proj1 (X1_tool_request_outcome "ai-pubsub" example_text example_issue true example_tool_env
                  example_tool_request
                  (CloudEvent.mk "1.0" "mcp.tool.request" "ai-svc" "evt-1"
                     (Js.Object example_tool_request_fields))
                  example_tool_request_fields emptyWorld eq_refl eq_refl eq_refl)).
Defined.

Lemma X2_witness :
  answered (ToolServer.post_mcp_tool_events "ai-pubsub" example_text example_issue true
              example_tool_env unknown_tool_request emptyWorld).2
  = [OpRespond 500
       (Js.Object [("error", Js.String "Error: Unknown tool: translate-readme")])].
Proof.
  exact (proj2 (proj2 (X2_unknown_tool_rejected "ai-pubsub" example_text example_issue true
                         example_tool_env unknown_tool_request
                         (CloudEvent.mk "1.0" "mcp.tool.request" "ai-svc" "evt-2"
                            (Js.Object unknown_tool_request_fields))
                         unknown_tool_request_fields emptyWorld
                         eq_refl eq_refl eq_refl eq_refl))).
Defined.

Lemma X3_witness :
  answered (ToolServer.post_mcp_tool_events "ai-pubsub" example_text example_issue true
              example_tool_env stray_event emptyWorld).2 = [].
Proof.
  rewrite (X3_other_events_get_no_answer "ai-pubsub" example_text example_issue true example_tool_env
             stray_event
             (CloudEvent.mk "1.0" "mcp.tool.response" "mcp-srvr" "evt-9" stray_response)
             emptyWorld eq_refl ltac:(discriminate)).
  reflexivity.
Defined.

Lemma X4_witness :
  ∃ request response,
    last (published (world ai_in_flight))
      = Some (OpPublish "ai-pubsub" "mcp-tool-requests" request)
    ∧ last (published (ToolServer.post_mcp_tool_events "ai-pubsub" example_text example_issue true
                         example_tool_env request emptyWorld).2)
      = Some (OpPublish "ai-pubsub" "mcp-tool-responses" response)
    ∧ phase_of 0
        (ai_step (AwaitResumed 0)
           (mkSched (AiSvc.post_mcp_tool_events example_issue true response (world ai_in_flight)).2
                    (fibers ai_in_flight)))
      = Some (Done (Success tool_result)).
Proof.
  destruct (X4_tool_call_round_trip "ai-pubsub" example_text example_issue initSched "req-1"
              example_call true example_tool_env emptyWorld tool_result eq_refl)
    as (request & response & Hreq & Hres & Hphase & _).
  exists request, response. split_and!; [exact Hreq|exact Hres|exact Hphase].
Defined.

Lemma X5_witness :
  ∃ response,
    last (published
            (AiSvc.post_ai_events "ai-pubsub" example_issue true
               (AiSvc.mkEnv (Success Js.Null)
                  (Success (AiSvc.samplingResponse "req-1" "A summary" "azure/gpt-4.1"
                              (Js.Number (inject_Z 42))))
                  true "evt-8")
               delivered_sampling_request emptyWorld).2)
      = Some (OpPublish "ai-pubsub" "ai-stream-responses" response)
    ∧ phase_of 0
        (mcp_step (AwaitResumed 0)
           (mkSched (ReadmeMcp.post_mcp_events example_text example_issue true response (world mcp_in_flight)).2
                    (fibers mcp_in_flight)))
      = Some (Done (Success (Js.String "A summary"))).
Proof.
  destruct (X5_sampling_round_trip "ai-pubsub" "ai-stream" 30000 example_text example_issue initSched "req-1"
              example_sample true delivered_sampling_request delivered_sampling_event
              "A summary" (Js.Number (inject_Z 42)) (Success Js.Null) "evt-8" emptyWorld
              ltac:(discriminate) eq_refl ltac:(discriminate) eq_refl)
    as (response & Hres & Hphase & _).
  exists response. split; [exact Hres|exact Hphase].
Defined.

Lemma X6_witness :
  mkSubscription "ai-pubsub" "ai-stream-responses" "/mcp-events"
    ∈ ReadmeMcp_subscribe "ai-pubsub" "ai-stream"
  ∧ mkSubscription "ai-pubsub" "ai-stream-responses" "/mcp-events"
    ∉ ReadmeMcp_subscribe "ai-pubsub" "readme-stream".
Proof.
  destruct (X6_sampling_topics_meet "ai-pubsub" "ai-stream" 30000 example_issue initSched "req-1"
              example_sample "ai-stream" true example_env delivered_sampling_request
              delivered_sampling_event example_sampling_request_fields
              (AiSvc.samplingResponse "req-1" "A summary" "azure/gpt-4.1" Js.Undefined)
              emptyWorld eq_refl ltac:(discriminate) eq_refl eq_refl eq_refl eq_refl)
    as (_ & _ & _ & _ & _ & H1).
  destruct (X6_sampling_topics_meet "ai-pubsub" "readme-stream" 30000 example_issue initSched "req-1"
              example_sample "readme-stream" true example_env delivered_sampling_request
              delivered_sampling_event example_sampling_request_fields
              (AiSvc.samplingResponse "req-1" "A summary" "azure/gpt-4.1" Js.Undefined)
              emptyWorld eq_refl ltac:(discriminate) eq_refl eq_refl eq_refl eq_refl)
    as (_ & _ & _ & _ & _ & H2).
  split; [by apply H1|]. intros H. apply H2 in H. discriminate H.
Defined.

Lemma X7_witness :
  (MessageHandler.handleMessage true (Success (Js.String "hello")) example_agent_request
     emptyWorld).1
  = (MessageHandler.processMessage true (Success (Js.String "hello"))
       example_agent_request emptyWorld).1.
Proof.
  exact (proj1 (X7_handleMessage_as_processMessage true (Success (Js.String "hello"))
                  example_agent_request emptyWorld
                  ltac:(intros l r H; discriminate H))).
Defined.

Lemma X8_witness :
  (∃ response,
     Js.get response "output" = Some (Js.String "hello")
     ∧ answered
         (AiSvc.post_ai_events "ai-pubsub" example_issue true
            (AiSvc.mkEnv
               (MessageHandler.handleMessage true
                  (Agents.invokeAgent example_stringify example_text dapr_up "default"
                     (Js.String "hi") (Some "s-1") example_agents).1
                  example_agent_request emptyWorld).1
               (Failure (Fail (AiSvc.SamplingError Js.Undefined))) true "evt-8")
            example_agent_request emptyWorld).2
       = [OpRespond 200 (Js.Object [("success", Js.Bool true); ("result", response)])])
  ∧ answered
      (AiSvc.post_ai_events "ai-pubsub" example_issue false
         (AiSvc.mkEnv
            (MessageHandler.handleMessage false
               (Agents.invokeAgent example_stringify example_text dapr_up "default"
                  Js.Undefined None example_agents).1
               inputless_agent_request emptyWorld).1
            (Failure (Fail (AiSvc.SamplingError Js.Undefined))) true "evt-8")
         inputless_agent_request emptyWorld).2
    = [].
Proof.
  split.
  - exact (proj2 (X8_agent_request_answer "ai-pubsub" example_issue example_stringify
                    example_text true
                    dapr_up example_agent_request example_agent_event example_agent_data
                    example_agents (Failure (Fail (AiSvc.SamplingError Js.Undefined)))
                    true "evt-8" emptyWorld emptyWorld eq_refl eq_refl eq_refl)).
  - exact (proj2 (X8_agent_request_answer "ai-pubsub" example_issue example_stringify
                    example_text false
                    dapr_up inputless_agent_request
                    (CloudEvent.mk "1.0" "agent.request" "client" "evt-6"
                       (Js.Object [("agentId", Js.String "default")]))
                    (MessageHandler.mkAgentRequestData "default" Js.Undefined Js.Undefined
                       Js.Undefined)
                    example_agents (Failure (Fail (AiSvc.SamplingError Js.Undefined)))
                    true "evt-8" emptyWorld emptyWorld eq_refl eq_refl eq_refl)).
Defined.

Lemma X10_witness :
  ∃ saved,
    Agents.store (Agents.invokeAgent example_stringify example_text dapr_up "default"
                    (Js.String "hi") (Some "s-1") example_agents).2
      !! Agents.chatKey "s-1" = Some saved
    ∧ Agents.messages saved
      = earlier_message :: Agents.turn example_text dapr_up "hi" (Js.String "hello").
Proof.
  destruct (X10_invokeAgent_appends_turn example_stringify example_text dapr_up "default"
              (Js.String "hi") (Some "s-1") example_agents example_agent "hi"
              (Some 3) (Js.String "hello") "s-1"
              eq_refl eq_refl eq_refl eq_refl eq_refl eq_refl)
    as (saved & Hs & Hm & _).
  exists saved. split; [exact Hs|exact Hm].
Defined.

Lemma X11_witness :
  ∃ saved,
    Agents.store (Agents.invokeAgent example_stringify example_text dapr_flaky "default"
                    (Js.String "hi") (Some "s-1") example_agents).2
      !! Agents.chatKey "s-1" = Some saved
    ∧ Agents.messages saved = Agents.turn example_text dapr_flaky "hi" (Js.String "hello").
Proof.
  destruct (X11_invokeAgent_failed_read_drops_history example_stringify example_text
              dapr_flaky "default" (Js.String "hi") (Some "s-1") example_agents
              example_agent "hi" (Some 3) (Js.String "hello") "s-1"
              eq_refl eq_refl eq_refl eq_refl eq_refl eq_refl)
    as (_ & saved & Hs & Hm & _).
  exists saved. split; [exact Hs|exact Hm].
Defined.

Lemma X12_witness :
  Agents.store (Agents.invokeAgent example_stringify example_text dapr_up "nobody"
                  (Js.String "hi") (Some "s-1") example_agents).2
  = Agents.store example_agents
  ∧ Agents.store (Agents.invokeAgent example_stringify example_text dapr_up "default"
                    Js.Undefined (Some "s-1") example_agents).2
    = Agents.store example_agents.
Proof.
  split.
  - exact (X12_invokeAgent_leaves_history example_stringify example_text dapr_up "nobody"
             (Js.String "hi") (Some "s-1") example_agents (or_introl eq_refl)).
  - exact (X12_invokeAgent_leaves_history example_stringify example_text dapr_up "default"
             Js.Undefined (Some "s-1") example_agents (or_intror (or_introl eq_refl))).
Defined.

Lemma X14_witness :
  ∃ saved,
    Agents.store
      (foldl (λ s m, (Agents.appendMessage true true "2023-11-14T22:13:20.000Z" "s-1" m s).2)
             example_agents [earlier_message; earlier_message])
      !! Agents.chatKey "s-1" = Some saved
    ∧ Agents.messages saved = [earlier_message; earlier_message; earlier_message].
Proof.
  destruct (X14_appendMessage_appends "2023-11-14T22:13:20.000Z" "s-1"
              [earlier_message; earlier_message] example_agents ltac:(discriminate))
    as ((saved & Hs & Hm) & _).
  exists saved. split; [exact Hs|exact Hm].
Defined.

Lemma X16_witness :
  ∃ res w',
    ReadmeValidator.validate "# demo" Js.Undefined
      (emptyWorld (R := ReadmeMcp.PendingRequest) (E := ToolServer.Error))
    = (Success res, w')
    ∧ ReadmeValidator.score res = 18%Z.
Proof.
  destruct (X16_validate_score (R := ReadmeMcp.PendingRequest) (E := ToolServer.Error)
              "# demo" Js.Undefined emptyWorld eq_refl)
    as (res & w' & Hv & Hs & _).
  exists res, w'. split; [exact Hv|].
  injection Hv as <- _. exact Hs.
Defined.

Lemma X20_witness :
  ∃ v c w' w0',
    ReadmeValidator.validate "## Usage ## License" Js.Undefined
      (emptyWorld (R := ReadmeMcp.PendingRequest) (E := ToolServer.Error))
    = (Success v, w')
    ∧ ReadmeValidator.checkCompleteness "## Usage ## License"
        (emptyWorld (R := ReadmeMcp.PendingRequest) (E := ToolServer.Error))
      = (Success c, w0')
    ∧ (ReadmeValidator.overallScore c ≤ ReadmeValidator.score v)%Z.
Proof.
  destruct (X20_validate_score_above_completeness
              (R := ReadmeMcp.PendingRequest) (E := ToolServer.Error)
              "## Usage ## License" Js.Undefined emptyWorld emptyWorld eq_refl)
    as (v & c & w' & w0' & Hv & Hc & Hle & _).
  exists v, c, w', w0'. split_and!; [exact Hv|exact Hc|exact Hle].
Defined.

Lemma X21_witness :
  ∃ res w',
    ReadmeValidator.validate (ReadmeGenerator.generateReadmeTemplate example_readme_input)
      (Js.Bool true) (emptyWorld (R := ReadmeMcp.PendingRequest) (E := ToolServer.Error))
    = (Success res, w')
    ∧ ReadmeValidator.valid res = false
    ∧ (98 ≤ ReadmeValidator.score res)%Z.
Proof.
  destruct (X21_generated_readme_validated (R := ReadmeMcp.PendingRequest)
              (R' := ReadmeMcp.PendingRequest) (E' := ToolServer.Error)
              example_readme_input (Js.Bool true) emptyWorld emptyWorld
              (ReadmeGenerator.generateReadmeTemplate example_readme_input) eq_refl)
    as (res & w' & Hv & _ & _ & Hvalid & Hscore).
  exists res, w'. split_and!; [exact Hv| |exact Hscore].
  rewrite Hvalid. reflexivity.
Defined.

